(** * ctb_analysis: the back-testing engines, the comparator and the
      seasonal reducers, embedded and checked against their specification.

    Sources embedded here:
    - [scripts/simple_dca.py]         ([SimpleDCA.run_dca], [print_summary],
                                       [plot_dca_history], [export_purchase_history])
    - [scripts/buy_the_dip.py]        ([BuyTheDip.__init__], [run_strategy],
                                       [print_summary], [plot_strategy_analysis],
                                       [export_results])
    - [scripts/compare_strategies.py] ([run_all_strategies], [print_comparison])
    - [scripts/analyze_drops.py]      (the per-month loop of [analyze_drops])
    - [scripts/monthly_patterns.py]   (month-end closes, their returns, the pivot
                                       and its statistics)
    - [scripts/analyze_august.py]     (the daily-return column and the cumulative
                                       return of each August)
    - [scripts/dca_backtest.py]       ([DCABacktest.run_dca_strategy],
                                       [run_all_months])
    - [src/features/technical_indicators.py] (SMA, EMA, RSI, MACD, ATR)

    Conventions of the embedding.
    - A pandas [DataFrame] with a [DatetimeIndex] is a list of rows in frame
      order; each row carries its index label (a calendar date) and the OHLCV
      columns.  Label lookups ([df.loc[label, col]]) return the first row
      with that label, which is the pandas result when labels are unique.
    - Python floats are idealised as exact rationals [Q]: [+ - * /] are the
      field operations and comparisons are [Qle]/[Qlt].  Rounding is outside
      the model, and so is what a division by zero gives in Python ([inf],
      [NaN] or [ZeroDivisionError]; [x / 0] is [0] in [Q]): statements that
      rest on the value of a quotient take the prices positive, as the data
      model has them.  In [BuyTheDip.print_summary] and in the
      month-of-the-year backtest, which divide two Python numbers, the
      division is a [py_div], which raises [ZeroDivisionError] on a zero
      divisor.  Where the program's floats decide a branch, a label or an
      integer, the statements keep to the cases the rounding cannot
      change.  A missing value (the [NaN] that [shift], [pct_change] or an
      empty bin produce) is [None].
    - A Python exception is a [Raise] in the [outcome] monad; Python's [None]
      result is [Return None].
    - Printing is not modelled, except where evaluating the printed
      expression itself can raise. *)

From Stdlib Require Import String.
From Stdlib Require Import List ZArith QArith Qminmax Qround Bool Lia Lqa.
From Stdlib Require Import Sorting.Sorted.
Import ListNotations.

Local Open Scope Q_scope.

(* ===================================================================== *)
(** * Python-level primitives *)
(* ===================================================================== *)

(** ** Exceptions *)

Inductive exn : Type :=
| ValueError
| KeyError
| IndexError
| TypeError.

Inductive outcome (A : Type) : Type :=
| Return (a : A)
| Raise (e : exn).

Arguments Return {A} a.
Arguments Raise {A} e.

Definition bind {A B : Type} (c : outcome A) (k : A -> outcome B) : outcome B :=
  match c with
  | Return a => k a
  | Raise e => Raise e
  end.

Notation "x <- c ;; k" := (bind c (fun x => k))
  (at level 61, c at next level, right associativity).

(** A loop whose body may raise: [for x in xs: st = body(st, x)]. *)
Fixpoint for_each {S X : Type} (body : S -> X -> outcome S) (xs : list X) (st : S)
  : outcome S :=
  match xs with
  | [] => Return st
  | x :: rest => st' <- body st x ;; for_each body rest st'
  end.

(** ** Numbers *)

(** [a < b] on floats, as a boolean. *)
Definition Qlt_bool (a b : Q) : bool := negb (Qle_bool b a).

(** Python's builtin [sum]: a left fold of [+] starting from [0]. *)
Definition sum (xs : list Q) : Q := fold_left Qplus xs 0.

(** [len(xs)] as a float operand. *)
Definition Qlen {A : Type} (xs : list A) : Q := inject_Z (Z.of_nat (length xs)).

(** Element-wise arithmetic of two aligned series. *)
Fixpoint zip_with {A B C : Type} (f : A -> B -> C) (xs : list A) (ys : list B) : list C :=
  match xs, ys with
  | x :: xs', y :: ys' => f x y :: zip_with f xs' ys'
  | _, _ => []
  end.

(** ** Calendar dates (the labels of a [DatetimeIndex]) *)

Record Date : Type := mkDate { year : Z; month : Z; day : Z }.

Definition date_eqb (a b : Date) : bool :=
  (year a =? year b)%Z && (month a =? month b)%Z && (day a =? day b)%Z.

(** [a < b] on timestamps: lexicographic on (year, month, day). *)
Definition date_ltb (a b : Date) : bool :=
  (year a <? year b)%Z
  || ((year a =? year b)%Z
      && ((month a <? month b)%Z
          || ((month a =? month b)%Z && (day a <? day b)%Z))).

(** [a >= b] on timestamps. *)
Definition date_geb (a b : Date) : bool := negb (date_ltb a b).

Definition is_leap (y : Z) : bool :=
  ((y mod 4 =? 0)%Z && negb (y mod 100 =? 0)%Z) || (y mod 400 =? 0)%Z.

Definition days_in_month (y m : Z) : Z :=
  if (m =? 2)%Z then (if is_leap y then 29 else 28)%Z
  else if ((m =? 4) || (m =? 6) || (m =? 9) || (m =? 11))%Z then 30%Z
  else 31%Z.

(** Whether (year, month, day) names a day of the calendar. *)
Definition valid_ymd (y m d : Z) : bool :=
  (1 <=? m)%Z && (m <=? 12)%Z && (1 <=? d)%Z && (d <=? days_in_month y m)%Z.

(** [pd.Timestamp(year=y, month=m, day=d)]: the constructor raises
    [ValueError] ("day is out of range for month") when the fields do not
    name a day of the calendar. *)
Definition Timestamp (y m d : Z) : outcome Date :=
  if valid_ymd y m d then Return (mkDate y m d) else Raise ValueError.

(** ** Price frames *)

Record Bar : Type := mkBar {
  date : Date;      (* index label *)
  open : Q;
  high : Q;
  low : Q;
  close : Q;
  volume : Q
}.

Definition DataFrame : Type := list Bar.

(** [df.loc[label, col]]: [KeyError] when the label is absent. *)
Fixpoint loc {A : Type} (df : DataFrame) (label : Date) (col : Bar -> A) : outcome A :=
  match df with
  | [] => Raise KeyError
  | row :: rest => if date_eqb (date row) label then Return (col row) else loc rest label col
  end.

(** [s.iloc[0]] and [s.iloc[-1]]: [IndexError] on an empty series. *)
Definition iloc_first {A : Type} (xs : list A) : outcome A :=
  match xs with
  | [] => Raise IndexError
  | x :: _ => Return x
  end.

Fixpoint iloc_last {A : Type} (xs : list A) : outcome A :=
  match xs with
  | [] => Raise IndexError
  | [x] => Return x
  | _ :: rest => iloc_last rest
  end.

(** The period line printed at the start of both engines,
    [df.index.min().strftime('%Y-%m-%d')]: on an empty index [min()] is
    [NaT], and [NaT.strftime] raises [ValueError]. *)
Definition print_period (df : DataFrame) : outcome unit :=
  match df with
  | [] => Raise ValueError
  | _ :: _ => Return tt
  end.

(** ** Grouping by calendar month *)

Definition ym_eqb (a b : Z * Z) : bool :=
  (fst a =? fst b)%Z && (snd a =? snd b)%Z.

Definition ym_ltb (a b : Z * Z) : bool :=
  (fst a <? fst b)%Z || ((fst a =? fst b)%Z && (snd a <? snd b)%Z).

(** Insertion of a key into an ascending list of distinct keys. *)
Fixpoint insert_key (k : Z * Z) (ks : list (Z * Z)) : list (Z * Z) :=
  match ks with
  | [] => [k]
  | k' :: rest =>
      if ym_ltb k k' then k :: ks
      else if ym_eqb k k' then ks
      else k' :: insert_key k rest
  end.

(** [df.groupby(['year', 'month'])]: the keys, distinct and ascending. *)
Definition group_keys (df : DataFrame) : list (Z * Z) :=
  fold_right insert_key [] (map (fun row => (year (date row), month (date row))) df).

(** [df[(df['year'] == y) & (df['month'] == m)]]. *)
Definition month_rows (df : DataFrame) (y m : Z) : DataFrame :=
  filter (fun row => (year (date row) =? y)%Z && (month (date row) =? m)%Z) df.

(* ===================================================================== *)
(** * [scripts/buy_the_dip.py] *)
(* ===================================================================== *)

Module BuyTheDip.

(** The purchase dictionaries appended to [purchases]. *)
Module Purchase.
Record t : Type := mk {
  date : Date;
  price : Q;
  daily_return : Q;
  investment : Q;
  coins_bought : Q;
  total_invested : Q;
  total_coins : Q;
  avg_price : Q
}.
End Purchase.

(** The dictionary stored in [self.results]. *)
Module Results.
Record t : Type := mk {
  total_invested : Q;
  total_coins : Q;
  avg_cost : Q;
  current_price : Q;
  current_value : Q;
  accumulated_cash : Q;
  current_value_with_cash : Q;
  total_return : Q;
  return_pct : Q;
  num_purchases : nat;
  total_days : nat;
  total_should_save : Q;
  dip_days : nat;
  missed_opportunities : nat;
  first_purchase : Date;
  last_purchase : Date;
  purchases : list Purchase.t
}.
End Results.

(** The local variables the loop of [run_strategy] updates. *)
Module Vars.
Record t : Type := mk {
  total_invested : Q;
  total_coins : Q;
  accumulated_cash : Q;
  purchases : list Purchase.t;
  dip_days : nat;
  missed_opportunities : nat
}.
End Vars.

(** The attributes of the object that [run_strategy] reads. *)
Record t : Type := mk {
  df : DataFrame;
  monthly_savings : Q;
  dip_threshold : Q
}.

(** The column [__init__] adds: the intrabar return of a row, in percent. *)
Definition daily_return (row : Bar) : Q :=
  (close row - open row) / open row * 100.

Definition daily_savings (self : t) : Q := monthly_savings self / 30.

Definition init : Vars.t := Vars.mk 0 0 0 [] 0%nat 0%nat.

(** One iteration of [for idx, row in self.df.iterrows()]. *)
Definition step (self : t) (v : Vars.t) (row : Bar) : Vars.t :=
  let accumulated_cash := Vars.accumulated_cash v + daily_savings self in
  if Qle_bool (daily_return row) (dip_threshold self) then
    let dip_days := S (Vars.dip_days v) in
    if Qle_bool 100 accumulated_cash then
      let price := close row in
      let investment := accumulated_cash in
      let coins_bought := investment / price in
      let total_coins := Vars.total_coins v + coins_bought in
      let total_invested := Vars.total_invested v + investment in
      let purchase :=
        Purchase.mk (date row) price (daily_return row) investment coins_bought
          total_invested total_coins
          (if Qlt_bool 0 total_coins then total_invested / total_coins else 0) in
      Vars.mk total_invested total_coins 0 (Vars.purchases v ++ [purchase])
        dip_days (Vars.missed_opportunities v)
    else
      Vars.mk (Vars.total_invested v) (Vars.total_coins v) accumulated_cash
        (Vars.purchases v) dip_days (S (Vars.missed_opportunities v))
  else
    Vars.mk (Vars.total_invested v) (Vars.total_coins v) accumulated_cash
      (Vars.purchases v) (Vars.dip_days v) (Vars.missed_opportunities v).

(** The whole loop, rows in frame order. *)
Definition simulate (self : t) : Vars.t := fold_left (step self) (df self) init.

Definition run_strategy (self : t) : outcome (option Results.t) :=
  let total_days := length (df self) in
  _ <- print_period (df self) ;;
  let v := simulate self in
  let purchases := Vars.purchases v in
  if (0 <? length purchases)%nat then
    current_price <- iloc_last (map close (df self)) ;;
    let current_value := Vars.total_coins v * current_price in
    let total_should_save := Qlen (df self) * daily_savings self in
    let current_value_with_cash := current_value + Vars.accumulated_cash v in
    let total_return := current_value_with_cash - total_should_save in
    let return_pct :=
      if Qlt_bool 0 total_should_save
      then (total_return / total_should_save) * 100 else 0 in
    let avg_cost :=
      if Qlt_bool 0 (Vars.total_coins v)
      then Vars.total_invested v / Vars.total_coins v else 0 in
    first <- iloc_first purchases ;;
    last <- iloc_last purchases ;;
    Return (Some (Results.mk (Vars.total_invested v) (Vars.total_coins v) avg_cost
                    current_price current_value (Vars.accumulated_cash v)
                    current_value_with_cash total_return return_pct
                    (length purchases) total_days total_should_save
                    (Vars.dip_days v) (Vars.missed_opportunities v)
                    (Purchase.date first) (Purchase.date last) purchases))
  else Return None.

End BuyTheDip.

(* ===================================================================== *)
(** * [scripts/simple_dca.py] *)
(* ===================================================================== *)

Module SimpleDCA.

Module Purchase.
Record t : Type := mk {
  date : Date;
  year : Z;
  month : Z;
  price : Q;
  investment : Q;
  coins_bought : Q;
  total_invested : Q;
  total_coins : Q;
  avg_price : Q
}.
End Purchase.

Module Results.
Record t : Type := mk {
  total_invested : Q;
  total_coins : Q;
  avg_cost : Q;
  current_price : Q;
  current_value : Q;
  total_return : Q;
  return_pct : Q;
  num_purchases : nat;
  first_purchase : Date;
  last_purchase : Date;
  purchases : list Purchase.t
}.
End Results.

Module Vars.
Record t : Type := mk {
  total_invested : Q;
  total_coins : Q;
  purchases : list Purchase.t
}.
End Vars.

Record t : Type := mk {
  df : DataFrame;
  monthly_investment : Q;
  day_of_month : Z
}.

(** [self.df.groupby(['year', 'month']).size().reset_index()[['year', 'month']]]. *)
Definition unique_months (self : t) : list (Z * Z) := group_keys (df self).

Definition init : Vars.t := Vars.mk 0 0 [].

(** The date the month's purchase is made on: the first available date
    not before the target, else the last available date.  [available_dates]
    is not empty where this is called. *)
Definition buy_date (available_dates : list Date) (target_date : Date) : outcome Date :=
  let matching_dates := filter (fun d => date_geb d target_date) available_dates in
  if (0 <? length matching_dates)%nat
  then iloc_first matching_dates
  else iloc_last available_dates.

(** One iteration of [for idx, row in unique_months.iterrows()]. *)
Definition step (self : t) (v : Vars.t) (row : Z * Z) : outcome Vars.t :=
  let year := fst row in
  let month := snd row in
  let month_data := month_rows (df self) year month in
  if (length month_data =? 0)%nat then Return v   (* continue *)
  else
    target_date <- Timestamp year month (day_of_month self) ;;
    let available_dates := map date month_data in
    buy_date <- buy_date available_dates target_date ;;
    price <- loc (df self) buy_date close ;;
    let coins_bought := monthly_investment self / price in
    let total_coins := Vars.total_coins v + coins_bought in
    let total_invested := Vars.total_invested v + monthly_investment self in
    let purchase :=
      Purchase.mk buy_date year month price (monthly_investment self) coins_bought
        total_invested total_coins (total_invested / total_coins) in
    Return (Vars.mk total_invested total_coins (Vars.purchases v ++ [purchase])).

Definition simulate (self : t) : outcome Vars.t :=
  for_each (step self) (unique_months self) init.

Definition run_dca (self : t) : outcome (option Results.t) :=
  _ <- print_period (df self) ;;
  v <- simulate self ;;
  let purchases := Vars.purchases v in
  let total_invested := Vars.total_invested v in
  let total_coins := Vars.total_coins v in
  if (0 <? length purchases)%nat then
    current_price <- iloc_last (map close (df self)) ;;
    let current_value := total_coins * current_price in
    let total_return := current_value - total_invested in
    let return_pct :=
      if Qlt_bool 0 total_invested then (total_return / total_invested) * 100 else 0 in
    let avg_cost :=
      if Qlt_bool 0 total_coins then total_invested / total_coins else 0 in
    first <- iloc_first purchases ;;
    last <- iloc_last purchases ;;
    Return (Some (Results.mk total_invested total_coins avg_cost current_price
                    current_value total_return return_pct (length purchases)
                    (Purchase.date first) (Purchase.date last) purchases))
  else Return None.

End SimpleDCA.

(* ===================================================================== *)
(** * [scripts/compare_strategies.py]: the summary of [print_comparison] *)
(* ===================================================================== *)

Module StrategyComparison.

(** A dictionary with string keys, in insertion order. *)
Definition dict : Type := list (string * Z).

(** [scores[key] += n], for a key of the dictionary. *)
Fixpoint add_points (scores : dict) (key : string) (n : Z) : dict :=
  match scores with
  | [] => []
  | (k, v) :: rest =>
      if String.eqb k key then (k, (v + n)%Z) :: rest
      else (k, v) :: add_points rest key n
  end.

(** [scores.get(key)], for a key of the dictionary. *)
Fixpoint get (scores : dict) (key : string) : Z :=
  match scores with
  | [] => 0%Z
  | (k, v) :: rest => if String.eqb k key then v else get rest key
  end.

(** [max(scores, key=scores.get)]: the keys are visited in insertion order
    and a key replaces the best so far only when its value is strictly
    greater, so the first of several greatest wins.  [max] of an empty
    dictionary raises [ValueError]. *)
Definition max_key (scores : dict) : outcome string :=
  match map fst scores with
  | [] => Raise ValueError
  | k :: ks =>
      Return (fold_left (fun best key =>
                           if (get scores best <? get scores key)%Z then key else best)
                ks k)
  end.

(** The four metrics as [print_comparison] reads them from the two result
    dictionaries. *)
Record Metrics : Type := mkMetrics {
  dca_btc : Q;  dip_btc : Q;
  dca_avg : Q;  dip_avg : Q;
  dca_return : Q;  dip_return : Q;
  dca_util : Q;  dip_util : Q
}.

Definition metrics (dca_r : SimpleDCA.Results.t) (dip_r : BuyTheDip.Results.t) : Metrics :=
  let dca_invested := SimpleDCA.Results.total_invested dca_r in
  let dip_invested := BuyTheDip.Results.total_invested dip_r in
  mkMetrics
    (SimpleDCA.Results.total_coins dca_r) (BuyTheDip.Results.total_coins dip_r)
    (SimpleDCA.Results.avg_cost dca_r) (BuyTheDip.Results.avg_cost dip_r)
    (SimpleDCA.Results.return_pct dca_r) (BuyTheDip.Results.return_pct dip_r)
    ((dca_invested / SimpleDCA.Results.total_invested dca_r) * 100)
    ((dip_invested / BuyTheDip.Results.total_should_save dip_r) * 100).

Definition SIMPLE_DCA : string := "Simple DCA".
Definition BUY_THE_DIP : string := "Buy the Dip".

(** The [scores] dictionary after the four [if]/[else] blocks. *)
Definition tally (m : Metrics) : dict :=
  let scores := [(SIMPLE_DCA, 0%Z); (BUY_THE_DIP, 0%Z)] in
  let scores :=
    if Qlt_bool (dip_btc m) (dca_btc m)
    then add_points scores SIMPLE_DCA 3 else add_points scores BUY_THE_DIP 3 in
  let scores :=
    if Qlt_bool (dca_avg m) (dip_avg m)
    then add_points scores SIMPLE_DCA 2 else add_points scores BUY_THE_DIP 2 in
  let scores :=
    if Qlt_bool (dip_return m) (dca_return m)
    then add_points scores SIMPLE_DCA 2 else add_points scores BUY_THE_DIP 2 in
  let scores :=
    if Qlt_bool (dip_util m) (dca_util m)
    then add_points scores SIMPLE_DCA 1 else add_points scores BUY_THE_DIP 1 in
  scores.

(** The name printed after [WINNER:]. *)
Definition winner (m : Metrics) : outcome string := max_key (tally m).

(** [run_all_strategies]: both engines on copies of the same frame, with
    the same monthly amount. *)
Definition run_all_strategies (df : DataFrame) (monthly_investment : Q)
    (dip_threshold : Q) (day_of_month : Z)
  : outcome (option SimpleDCA.Results.t * option BuyTheDip.Results.t) :=
  simple_dca_results <- SimpleDCA.run_dca (SimpleDCA.mk df monthly_investment day_of_month) ;;
  buy_dip_results <- BuyTheDip.run_strategy (BuyTheDip.mk df monthly_investment dip_threshold) ;;
  Return (simple_dca_results, buy_dip_results).

(** The summary of [print_comparison]: the scores and the winner.
    Subscripting a result that is [None] raises [TypeError]. *)
Definition print_comparison
    (results : option SimpleDCA.Results.t * option BuyTheDip.Results.t)
  : outcome (dict * string) :=
  match results with
  | (Some dca_r, Some dip_r) =>
      let m := metrics dca_r dip_r in
      w <- winner m ;;
      Return (tally m, w)
  | _ => Raise TypeError
  end.

(** The number of metrics each strategy wins, pointwise, with the same
    comparisons: the reading of the tally in which every metric counts
    once (it is not what [tally] computes; the two are compared below). *)
Definition metrics_won (m : Metrics) : Z * Z :=
  let b2z (b : bool) : Z := if b then 1%Z else 0%Z in
  let dca :=
    (b2z (Qlt_bool (dip_btc m) (dca_btc m)) + b2z (Qlt_bool (dca_avg m) (dip_avg m))
     + b2z (Qlt_bool (dip_return m) (dca_return m))
     + b2z (Qlt_bool (dip_util m) (dca_util m)))%Z in
  (dca, (4 - dca)%Z).

End StrategyComparison.

(* ===================================================================== *)
(** * [scripts/analyze_drops.py]: the per-month loop of [analyze_drops] *)
(* ===================================================================== *)

Module AnalyzeDrops.

(** The dictionaries appended to [results]. *)
Record Entry : Type := mkEntry {
  Period : Z * Z;            (* (year, month) of the [Period('M')] key *)
  Open : Q;
  Close : Q;
  Return_pct : Q;            (* 'Return (%)' *)
  Max_Drawdown_pct : Q;      (* 'Max Drawdown (%)' *)
  Max_Daily_Drop_pct : Q     (* 'Max Daily Drop (%)' *)
}.

(** [s.cummax()]. *)
Fixpoint cummax_from (m : Q) (xs : list Q) : list Q :=
  match xs with
  | [] => []
  | x :: rest => let m' := Qmax m x in m' :: cummax_from m' rest
  end.

Definition cummax (xs : list Q) : list Q :=
  match xs with
  | [] => []
  | x :: rest => x :: cummax_from x rest
  end.

(** [s.min()].  The series it is applied to below are never empty (an
    empty group would have raised at [iloc[0]] before); the empty case is
    kept as an error. *)
Definition series_min (xs : list Q) : outcome Q :=
  match xs with
  | [] => Raise ValueError
  | x :: rest => Return (fold_left Qmin rest x)
  end.

(** The body of [for period, group in df.groupby('year_month')]. *)
Definition month_entry (period : Z * Z) (group : DataFrame) : outcome Entry :=
  open_price <- iloc_first (map open group) ;;
  close_price <- iloc_last (map close group) ;;
  let monthly_return := ((close_price - open_price) / open_price) * 100 in
  let rolling_max := cummax (map high group) in
  let daily_drawdown :=
    zip_with (fun l m => (l - m) / m * 100) (map low group) rolling_max in
  max_drawdown <- series_min daily_drawdown ;;
  let daily_drop := map (fun row => ((close row - open row) / open row) * 100) group in
  max_daily_drop <- series_min daily_drop ;;
  Return (mkEntry period open_price close_price monthly_return max_drawdown max_daily_drop).

(** [results] after the loop: one iteration per group, keys ascending. *)
Fixpoint collect (df : DataFrame) (periods : list (Z * Z)) : outcome (list Entry) :=
  match periods with
  | [] => Return []
  | p :: rest =>
      e <- month_entry p (month_rows df (fst p) (snd p)) ;;
      es <- collect df rest ;;
      Return (e :: es)
  end.

Definition results (df : DataFrame) : outcome (list Entry) :=
  collect df (group_keys df).

End AnalyzeDrops.

(* ===================================================================== *)
(** * [scripts/analyze_august.py]: the [daily_return] column *)
(* ===================================================================== *)

Module AnalyzeAugust.

(** [s.pct_change()]: [s / s.shift(1) - 1]; the first element has no
    predecessor and is missing. *)
Fixpoint pct_change_from (prev : Q) (xs : list Q) : list (option Q) :=
  match xs with
  | [] => []
  | x :: rest => Some (x / prev - 1) :: pct_change_from x rest
  end.

Definition pct_change (xs : list Q) : list (option Q) :=
  match xs with
  | [] => []
  | x :: rest => None :: pct_change_from x rest
  end.

(** [s.pct_change() * 100]. *)
Definition pct_change_100 (xs : list Q) : list (option Q) :=
  map (option_map (fun r => r * 100)) (pct_change xs).

(** A frame with the added column. *)
Record Row : Type := mkRow { bar : Bar; daily_return : option Q }.

(** [frame['daily_return'] = frame['close'].pct_change() * 100]. *)
Definition with_own_returns (frame : DataFrame) : list Row :=
  zip_with mkRow frame (pct_change_100 (map close frame)).

(** [df.loc[label, 'daily_return']] on the frame with the column. *)
Fixpoint loc_return (rows : list Row) (label : Date) : outcome (option Q) :=
  match rows with
  | [] => Raise KeyError
  | r :: rest =>
      if date_eqb (date (bar r)) label then Return (daily_return r) else loc_return rest label
  end.

(** [sub['daily_return'] = df.loc[sub.index, 'daily_return']]: every row of
    [sub] receives the value stored in [df] under its own label. *)
Fixpoint assign_from (df : list Row) (sub : list Row) : outcome (list Row) :=
  match sub with
  | [] => Return []
  | r :: rest =>
      v <- loc_return df (date (bar r)) ;;
      rest' <- assign_from df rest ;;
      Return (mkRow (bar r) v :: rest')
  end.

(** [df[df.index.month == 8]]. *)
Definition august_rows (df : DataFrame) : DataFrame :=
  filter (fun row => (month (date row) =? 8)%Z) df.

(** Lines 24 to 36: [august_data] with its [daily_return] column.  The
    column is first computed inside the subrange (line 32) and then
    overwritten from the whole frame (lines 35-36). *)
Definition august_data (df : DataFrame) : outcome (list Row) :=
  let august := with_own_returns (august_rows df) in
  let df' := with_own_returns df in
  assign_from df' august.

End AnalyzeAugust.


(* ===================================================================== *)
(** * [scripts/monthly_patterns.py]: month-end closes and their returns *)
(* ===================================================================== *)

Module MonthlyPatterns.

(** Calendar months counted from year 0: (y, m) is month [12 * y + (m - 1)]. *)
Definition ord (k : Z * Z) : Z := (12 * fst k + (snd k - 1))%Z.

Definition of_ord (o : Z) : Z * Z := ((o / 12)%Z, (o mod 12 + 1)%Z).

Fixpoint Zrange (lo : Z) (n : nat) : list Z :=
  match n with
  | O => []
  | S n' => lo :: Zrange (lo + 1)%Z n'
  end.

(** The bins of [resample('ME')]: every calendar month from the month of
    the earliest row to the month of the latest row, with or without
    rows. *)
Definition bins (df : DataFrame) : list (Z * Z) :=
  match group_keys df with
  | [] => []
  | first :: _ =>
      let last := List.last (group_keys df) first in
      map of_ord (Zrange (ord first) (Z.to_nat (ord last - ord first + 1)))
  end.

(** The row a bin's [last()] takes: the latest in time (resampling sorts
    the rows by time, keeping the frame order of equal times). *)
Definition latest (rows : DataFrame) : option Bar :=
  fold_left (fun best row =>
               match best with
               | None => Some row
               | Some b => if date_ltb (date row) (date b) then Some b else Some row
               end) rows None.

(** [monthly_close = df['close'].resample('ME').last()]: a bin without
    rows holds a missing value. *)
Definition monthly_close (df : DataFrame) : list ((Z * Z) * option Q) :=
  map (fun k => (k, option_map close (latest (month_rows df (fst k) (snd k))))) (bins df).

(** [data / data.shift(1) - 1] on values that may be missing. *)
Definition ratio (cur prev : option Q) : option Q :=
  match cur, prev with
  | Some a, Some b => Some (a / b - 1)
  | _, _ => None
  end.

(** [s.pct_change()].  [pad] tells whether missing values are first
    filled forward ([fill_method='pad'], the default of the pandas
    releases that know the 'ME' alias before 3.0) or left missing.
    [prev] is the value before the series, after filling. *)
Fixpoint pct_change_from (pad : bool) (prev : option Q) (xs : list (option Q))
  : list (option Q) :=
  match xs with
  | [] => []
  | x :: rest =>
      let cur := match x with
                 | Some _ => x
                 | None => if pad then prev else None
                 end in
      ratio cur prev :: pct_change_from pad cur rest
  end.

Definition pct_change (pad : bool) (xs : list (option Q)) : list (option Q) :=
  pct_change_from pad None xs.

(** [monthly_returns = monthly_close.pct_change() * 100], by bin. *)
Definition monthly_returns (pad : bool) (df : DataFrame) : list ((Z * Z) * option Q) :=
  let mc := monthly_close df in
  combine (map fst mc)
    (map (option_map (fun r => r * 100)) (pct_change pad (map snd mc))).

(** The rows of [seasonality_df] after [dropna]: (Year, Month, Return);
    they are the cells of the pivot table. *)
Definition seasonality (pad : bool) (df : DataFrame) : list (Z * Z * Q) :=
  flat_map (fun kr => match snd kr with
                      | Some r => [(fst (fst kr), snd (fst kr), r)]
                      | None => []
                      end) (monthly_returns pad df).

End MonthlyPatterns.

(* ===================================================================== *)
(** * Assumptions on the input and properties of purchase logs *)
(* ===================================================================== *)

(** The data model's assumption on prices, as far as the engines divide by
    them: every close is positive. *)
Definition positive_closes (df : DataFrame) : Prop :=
  Forall (fun row => 0 < close row) df.

(** The data model's assumption on the prices the dip engine reads:
    every open and every close is positive. *)
Definition positive_prices (df : DataFrame) : Prop :=
  Forall (fun row => 0 < open row /\ 0 < close row) df.

(** A purchase log keeps exact books when the cumulative totals recorded
    with the purchase at position [k] are the sums of the amounts of the
    purchases at positions [0..k], and its running average is the quotient
    of these two totals. *)
Definition exact_books {P : Type}
    (investment coins_bought total_invested total_coins avg_price : P -> Q)
    (log : list P) : Prop :=
  forall k p,
    nth_error log k = Some p ->
    total_invested p = sum (map investment (firstn (S k) log))
    /\ total_coins p = sum (map coins_bought (firstn (S k) log))
    /\ avg_price p = total_invested p / total_coins p.

(** A series of numbers that never decreases from one position to a later one. *)
Definition nondecreasing (xs : list Q) : Prop :=
  forall i j a b,
    (i <= j)%nat -> nth_error xs i = Some a -> nth_error xs j = Some b -> a <= b.

(** The target day exists in every month the frame has rows in, so that
    the target timestamp of every month can be built. *)
Definition target_day_exists (df : DataFrame) (day_of_month : Z) : Prop :=
  Forall (fun row => valid_ymd (year (date row)) (month (date row)) day_of_month = true) df.

(** What should have been saved over a frame at a monthly stipend: the
    number of bars times a thirtieth of the stipend (the dip engine's
    [total_should_save]). *)
Definition should_have_saved (df : DataFrame) (monthly : Q) : Q :=
  Qlen df * (monthly / 30).

(** The same amount counted by calendar months: the stipend for every
    month from the first bar's month to the last bar's month. *)
Definition saved_over_months (df : DataFrame) (monthly : Q) : Q :=
  Qlen (MonthlyPatterns.bins df) * monthly.

(** A return, in percent, of a final value against a base amount. *)
Definition return_pct_against (final_value base : Q) : Q :=
  (final_value - base) / base * 100.

(** The metrics [print_comparison] reads after [run_all_strategies] on a
    frame. *)
Definition compared_metrics (df : DataFrame) (monthly_investment dip_threshold : Q)
    (day_of_month : Z) : outcome StrategyComparison.Metrics :=
  results <- StrategyComparison.run_all_strategies df monthly_investment dip_threshold
               day_of_month ;;
  match results with
  | (Some dca_r, Some dip_r) => Return (StrategyComparison.metrics dca_r dip_r)
  | _ => Raise TypeError
  end.

(** The points a comparison adds to a score. *)
Definition points (won : bool) (weight : Z) : Z := if won then weight else 0%Z.


(** The rows carry months of the calendar. *)
Definition calendar_months (df : DataFrame) : Prop :=
  Forall (fun row => (1 <= month (date row) <= 12)%Z) df.

(* ===================================================================== *)
(** * Orders, and the invariants of the two loops *)
(* ===================================================================== *)

Definition date_lt (a b : Date) : Prop := date_ltb a b = true.

Definition ym_lt (a b : Z * Z) : Prop := ym_ltb a b = true.

(** An ascending list of month keys. *)
Definition ascending (ks : list (Z * Z)) : Prop := StronglySorted ym_lt ks.

Section DipInvariants.

Import BuyTheDip.

(** What is recorded with each purchase, whatever the prices. *)
Definition dip_books (v : Vars.t) : Prop :=
  Vars.total_invested v = sum (map Purchase.investment (Vars.purchases v))
  /\ Vars.total_coins v = sum (map Purchase.coins_bought (Vars.purchases v))
  /\ Vars.dip_days v = (length (Vars.purchases v) + Vars.missed_opportunities v)%nat
  /\ forall k p,
      nth_error (Vars.purchases v) k = Some p ->
      Purchase.total_invested p
      = sum (map Purchase.investment (firstn (S k) (Vars.purchases v)))
      /\ Purchase.total_coins p
         = sum (map Purchase.coins_bought (firstn (S k) (Vars.purchases v)))
      /\ Purchase.avg_price p
         = (if Qlt_bool 0 (Purchase.total_coins p)
            then Purchase.total_invested p / Purchase.total_coins p else 0).

(** With positive closes every purchase buys a positive quantity. *)
Definition dip_positive (v : Vars.t) : Prop :=
  0 <= Vars.total_coins v
  /\ forall p, In p (Vars.purchases v) -> 0 < Purchase.total_coins p.

(** Without a positive stipend the cash never reaches the floor of 100. *)
Definition dip_idle (v : Vars.t) : Prop :=
  Vars.accumulated_cash v <= 0 /\ Vars.purchases v = [].

End DipInvariants.

Section DcaInvariants.

Import SimpleDCA.

Variable self : SimpleDCA.t.

(** The state after the iteration for month [k] that buys on date [d] at
    price [price]. *)
Definition dca_bought (v : Vars.t) (k : Z * Z) (d : Date) (price : Q) : Vars.t :=
  let total_invested := Vars.total_invested v + monthly_investment self in
  let total_coins := Vars.total_coins v + monthly_investment self / price in
  Vars.mk total_invested total_coins
    (Vars.purchases v
     ++ [Purchase.mk d (fst k) (snd k) price (monthly_investment self)
           (monthly_investment self / price) total_invested total_coins
           (total_invested / total_coins)]).

(** What the engine records with one purchase. *)
Definition dca_purchase_ok (p : Purchase.t) : Prop :=
  Purchase.investment p = monthly_investment self
  /\ Purchase.coins_bought p = monthly_investment self / Purchase.price p
  /\ loc (df self) (Purchase.date p) close = Return (Purchase.price p)
  /\ buy_date (map date (month_rows (df self) (Purchase.year p) (Purchase.month p)))
       (mkDate (Purchase.year p) (Purchase.month p) (day_of_month self))
     = Return (Purchase.date p)
  /\ year (Purchase.date p) = Purchase.year p
  /\ month (Purchase.date p) = Purchase.month p
  /\ exists row, In row (df self) /\ date row = Purchase.date p /\ close row = Purchase.price p.

(** The state of the loop after the months [done]. *)
Definition dca_books (done : list (Z * Z)) (v : Vars.t) : Prop :=
  map (fun p => (Purchase.year p, Purchase.month p)) (Vars.purchases v) = done
  /\ Vars.total_invested v = sum (map Purchase.investment (Vars.purchases v))
  /\ Vars.total_coins v = sum (map Purchase.coins_bought (Vars.purchases v))
  /\ Vars.total_invested v == Qlen (Vars.purchases v) * monthly_investment self
  /\ exact_books Purchase.investment Purchase.coins_bought Purchase.total_invested
       Purchase.total_coins Purchase.avg_price (Vars.purchases v)
  /\ Forall dca_purchase_ok (Vars.purchases v).

(** The cumulative totals never decrease along the log when the amount is
    not negative and closes are positive. *)
Definition dca_monotone (v : Vars.t) : Prop :=
  (forall a, In a (map Purchase.total_invested (Vars.purchases v)) ->
             a <= Vars.total_invested v)
  /\ (forall a, In a (map Purchase.total_coins (Vars.purchases v)) ->
                a <= Vars.total_coins v)
  /\ nondecreasing (map Purchase.total_invested (Vars.purchases v))
  /\ nondecreasing (map Purchase.total_coins (Vars.purchases v)).

End DcaInvariants.



(* ===================================================================== *)
(** * Concrete frames used in the examples *)
(* ===================================================================== *)

(** A bar whose four prices are given; the volume plays no role. *)
Definition bar (y m d : Z) (o h l c : Q) : Bar := mkBar (mkDate y m d) o h l c 1.

(** Three months of two bars each.  With target day 5 the purchases fall
    on Jan 5 (close 100), Feb 6 (close 120, the 5th has no bar) and Mar 4
    (close 80, no bar on or after the 5th); the last close is 80. *)
Definition three_months : DataFrame :=
  [ bar 2024 1 3   90  95  85  90;
    bar 2024 1 5  100 105  95 100;
    bar 2024 2 2  110 115 105 110;
    bar 2024 2 6  130 135 115 120;
    bar 2024 3 1   70  75  65  70;
    bar 2024 3 4   80  85  75  80 ].

Definition dca_three_months : SimpleDCA.t := SimpleDCA.mk three_months 1000 5.

(** The same frame bought on dips of 5 percent with a stipend large
    enough to clear the floor of 100 on the first dip. *)
Definition dip_three_months : BuyTheDip.t := BuyTheDip.mk three_months 10000 (-5).

(** February 2023 with bars up to the 28th, and April 2023. *)
Definition february : DataFrame :=
  [ bar 2023 2 24 100 100 100 100;
    bar 2023 2 27 100 100 100 100;
    bar 2023 2 28 100 100 100 100 ].

Definition april : DataFrame :=
  [ bar 2023 4 3 100 100 100 100;
    bar 2023 4 28 100 100 100 100 ].

(** A frame without rows. *)
Definition no_rows : DataFrame := [].

(** A quiet frame: no bar falls by 5 percent between open and close. *)
Definition quiet : DataFrame :=
  [ bar 2024 1 3 100 102  99 101;
    bar 2024 1 4 101 103  98  99;
    bar 2024 1 5  99 100  97 100 ].

(** A frame whose last bar is a dip: the dip engine spends all it has
    saved on the last day. *)
Definition dip_on_last_day : DataFrame :=
  [ bar 2024 1 3 100 101  99 100;
    bar 2024 1 5 100 101  99 100;
    bar 2024 1 8 100 101  89  90 ].


(** Two Augusts with other months between them.  The first bar of August
    2024 follows the bar of July 31, 2024 in the frame and the bar of
    August 31, 2023 among the August bars. *)
Definition two_augusts : DataFrame :=
  [ bar 2023 7 31 100 100 100 100;
    bar 2023 8 1  100 110 100 110;
    bar 2023 8 31 110 121 110 121;
    bar 2024 7 31 121 242 121 242;
    bar 2024 8 1  242 242 121 121 ].

(** January and March 2024, no bar in February. *)
Definition gapped : DataFrame :=
  [ bar 2024 1 3   90  95  85  90;
    bar 2024 1 5  100 105  95 100;
    bar 2024 3 1   70  75  65  70;
    bar 2024 3 4   80  85  75  80 ].

(** Two flat days, then two days falling by more than 5 percent.  With a
    stipend of 1500 a month (50 a day) the first dip finds 150 saved and
    buys; the second finds 50. *)
Definition two_dips : DataFrame :=
  [ bar 2024 1 3 100 101  99 100;
    bar 2024 1 4 100 101  99 100;
    bar 2024 1 5 100 101  89  90;
    bar 2024 1 6  90  91  79  80 ].

(* ===================================================================== *)
(** * [scripts/buy_the_dip.py]: [print_summary] and [export_results] *)
(* ===================================================================== *)

(** Arithmetic on Python numbers that may raise [ZeroDivisionError]. *)
Inductive arith (A : Type) : Type :=
| Value (a : A)
| ZeroDivisionError.

Arguments Value {A} a.
Arguments ZeroDivisionError {A}.

(** [a / b] on Python numbers. *)
Definition py_div (a b : Q) : arith Q :=
  if Qeq_bool b 0 then ZeroDivisionError else Value (a / b).

Definition arith_bind {A B : Type} (c : arith A) (k : A -> arith B) : arith B :=
  match c with
  | Value a => k a
  | ZeroDivisionError => ZeroDivisionError
  end.

(** An [int] as an operand of float arithmetic. *)
Definition Qnat (n : nat) : Q := inject_Z (Z.of_nat n).

(** A subsequence: some elements of a list, in the order of the list. *)
Inductive subsequence {A : Type} : list A -> list A -> Prop :=
| subsequence_nil : forall ys, subsequence [] ys
| subsequence_take : forall x xs ys, subsequence xs ys -> subsequence (x :: xs) (x :: ys)
| subsequence_skip : forall xs y ys, subsequence xs ys -> subsequence xs (y :: ys).

(** A purchase of the dip engine made on a row: the row is a dip, what is
    spent is at least the floor of 100 and buys at the row's close. *)
Definition dip_purchase_on (self : BuyTheDip.t) (p : BuyTheDip.Purchase.t) (row : Bar)
  : Prop :=
  BuyTheDip.Purchase.date p = date row
  /\ BuyTheDip.Purchase.price p = close row
  /\ BuyTheDip.Purchase.daily_return p = BuyTheDip.daily_return row
  /\ BuyTheDip.daily_return row <= BuyTheDip.dip_threshold self
  /\ 100 <= BuyTheDip.Purchase.investment p
  /\ BuyTheDip.Purchase.coins_bought p = BuyTheDip.Purchase.investment p / close row.

Module DipReport.

(** What [print_summary] computes besides formatting fields of the
    results: the two rates, the sign prefix and the insight it prints. *)
Record Summary : Type := mkSummary {
  purchase_rate : Q;         (* num_purchases / dip_days * 100 *)
  investment_rate : Q;       (* total_invested / total_should_save * 100 *)
  profit_symbol : string;    (* "+" if total_return >= 0 else "" *)
  utilization : Q;
  low_utilization : bool     (* utilization < 50 *)
}.

(** [print_summary]: [self.results] is the empty dictionary until a run
    has returned a result ([None] here); nothing is computed then.  The
    utilisation and the test [utilization < 50] are the program's, on
    floats; on rationals they are exact, which differs from the program
    within rounding of the bounds 50 and 100, so nothing is stated
    at these bounds. *)
Definition print_summary (results : option BuyTheDip.Results.t) : arith (option Summary) :=
  match results with
  | None => Value None
  | Some r =>
      arith_bind
        (py_div (Qnat (BuyTheDip.Results.num_purchases r))
           (Qnat (BuyTheDip.Results.dip_days r)))
        (fun rate =>
      arith_bind
        (py_div (BuyTheDip.Results.total_invested r) (BuyTheDip.Results.total_should_save r))
        (fun invested =>
      let profit_symbol :=
        if Qle_bool 0 (BuyTheDip.Results.total_return r) then "+"%string else ""%string in
      arith_bind
        (py_div (BuyTheDip.Results.total_invested r) (BuyTheDip.Results.total_should_save r))
        (fun utilization =>
      let utilization := utilization * 100 in
      Value (Some (mkSummary (rate * 100) (invested * 100) profit_symbol utilization
                     (Qlt_bool utilization 50))))))
  end.

(** The rows [export_results] writes: the purchase with three added
    columns. *)
Record ExportRow : Type := mkExportRow {
  purchase : BuyTheDip.Purchase.t;
  current_value : Q;
  current_profit : Q;
  current_return_pct : Q
}.

(** [export_results]: nothing is written ([None]) while [self.purchases]
    is empty; the added columns are computed on whole columns, where a
    division never raises. *)
Definition export_results (purchases : list BuyTheDip.Purchase.t)
    (results : BuyTheDip.Results.t) : option (list ExportRow) :=
  match purchases with
  | [] => None
  | _ :: _ =>
      Some (map (fun p =>
                   let current_value :=
                     BuyTheDip.Purchase.total_coins p * BuyTheDip.Results.current_price results in
                   let current_profit := current_value - BuyTheDip.Purchase.total_invested p in
                   mkExportRow p current_value current_profit
                     (current_profit / BuyTheDip.Purchase.total_invested p * 100))
              purchases)
  end.

(** Chart 4 of [plot_strategy_analysis]: the cash is replayed over the
    frame, reset on the row whose label is the date of the next purchase
    of the log. *)
Module Replay.
Record t : Type := mk {
  cash_history : list (Date * Q);
  accumulated_cash : Q;
  purchase_idx : nat
}.
End Replay.

Definition replay_step (self : BuyTheDip.t) (purchases : list BuyTheDip.Purchase.t)
    (st : Replay.t) (row : Bar) : Replay.t :=
  let accumulated_cash := Replay.accumulated_cash st + BuyTheDip.monthly_savings self / 30 in
  let bought :=
    match nth_error purchases (Replay.purchase_idx st) with
    | Some p => date_eqb (BuyTheDip.Purchase.date p) (date row)
    | None => false
    end in
  let accumulated_cash := if bought then 0 else accumulated_cash in
  let purchase_idx :=
    if bought then S (Replay.purchase_idx st) else Replay.purchase_idx st in
  Replay.mk (Replay.cash_history st ++ [(date row, accumulated_cash)])
    accumulated_cash purchase_idx.

Definition cash_history (self : BuyTheDip.t) (purchases : list BuyTheDip.Purchase.t)
  : list (Date * Q) :=
  Replay.cash_history
    (fold_left (replay_step self purchases) (BuyTheDip.df self) (Replay.mk [] 0 0%nat)).

(** Chart 5 of [plot_strategy_analysis]: the holdings after each purchase
    valued at the close of the purchase's date. *)
Record PortfolioValue : Type := mkPortfolioValue {
  pv_date : Date;
  portfolio_value : Q;
  invested : Q;
  profit : Q
}.

Definition portfolio_values (self : BuyTheDip.t) (purchases : list BuyTheDip.Purchase.t)
  : outcome (list PortfolioValue) :=
  for_each
    (fun acc p =>
       price <- loc (BuyTheDip.df self) (BuyTheDip.Purchase.date p) close ;;
       let value := BuyTheDip.Purchase.total_coins p * price in
       Return (acc ++ [mkPortfolioValue (BuyTheDip.Purchase.date p) value
                         (BuyTheDip.Purchase.total_invested p)
                         (value - BuyTheDip.Purchase.total_invested p)]))
    purchases [].

(** What [plot_strategy_analysis] computes from the run: the rows marked
    as dip days on the price chart, the cash history and the portfolio
    values. *)
Record Charts : Type := mkCharts {
  chart_dip_days : DataFrame;
  chart_cash_history : list (Date * Q);
  chart_portfolio_values : list PortfolioValue
}.

(** [plot_strategy_analysis]: nothing is drawn ([None]) while
    [self.purchases] is empty. *)
Definition plot_strategy_analysis (self : BuyTheDip.t)
    (purchases : list BuyTheDip.Purchase.t) : outcome (option Charts) :=
  match purchases with
  | [] => Return None
  | _ :: _ =>
      let dip_days :=
        filter (fun row => Qle_bool (BuyTheDip.daily_return row) (BuyTheDip.dip_threshold self))
          (BuyTheDip.df self) in
      let cash := cash_history self purchases in
      values <- portfolio_values self purchases ;;
      Return (Some (mkCharts dip_days cash values))
  end.

End DipReport.

(* ===================================================================== *)
(** * [scripts/simple_dca.py]: [print_summary], [plot_dca_history] and
      [export_purchase_history] *)
(* ===================================================================== *)

Module DcaReport.

(** What [print_summary] computes besides formatting fields of the
    results: the sign prefixes and the return of a single purchase made at
    the price of the first purchase of the log. *)
Record Summary : Type := mkSummary {
  profit_symbol : string;      (* "+" if total_return >= 0 else "" *)
  buy_hold_return : Q;
  buy_hold_symbol : string     (* "+" if buy_hold_return >= 0 else "" *)
}.

(** [print_summary]: nothing is computed while [self.results] is empty;
    [self.purchases[0]] raises [IndexError] on an empty log. *)
Definition print_summary (results : option SimpleDCA.Results.t)
    (purchases : list SimpleDCA.Purchase.t) : outcome (option Summary) :=
  match results with
  | None => Return None
  | Some r =>
      let profit_symbol :=
        if Qle_bool 0 (SimpleDCA.Results.total_return r) then "+"%string else ""%string in
      first <- iloc_first purchases ;;
      let buy_hold_return :=
        (SimpleDCA.Results.current_price r - SimpleDCA.Purchase.price first)
        / SimpleDCA.Purchase.price first * 100 in
      Return (Some (mkSummary profit_symbol buy_hold_return
                      (if Qle_bool 0 buy_hold_return then "+"%string else ""%string)))
  end.

(** Chart 4 of [plot_dca_history]: the holdings after each purchase valued
    at the close of the purchase's date. *)
Record PortfolioValue : Type := mkPortfolioValue {
  pv_date : Date;
  pv_portfolio_value : Q;
  pv_invested : Q;
  pv_profit : Q
}.

Definition portfolio_values (self : SimpleDCA.t) (purchases : list SimpleDCA.Purchase.t)
  : outcome (list PortfolioValue) :=
  for_each
    (fun acc p =>
       price <- loc (SimpleDCA.df self) (SimpleDCA.Purchase.date p) close ;;
       let value := SimpleDCA.Purchase.total_coins p * price in
       Return (acc ++ [mkPortfolioValue (SimpleDCA.Purchase.date p) value
                         (SimpleDCA.Purchase.total_invested p)
                         (value - SimpleDCA.Purchase.total_invested p)]))
    purchases [].

(** [plot_dca_history]: nothing is drawn ([None]) while [self.purchases]
    is empty. *)
Definition plot_dca_history (self : SimpleDCA.t) (purchases : list SimpleDCA.Purchase.t)
  : outcome (option (list PortfolioValue)) :=
  match purchases with
  | [] => Return None
  | _ :: _ => values <- portfolio_values self purchases ;; Return (Some values)
  end.

(** The rows [export_purchase_history] writes: the purchase with three
    added columns. *)
Record ExportRow : Type := mkExportRow {
  purchase : SimpleDCA.Purchase.t;
  portfolio_value : Q;
  profit_loss : Q;
  return_pct : Q
}.

(** [export_purchase_history]: nothing is written ([None]) while
    [self.purchases] is empty. *)
Definition export_purchase_history (purchases : list SimpleDCA.Purchase.t)
  : option (list ExportRow) :=
  match purchases with
  | [] => None
  | _ :: _ =>
      Some (map (fun p =>
                   let portfolio_value :=
                     SimpleDCA.Purchase.total_coins p * SimpleDCA.Purchase.price p in
                   let profit_loss := portfolio_value - SimpleDCA.Purchase.total_invested p in
                   mkExportRow p portfolio_value profit_loss
                     (profit_loss / SimpleDCA.Purchase.total_invested p * 100))
              purchases)
  end.

End DcaReport.

(* ===================================================================== *)
(** * Well-formed bars *)
(* ===================================================================== *)

(** The bars of a price frame as an exchange reports them: the low is
    positive and no price of the bar lies outside [low, high]. *)
Definition well_formed_bars (df : DataFrame) : Prop :=
  Forall (fun row => 0 < low row
                     /\ low row <= open row /\ open row <= high row
                     /\ low row <= close row /\ close row <= high row) df.

(* ===================================================================== *)
(** * [scripts/analyze_august.py]: the cumulative return of each August *)
(* ===================================================================== *)

Module AugustReport.

(** [s.unique()]: the distinct values in order of first appearance. *)
Fixpoint unique (xs : list Z) : list Z :=
  match xs with
  | [] => []
  | x :: rest => x :: filter (fun z => negb (z =? x)%Z) (unique rest)
  end.

(** [s.cumprod()]: a missing value stays missing and does not enter the
    running product.  [acc] is the product so far, if any. *)
Fixpoint cumprod_from (acc : option Q) (xs : list (option Q)) : list (option Q) :=
  match xs with
  | [] => []
  | None :: rest => None :: cumprod_from acc rest
  | Some x :: rest =>
      let acc' := match acc with
                  | None => x
                  | Some a => a * x
                  end in
      Some acc' :: cumprod_from (Some acc') rest
  end.

Definition cumprod (xs : list (option Q)) : list (option Q) := cumprod_from None xs.

(** [august_data[august_data['year'] == year]]. *)
Definition year_rows (august : list AnalyzeAugust.Row) (y : Z) : list AnalyzeAugust.Row :=
  filter (fun r => (year (date (AnalyzeAugust.bar r)) =? y)%Z) august.

(** [((1 + year_data['daily_return'] / 100).cumprod() - 1) * 100]. *)
Definition cumulative_returns (year_data : list AnalyzeAugust.Row) : list (option Q) :=
  map (option_map (fun c => (c - 1) * 100))
    (cumprod (map (fun r => option_map (fun d => 1 + d / 100) (AnalyzeAugust.daily_return r))
                year_data)).

(** The loop [for year in years]: the [final_return] printed for each
    year, [cumulative_returns.iloc[-1]]. *)
Fixpoint total_returns (august : list AnalyzeAugust.Row) (years : list Z)
  : outcome (list (Z * option Q)) :=
  match years with
  | [] => Return []
  | y :: rest =>
      final_return <- iloc_last (cumulative_returns (year_rows august y)) ;;
      finals <- total_returns august rest ;;
      Return ((y, final_return) :: finals)
  end.

Definition august_total_returns (df : DataFrame) : outcome (list (Z * option Q)) :=
  august_data <- AnalyzeAugust.august_data df ;;
  let years := unique (map (fun r => year (date (AnalyzeAugust.bar r))) august_data) in
  total_returns august_data years.

End AugustReport.

(* ===================================================================== *)
(** * [scripts/monthly_patterns.py]: the pivot and its statistics *)
(* ===================================================================== *)

Module SeasonalityStats.

(** Whether a (Year, Month) pair occurs twice: [pivot] raises
    [ValueError] on an index with duplicate entries. *)
Fixpoint has_duplicates (ks : list (Z * Z)) : bool :=
  match ks with
  | [] => false
  | k :: rest => existsb (ym_eqb k) rest || has_duplicates rest
  end.

Fixpoint insert_month (m : Z) (ms : list Z) : list Z :=
  match ms with
  | [] => [m]
  | m' :: rest =>
      if (m <? m')%Z then m :: ms
      else if (m =? m')%Z then ms
      else m' :: insert_month m rest
  end.

(** The index of the pivot: the months that have a cell, ascending. *)
Definition pivot_index (cells : list (Z * Z * Q)) : list Z :=
  fold_right insert_month [] (map (fun c => snd (fst c)) cells).

(** The values of a row of the pivot that are not missing. *)
Definition pivot_row (cells : list (Z * Z * Q)) (m : Z) : list Q :=
  map snd (filter (fun c => (snd (fst c) =? m)%Z) cells).

(** The columns 'Win Rate (%)' and 'Avg Return (%)' of [stats] (the
    median is not modelled). *)
Record Stat : Type := mkStat {
  Month : Z;
  Win_Rate : Q;       (* (x > 0).sum() / x.count() * 100 *)
  Avg_Return : Q      (* mean of the values that are not missing *)
}.

Definition stats (cells : list (Z * Z * Q)) : list Stat :=
  map (fun m =>
         let x := pivot_row cells m in
         mkStat m
           (Qlen (filter (fun r => Qlt_bool 0 r) x) / Qlen x * 100)
           (sum x / Qlen x))
    (pivot_index cells).

(** Lines 25 to 50 of [analyze_seasonality]: the returns by month end,
    the pivot and the statistics of its rows.  The model is meant for a
    pivot with at least one cell; what pandas does when [apply] meets an
    empty pivot is left out, and the statements below take a cell to
    exist. *)
Definition analyze_seasonality (pad : bool) (df : DataFrame) : outcome (list Stat) :=
  let cells := MonthlyPatterns.seasonality pad df in
  if has_duplicates (map (fun c => (fst (fst c), snd (fst c))) cells)
  then Raise ValueError
  else Return (stats cells).

End SeasonalityStats.

(* ===================================================================== *)
(** * [src/features/technical_indicators.py] *)
(* ===================================================================== *)

(** The indicators are computed on columns without missing values (the
    prices of a loaded frame); the columns they produce are missing
    ([None]) where pandas yields [NaN]. *)
Module Indicators.

(** The values a window of [window] rows ending at row [i] holds. *)
Definition window_at (window : nat) (xs : list Q) (i : nat) : list Q :=
  firstn window (skipn (S i - window) xs).

(** [s.rolling(window=window).mean()]: missing until [window] values are
    there ([min_periods] is the window), then the mean of the last
    [window] values; a window of no rows has no mean. *)
Definition rolling_mean (window : nat) (xs : list Q) : list (option Q) :=
  map (fun i =>
         if ((S i <? window) || (window =? 0))%nat then None
         else Some (sum (window_at window xs i) / Qnat window))
    (seq 0 (length xs)).

(** [calculate_sma]: the column it adds. *)
Definition calculate_sma (xs : list Q) (window : nat) : list (option Q) :=
  rolling_mean window xs.

(** The recursion of [ewm(adjust=False).mean()] after a value [prev]. *)
Fixpoint ewm_from (alpha prev : Q) (xs : list Q) : list Q :=
  match xs with
  | [] => []
  | x :: rest => let y := (1 - alpha) * prev + alpha * x in y :: ewm_from alpha y rest
  end.

(** [s.ewm(span=span, adjust=False).mean()]: [alpha = 2 / (span + 1)];
    the first value is the first element; a span below 1 is refused with
    [ValueError]. *)
Definition ewm_mean (span : Z) (xs : list Q) : outcome (list Q) :=
  if (span <? 1)%Z then Raise ValueError
  else
    let alpha := 2 / (inject_Z span + 1) in
    Return (match xs with
            | [] => []
            | x :: rest => x :: ewm_from alpha x rest
            end).

(** [calculate_ema]: the column it adds. *)
Definition calculate_ema (xs : list Q) (span : Z) : outcome (list Q) := ewm_mean span xs.

(** [s.diff()]. *)
Fixpoint diff_from (prev : Q) (xs : list Q) : list (option Q) :=
  match xs with
  | [] => []
  | x :: rest => Some (x - prev) :: diff_from x rest
  end.

Definition diff (xs : list Q) : list (option Q) :=
  match xs with
  | [] => []
  | x :: rest => None :: diff_from x rest
  end.

(** [delta.where(delta > 0, 0)] and [-delta.where(delta < 0, 0)]: a
    missing difference compares false and is replaced by 0. *)
Definition gain_of (d : option Q) : Q :=
  match d with
  | Some d => if Qlt_bool 0 d then d else 0
  | None => 0
  end.

Definition loss_of (d : option Q) : Q :=
  - match d with
    | Some d => if Qlt_bool d 0 then d else 0
    | None => 0
    end.

(** [100 - (100 / (1 + avg_gain / avg_loss))] on floats.  The averages are
    never negative.  A window without losses divides by zero: with gains
    the quotient is infinite and the value is 100; without gains it is
    [0 / 0] and the value is missing. *)
Definition rsi_value (avg_gain avg_loss : option Q) : option Q :=
  match avg_gain, avg_loss with
  | Some g, Some l =>
      if Qeq_bool l 0 then (if Qeq_bool g 0 then None else Some 100)
      else Some (100 - 100 / (1 + g / l))
  | _, _ => None
  end.

(** [calculate_rsi]: the column it adds. *)
Definition calculate_rsi (xs : list Q) (period : nat) : list (option Q) :=
  let delta := diff xs in
  let gain := map gain_of delta in
  let loss := map loss_of delta in
  let avg_gain := rolling_mean period gain in
  let avg_loss := rolling_mean period loss in
  zip_with rsi_value avg_gain avg_loss.

(** The three columns [calculate_macd] adds. *)
Record MACDRow : Type := mkMACDRow { MACD : Q; MACD_Signal : Q; MACD_Hist : Q }.

Definition calculate_macd (xs : list Q) (fast slow signal : Z) : outcome (list MACDRow) :=
  ema_fast <- ewm_mean fast xs ;;
  ema_slow <- ewm_mean slow xs ;;
  let macd := zip_with Qminus ema_fast ema_slow in
  macd_signal <- ewm_mean signal macd ;;
  Return (zip_with (fun m s => mkMACDRow m s (m - s)) macd macd_signal).

(** [np.abs]. *)
Definition np_abs (x : Q) : Q := if Qlt_bool x 0 then - x else x.

(** The true range of [calculate_atr]: the row-wise maximum of
    [high - low], [|high - close.shift()|] and [|low - close.shift()|],
    where the two last are missing on the first row and skipped. *)
Fixpoint true_range_from (prev_close : Q) (df : DataFrame) : list Q :=
  match df with
  | [] => []
  | row :: rest =>
      Qmax (Qmax (high row - low row) (np_abs (high row - prev_close)))
        (np_abs (low row - prev_close))
      :: true_range_from (close row) rest
  end.

Definition true_range (df : DataFrame) : list Q :=
  match df with
  | [] => []
  | row :: rest => (high row - low row) :: true_range_from (close row) rest
  end.

(** [calculate_atr]: the column it adds. *)
Definition calculate_atr (df : DataFrame) (period : nat) : list (option Q) :=
  rolling_mean period (true_range df).

End Indicators.

(* ===================================================================== *)
(** * [scripts/dca_backtest.py] *)
(* ===================================================================== *)

(** The month-of-the-year backtest.  Its loop reads the rows that
    [iterrows] builds, one [Series] for each row of the monthly frame, and
    what these hold depends on the other columns of the frame.  When the
    frame has a column that is not numeric (the files of the fetcher have
    the text column [close_time]) a row is a row of Python objects: the
    year and the month are integers and the price is a Python float, so
    that dividing by a zero price raises [ZeroDivisionError].  When all
    columns are numeric a row is a row of floats: dividing by a zero
    price gives [inf] or [nan] without raising, and [pd.Timestamp]
    refuses the float year with [TypeError]. *)
Module DCABacktest.

(** What a call can end with: a value, an exception of pandas or of a
    builtin, or Python's [ZeroDivisionError]. *)
Inductive attempt (A : Type) : Type :=
| Done (a : A)
| Failed (e : exn)
| DividedByZero.

Arguments Done {A} a.
Arguments Failed {A} e.
Arguments DividedByZero {A}.

Definition and_then {A B : Type} (c : attempt A) (k : A -> attempt B) : attempt B :=
  match c with
  | Done a => k a
  | Failed e => Failed e
  | DividedByZero => DividedByZero
  end.

Definition of_outcome {A : Type} (c : outcome A) : attempt A :=
  match c with
  | Return a => Done a
  | Raise e => Failed e
  end.

Definition of_arith {A : Type} (c : arith A) : attempt A :=
  match c with
  | Value a => Done a
  | ZeroDivisionError => DividedByZero
  end.

(** [int(x)] on a float: truncation towards zero.  On the exact
    quotient of two amounts it is what the program computes when the
    program's quotient is exact, as it is for whole amounts within the
    range a float holds exactly ([backtest_whole_amount] below). *)
Definition py_int (x : Q) : Z :=
  if Qlt_bool x 0 then (- Qfloor (- x))%Z else Qfloor x.

Module Purchase.
Record t : Type := mk {
  date : Date;
  price : Q;
  investment_amount : Q;
  coins_bought : Q;
  total_invested : Q;
  total_coins : Q;
  months_accumulated : Z
}.
End Purchase.

Module Results.
Record t : Type := mk {
  month : Z;
  total_invested : Q;
  total_coins : Q;
  avg_cost : Q;
  current_price : Q;
  current_value : Q;
  accumulated_cash : Q;
  current_value_with_cash : Q;
  total_return : Q;
  return_pct : Q;
  num_purchases : nat;
  total_months : nat;
  total_should_save : Q;
  purchases : list Purchase.t
}.
End Results.

Module Vars.
Record t : Type := mk {
  total_invested : Q;
  total_coins : Q;
  accumulated_cash : Q;
  purchases : list Purchase.t
}.
End Vars.

Record t : Type := mk {
  df : DataFrame;
  has_text_column : bool;    (* some column of the frame is not numeric *)
  monthly_investment : Q
}.

(** [self.df.groupby(['year', 'month']).first().reset_index()]: one row
    per month that has rows, keys ascending, with the close of the
    month's first row. *)
Definition all_monthly_data (self : t) : list ((Z * Z) * Q) :=
  flat_map (fun k =>
              match month_rows (df self) (fst k) (snd k) with
              | first :: _ => [(k, close first)]
              | [] => []
              end) (group_keys (df self)).

Definition init : Vars.t := Vars.mk 0 0 0 [].

(** One iteration of [for idx, row in all_monthly_data.iterrows()]. *)
Definition step (self : t) (target_month : Z) (v : Vars.t) (row : (Z * Z) * Q)
  : attempt Vars.t :=
  let current_month := snd (fst row) in
  let price := snd row in
  let accumulated_cash := Vars.accumulated_cash v + monthly_investment self in
  if (current_month =? target_month)%Z then
    let investment_amount := accumulated_cash in
    if has_text_column self then
      and_then (of_arith (py_div investment_amount price)) (fun coins_bought =>
      let total_coins := Vars.total_coins v + coins_bought in
      let total_invested := Vars.total_invested v + investment_amount in
      and_then (of_outcome (Timestamp (fst (fst row)) (snd (fst row)) 1)) (fun date =>
      and_then (of_arith (py_div investment_amount (monthly_investment self))) (fun months =>
      Done (Vars.mk total_invested total_coins 0
              (Vars.purchases v
               ++ [Purchase.mk date price investment_amount coins_bought total_invested
                     total_coins (py_int months)])))))
    else
      (* a row of floats: the quotient by the price is a float whatever
         the price, and building the date raises *)
      Failed TypeError
  else
    Done (Vars.mk (Vars.total_invested v) (Vars.total_coins v) accumulated_cash
            (Vars.purchases v)).

Fixpoint loop (self : t) (target_month : Z) (rows : list ((Z * Z) * Q)) (v : Vars.t)
  : attempt Vars.t :=
  match rows with
  | [] => Done v
  | row :: rest => and_then (step self target_month v row) (loop self target_month rest)
  end.

Definition run_dca_strategy (self : t) (target_month : Z) : attempt (option Results.t) :=
  let all_monthly_data := all_monthly_data self in
  if (length all_monthly_data =? 0)%nat then Done None
  else
    and_then (loop self target_month all_monthly_data init) (fun v =>
    let purchases := Vars.purchases v in
    if (0 <? length purchases)%nat then
      and_then (of_outcome (iloc_last (map close (df self)))) (fun current_price =>
      let current_value := Vars.total_coins v * current_price in
      let current_value_with_cash := current_value + Vars.accumulated_cash v in
      let total_months := length all_monthly_data in
      let total_should_save := Qnat total_months * monthly_investment self in
      let total_return := current_value_with_cash - total_should_save in
      let return_pct :=
        if Qlt_bool 0 total_should_save
        then (total_return / total_should_save) * 100 else 0 in
      let avg_cost :=
        if Qlt_bool 0 (Vars.total_coins v)
        then Vars.total_invested v / Vars.total_coins v else 0 in
      Done (Some (Results.mk target_month (Vars.total_invested v) (Vars.total_coins v)
                    avg_cost current_price current_value (Vars.accumulated_cash v)
                    current_value_with_cash total_return return_pct
                    (length purchases) total_months total_should_save purchases)))
    else Done None).

(** [run_all_months]: the results kept in [self.results], by month from 1
    to 12.  The summary frame it returns holds the same results sorted
    by [return_pct]; the sort raises [KeyError] when no month gave a
    result, the frame having no column then.  The order of the summary is
    not modelled. *)
Fixpoint collect_months (self : t) (months : list Z) : attempt (list Results.t) :=
  match months with
  | [] => Done []
  | m :: rest =>
      and_then (run_dca_strategy self m) (fun result =>
      and_then (collect_months self rest) (fun results =>
      Done (match result with
            | Some r => r :: results
            | None => results
            end)))
  end.

Definition run_all_months (self : t) : attempt (list Results.t) :=
  and_then (collect_months self [1; 2; 3; 4; 5; 6; 7; 8; 9; 10; 11; 12]%Z) (fun results =>
  match results with
  | [] => Failed KeyError
  | _ :: _ => Done results
  end).

End DCABacktest.

(** A monthly amount that is a whole number, as the scripts use it
    (10000), and small enough for the stipends of all months of the frame
    together to lie within the range in which a float holds every whole
    number exactly: the sums and the quotient of
    [int(investment_amount / self.monthly_investment)] are then exact
    in the program. *)
Definition backtest_whole_amount (self : DCABacktest.t) : Prop :=
  exists z : Z,
    (0 < z)%Z
    /\ DCABacktest.monthly_investment self == inject_Z z
    /\ (z * Z.of_nat (length (group_keys (DCABacktest.df self))) <= 2 ^ 53)%Z.
(* ===================================================================== *)
(** * Auxiliary facts *)
(* ===================================================================== *)

Lemma Qle_bool_true (a b : Q) : Qle_bool a b = true <-> a <= b.
Proof. apply Qle_bool_iff. Qed.

Lemma Qle_bool_false (a b : Q) : Qle_bool a b = false <-> b < a.
Proof.
  split; intro H.
  - apply Qnot_le_lt. intro Hle. apply Qle_bool_iff in Hle. congruence.
  - destruct (Qle_bool a b) eqn:E; [|reflexivity].
    apply Qle_bool_iff in E. exfalso. apply (Qlt_not_le _ _ H E).
Qed.

Lemma Qlt_bool_true (a b : Q) : Qlt_bool a b = true <-> a < b.
Proof.
  unfold Qlt_bool. rewrite negb_true_iff. apply Qle_bool_false.
Qed.

Lemma Qlt_bool_false (a b : Q) : Qlt_bool a b = false <-> b <= a.
Proof.
  unfold Qlt_bool. rewrite negb_false_iff. apply Qle_bool_true.
Qed.

Lemma sum_snoc (xs : list Q) (x : Q) : sum (xs ++ [x]) = sum xs + x.
Proof. unfold sum. rewrite fold_left_app. reflexivity. Qed.

Lemma sum_nil : sum [] = 0.
Proof. reflexivity. Qed.

(** An invariant of a loop is kept by every iteration over rows of the
    frame, hence holds when the loop ends. *)
Lemma fold_left_inv {S X : Type} (P : S -> Prop) (f : S -> X -> S) (xs : list X) :
  forall s0, P s0 -> (forall s x, In x xs -> P s -> P (f s x)) -> P (fold_left f xs s0).
Proof.
  induction xs as [|x xs IH]; intros s0 H0 Hstep; simpl.
  - exact H0.
  - apply IH.
    + apply Hstep; [left; reflexivity | exact H0].
    + intros s y Hy. apply Hstep. right. exact Hy.
Qed.

Lemma for_each_inv {S X : Type} (P : S -> Prop) (f : S -> X -> outcome S) (xs : list X) :
  forall s0 s1,
    P s0 ->
    (forall s x s', In x xs -> P s -> f s x = Return s' -> P s') ->
    for_each f xs s0 = Return s1 -> P s1.
Proof.
  induction xs as [|x xs IH]; intros s0 s1 H0 Hstep Hrun; simpl in Hrun.
  - injection Hrun as <-. exact H0.
  - destruct (f s0 x) as [s'|e] eqn:E; simpl in Hrun; [|discriminate].
    apply (IH s' s1).
    + apply (Hstep s0 x s'); [left; reflexivity | exact H0 | exact E].
    + intros s y s'' Hy. apply Hstep. right. exact Hy.
    + exact Hrun.
Qed.

Lemma nth_error_snoc {A : Type} (xs : list A) (x : A) (k : nat) (y : A) :
  nth_error (xs ++ [x]) k = Some y ->
  (nth_error xs k = Some y /\ (k < length xs)%nat) \/ (k = length xs /\ y = x).
Proof.
  intro H. destruct (Nat.lt_ge_cases k (length xs)) as [Hlt|Hge].
  - left. rewrite nth_error_app1 in H by exact Hlt. split; assumption.
  - right. rewrite nth_error_app2 in H by exact Hge.
    destruct (k - length xs)%nat as [|n] eqn:E; simpl in H.
    + injection H as <-. split; [lia | reflexivity].
    + destruct n; discriminate.
Qed.

Lemma firstn_snoc_lt {A : Type} (xs : list A) (x : A) (k : nat) :
  (k <= length xs)%nat -> firstn k (xs ++ [x]) = firstn k xs.
Proof.
  intro H. rewrite firstn_app. replace (k - length xs)%nat with 0%nat by lia.
  simpl. apply app_nil_r.
Qed.

Lemma firstn_snoc_all {A : Type} (xs : list A) (x : A) :
  firstn (S (length xs)) (xs ++ [x]) = xs ++ [x].
Proof.
  rewrite firstn_app. replace (S (length xs) - length xs)%nat with 1%nat by lia.
  rewrite firstn_all2 by lia. reflexivity.
Qed.

Lemma iloc_last_snoc {A : Type} (xs : list A) (x : A) : iloc_last (xs ++ [x]) = Return x.
Proof.
  induction xs as [|y ys IH]; simpl; [reflexivity|].
  destruct (ys ++ [x]) eqn:E; [destruct ys; discriminate | exact IH].
Qed.

Lemma iloc_last_nonempty {A : Type} (xs : list A) :
  xs <> [] -> exists x, iloc_last xs = Return x.
Proof.
  intro H. destruct (exists_last H) as [ys [y ->]]. exists y. apply iloc_last_snoc.
Qed.

Lemma for_each_prefix_inv {S X : Type} (P : list X -> S -> Prop)
    (f : S -> X -> outcome S) (xs : list X) :
  forall done s0 s1,
    P done s0 ->
    (forall done' x s s', In x xs -> P done' s -> f s x = Return s' -> P (done' ++ [x]) s') ->
    for_each f xs s0 = Return s1 -> P (done ++ xs) s1.
Proof.
  induction xs as [|x xs IH]; intros done s0 s1 H0 Hstep Hrun; simpl in Hrun.
  - injection Hrun as <-. rewrite app_nil_r. exact H0.
  - destruct (f s0 x) as [s'|e] eqn:E; simpl in Hrun; [|discriminate].
    replace (done ++ x :: xs) with ((done ++ [x]) ++ xs)
      by (rewrite <- app_assoc; reflexivity).
    apply (IH (done ++ [x]) s' s1).
    + apply (Hstep done x s0 s'); [left; reflexivity | exact H0 | exact E].
    + intros done' y s s'' Hy. apply Hstep. right. exact Hy.
    + exact Hrun.
Qed.

Lemma for_each_total {S X : Type} (f : S -> X -> outcome S) (xs : list X) :
  (forall s x, In x xs -> exists s', f s x = Return s') ->
  forall s0, exists s1, for_each f xs s0 = Return s1.
Proof.
  induction xs as [|x xs IH]; intros Hstep s0; simpl.
  - exists s0. reflexivity.
  - destruct (Hstep s0 x (or_introl eq_refl)) as [s' E]. rewrite E. simpl.
    apply IH. intros s y Hy. apply Hstep. right. exact Hy.
Qed.

Lemma nondecreasing_nil : nondecreasing [].
Proof. intros i j a b _ H. destruct i; discriminate. Qed.

Lemma nondecreasing_snoc (xs : list Q) (x : Q) :
  nondecreasing xs -> (forall a, In a xs -> a <= x) -> nondecreasing (xs ++ [x]).
Proof.
  intros Hxs Hx i j a b Hij Hi Hj.
  apply nth_error_snoc in Hi. apply nth_error_snoc in Hj.
  destruct Hi as [[Hi Hil]|[-> ->]], Hj as [[Hj Hjl]|[-> ->]].
  - apply (Hxs i j); assumption.
  - apply Hx. apply nth_error_In with i. exact Hi.
  - lia.
  - apply Qle_refl.
Qed.

Lemma Qlen_snoc {A : Type} (xs : list A) (x : A) : Qlen (xs ++ [x]) == Qlen xs + 1.
Proof.
  unfold Qlen. rewrite length_app. simpl length.
  rewrite Nat2Z.inj_add. rewrite inject_Z_plus. reflexivity.
Qed.

Lemma filter_none {A : Type} (f : A -> bool) (xs : list A) :
  Forall (fun x => f x = false) xs -> filter f xs = [].
Proof.
  induction 1 as [|x xs Hx _ IH]; simpl; [reflexivity|]. rewrite Hx. exact IH.
Qed.

Lemma for_each_raises {S X : Type} (f : S -> X -> outcome S) (e : exn) (xs : list X) :
  (forall s x, In x xs -> (exists s', f s x = Return s') \/ f s x = Raise e) ->
  (exists x, In x xs /\ forall s, f s x = Raise e) ->
  forall s0, for_each f xs s0 = Raise e.
Proof.
  induction xs as [|x xs IH]; intros Hall [y [Hy Hraise]] s0; [destruct Hy|].
  simpl. destruct (Hall s0 x (or_introl eq_refl)) as [[s' E]|E]; rewrite E; simpl;
    [|reflexivity].
  destruct Hy as [->|Hy].
  - rewrite Hraise in E. discriminate.
  - apply IH.
    + intros s z Hz. apply Hall. right. exact Hz.
    + exists y. auto.
Qed.

(* ===================================================================== *)
(** * Dates, month keys and grouping *)
(* ===================================================================== *)

Lemma date_eqb_eq (a b : Date) : date_eqb a b = true <-> a = b.
Proof.
  destruct a as [y1 m1 d1], b as [y2 m2 d2]. unfold date_eqb; simpl. split.
  - intro H. apply andb_prop in H. destruct H as [H Hd]. apply andb_prop in H.
    destruct H as [Hy Hm]. apply Z.eqb_eq in Hy, Hm, Hd. congruence.
  - intro H. injection H as -> -> ->. rewrite !Z.eqb_refl. reflexivity.
Qed.

Lemma date_ltb_spec (a b : Date) :
  date_ltb a b = true <->
  (year a < year b
   \/ (year a = year b
       /\ (month a < month b \/ (month a = month b /\ day a < day b))))%Z.
Proof.
  unfold date_ltb.
  rewrite orb_true_iff, andb_true_iff, orb_true_iff, andb_true_iff.
  rewrite !Z.ltb_lt, !Z.eqb_eq. reflexivity.
Qed.

Lemma date_geb_spec (a b : Date) :
  date_geb a b = true <-> ~ date_lt a b.
Proof.
  unfold date_geb, date_lt. rewrite negb_true_iff. destruct (date_ltb a b); split; congruence.
Qed.

Lemma ym_ltb_spec (a b : Z * Z) :
  ym_ltb a b = true <-> (fst a < fst b \/ (fst a = fst b /\ snd a < snd b))%Z.
Proof.
  unfold ym_ltb. rewrite orb_true_iff, andb_true_iff, !Z.ltb_lt, Z.eqb_eq. reflexivity.
Qed.

Lemma ym_eqb_eq (a b : Z * Z) : ym_eqb a b = true <-> a = b.
Proof.
  destruct a as [y1 m1], b as [y2 m2]. unfold ym_eqb; simpl.
  rewrite andb_true_iff, !Z.eqb_eq. split; [intros [-> ->]; reflexivity|].
  intro H; injection H as -> ->. split; reflexivity.
Qed.

Lemma ym_lt_trans (a b c : Z * Z) : ym_lt a b -> ym_lt b c -> ym_lt a c.
Proof. unfold ym_lt. rewrite !ym_ltb_spec. lia. Qed.

Lemma ym_lt_irrefl (a : Z * Z) : ~ ym_lt a a.
Proof. unfold ym_lt. rewrite ym_ltb_spec. lia. Qed.

Lemma ym_total (a b : Z * Z) :
  ym_ltb a b = false -> ym_eqb a b = false -> ym_lt b a.
Proof.
  intros H1 H2. unfold ym_lt. rewrite ym_ltb_spec.
  assert (N1 : ~ (fst a < fst b \/ (fst a = fst b /\ snd a < snd b))%Z).
  { rewrite <- ym_ltb_spec. congruence. }
  assert (N2 : a <> b). { rewrite <- ym_eqb_eq. congruence. }
  destruct a as [y1 m1], b as [y2 m2]; simpl in *.
  assert (y1 <> y2 \/ m1 <> m2) by (destruct (Z.eq_dec y1 y2); [right; congruence | left; assumption]).
  lia.
Qed.

Lemma insert_key_In (k x : Z * Z) (ks : list (Z * Z)) :
  In x (insert_key k ks) <-> x = k \/ In x ks.
Proof.
  induction ks as [|k' rest IH]; simpl.
  - intuition.
  - destruct (ym_ltb k k') eqn:E1; [simpl; intuition|].
    destruct (ym_eqb k k') eqn:E2.
    + apply ym_eqb_eq in E2. subst k'. simpl. intuition.
    + simpl. rewrite IH. intuition.
Qed.

Lemma insert_key_ascending (k : Z * Z) (ks : list (Z * Z)) :
  ascending ks -> ascending (insert_key k ks).
Proof.
  unfold ascending. induction ks as [|k' rest IH]; intro Hs; simpl.
  - constructor; constructor.
  - inversion Hs as [|? ? Hrest Hall]; subst.
    destruct (ym_ltb k k') eqn:E1.
    + constructor; [exact Hs|]. constructor; [exact E1|].
      rewrite Forall_forall in *. intros x Hx. apply ym_lt_trans with k'; [exact E1 | auto].
    + destruct (ym_eqb k k') eqn:E2; [exact Hs|].
      constructor; [apply IH; exact Hrest|].
      rewrite Forall_forall in *. intros x Hx. apply insert_key_In in Hx.
      destruct Hx as [->|Hx]; [apply ym_total; assumption | auto].
Qed.

Lemma group_keys_ascending (df : DataFrame) : ascending (group_keys df).
Proof.
  unfold group_keys. induction df as [|row rest IH]; simpl.
  - constructor.
  - apply insert_key_ascending. exact IH.
Qed.

Lemma group_keys_In (df : DataFrame) (k : Z * Z) :
  In k (group_keys df) <->
  exists row, In row df /\ (year (date row), month (date row)) = k.
Proof.
  unfold group_keys. induction df as [|row rest IH]; simpl.
  - split; [intros [] | intros [? [[] _]]].
  - rewrite insert_key_In, IH. split.
    + intros [->|[r [Hr Hk]]]; [exists row; auto | exists r; auto].
    + intros [r [[<-|Hr] Hk]]; [left; auto | right; exists r; auto].
Qed.

Lemma ascending_NoDup (ks : list (Z * Z)) : ascending ks -> NoDup ks.
Proof.
  induction 1 as [|k ks Hs IH Hall]; constructor; [|exact IH].
  intro Hin. rewrite Forall_forall in Hall. apply (ym_lt_irrefl k). auto.
Qed.

Lemma month_rows_In (df : DataFrame) (y m : Z) (row : Bar) :
  In row (month_rows df y m) <->
  In row df /\ year (date row) = y /\ month (date row) = m.
Proof.
  unfold month_rows. rewrite filter_In, andb_true_iff, !Z.eqb_eq. reflexivity.
Qed.

Lemma month_rows_nonempty (df : DataFrame) (k : Z * Z) :
  In k (group_keys df) -> month_rows df (fst k) (snd k) <> [].
Proof.
  intros Hk. apply group_keys_In in Hk. destruct Hk as [row [Hin Hk]].
  assert (Hr : In row (month_rows df (fst k) (snd k))).
  { apply month_rows_In. subst k; simpl. auto. }
  intro E. rewrite E in Hr. exact Hr.
Qed.

(** ** Lookups *)

Lemma loc_In {A : Type} (df : DataFrame) (label : Date) (col : Bar -> A) :
  In label (map date df) ->
  exists row, In row df /\ date row = label /\ loc df label col = Return (col row).
Proof.
  induction df as [|r rest IH]; simpl; [intros []|].
  intro H. destruct (date_eqb (date r) label) eqn:E.
  - apply date_eqb_eq in E. exists r. auto.
  - destruct H as [H|H].
    + apply date_eqb_eq in H. congruence.
    + destruct (IH H) as [row [Hin [Hd Hl]]]. exists row. auto.
Qed.

Lemma iloc_first_In {A : Type} (xs : list A) (x : A) : iloc_first xs = Return x -> In x xs.
Proof. destruct xs; simpl; [discriminate|]. intro H; injection H as ->. left; reflexivity. Qed.

Lemma iloc_last_In {A : Type} (xs : list A) (x : A) : iloc_last xs = Return x -> In x xs.
Proof.
  induction xs as [|y ys IH]; simpl; [discriminate|].
  destruct ys as [|z zs]; [intro H; injection H as ->; left; reflexivity|].
  intro H. right. apply IH. exact H.
Qed.

(** With unique labels a lookup by the label of a row finds that row. *)
Lemma loc_unique {A : Type} (df : DataFrame) (row : Bar) (col : Bar -> A) :
  NoDup (map date df) -> In row df -> loc df (date row) col = Return (col row).
Proof.
  induction df as [|r rs IH]; intros Hnd Hin; [destruct Hin|].
  simpl in Hnd. inversion Hnd as [|d ds Hnot Hnd']; subst.
  simpl. destruct Hin as [->|Hin].
  - assert (E : date_eqb (date row) (date row) = true) by (apply date_eqb_eq; reflexivity).
    rewrite E. reflexivity.
  - destruct (date_eqb (date r) (date row)) eqn:E.
    + apply date_eqb_eq in E. exfalso. apply Hnot. rewrite E. apply in_map. exact Hin.
    + apply IH; assumption.
Qed.


(* ===================================================================== *)
(** * The dip engine: one bar at a time *)
(* ===================================================================== *)

Section DipStep.

Import BuyTheDip.

Variable self : BuyTheDip.t.

(** The loop visits the rows in frame order: running it over a frame
    extended by one more row is running it over the frame and then
    executing one more iteration. *)
Lemma dip_simulate_snoc (rows : DataFrame) (row : Bar) :
  fold_left (step self) (rows ++ [row]) init
  = step self (fold_left (step self) rows init) row.
Proof. rewrite fold_left_app. reflexivity. Qed.

Lemma dip_step_no_dip (v : Vars.t) (row : Bar) :
  dip_threshold self < daily_return row ->
  step self v row
  = Vars.mk (Vars.total_invested v) (Vars.total_coins v)
      (Vars.accumulated_cash v + monthly_savings self / 30)
      (Vars.purchases v) (Vars.dip_days v) (Vars.missed_opportunities v).
Proof.
  intro H. unfold step. apply Qle_bool_false in H. rewrite H. reflexivity.
Qed.

Lemma dip_step_missed (v : Vars.t) (row : Bar) :
  daily_return row <= dip_threshold self ->
  Vars.accumulated_cash v + monthly_savings self / 30 < 100 ->
  step self v row
  = Vars.mk (Vars.total_invested v) (Vars.total_coins v)
      (Vars.accumulated_cash v + monthly_savings self / 30)
      (Vars.purchases v) (S (Vars.dip_days v)) (S (Vars.missed_opportunities v)).
Proof.
  intros Hd Hc. unfold step. apply Qle_bool_true in Hd. rewrite Hd.
  unfold daily_savings. apply Qle_bool_false in Hc. rewrite Hc. reflexivity.
Qed.

Lemma dip_step_buy (v : Vars.t) (row : Bar) :
  daily_return row <= dip_threshold self ->
  100 <= Vars.accumulated_cash v + monthly_savings self / 30 ->
  let cash := Vars.accumulated_cash v + monthly_savings self / 30 in
  let total_invested := Vars.total_invested v + cash in
  let total_coins := Vars.total_coins v + cash / close row in
  step self v row
  = Vars.mk total_invested total_coins 0
      (Vars.purchases v
       ++ [Purchase.mk (date row) (close row) (daily_return row) cash (cash / close row)
             total_invested total_coins
             (if Qlt_bool 0 total_coins then total_invested / total_coins else 0)])
      (S (Vars.dip_days v)) (Vars.missed_opportunities v).
Proof.
  intros Hd Hc. unfold step. apply Qle_bool_true in Hd. rewrite Hd.
  unfold daily_savings. apply Qle_bool_true in Hc. rewrite Hc. reflexivity.
Qed.

End DipStep.

(** What one iteration does to the variables of the loop, whatever their
    values before it. *)
Lemma dip_step_cases (self : BuyTheDip.t) (v : BuyTheDip.Vars.t) (row : Bar) :
  let cash := BuyTheDip.Vars.accumulated_cash v + BuyTheDip.monthly_savings self / 30 in
  let v' := BuyTheDip.step self v row in
  let dip := (close row - open row) / open row * 100 <= BuyTheDip.dip_threshold self in
  (dip <-> BuyTheDip.Vars.dip_days v' = S (BuyTheDip.Vars.dip_days v))
  /\ (dip -> 100 <= cash ->
      exists p,
        BuyTheDip.Vars.purchases v' = BuyTheDip.Vars.purchases v ++ [p]
        /\ BuyTheDip.Purchase.date p = date row
        /\ BuyTheDip.Purchase.price p = close row
        /\ BuyTheDip.Purchase.investment p = cash
        /\ BuyTheDip.Purchase.coins_bought p = cash / close row
        /\ BuyTheDip.Vars.total_invested v' = BuyTheDip.Vars.total_invested v + cash
        /\ BuyTheDip.Vars.total_coins v' = BuyTheDip.Vars.total_coins v + cash / close row
        /\ BuyTheDip.Vars.accumulated_cash v' = 0
        /\ BuyTheDip.Vars.missed_opportunities v' = BuyTheDip.Vars.missed_opportunities v)
  /\ (dip -> cash < 100 ->
      BuyTheDip.Vars.purchases v' = BuyTheDip.Vars.purchases v
      /\ BuyTheDip.Vars.total_invested v' = BuyTheDip.Vars.total_invested v
      /\ BuyTheDip.Vars.total_coins v' = BuyTheDip.Vars.total_coins v
      /\ BuyTheDip.Vars.accumulated_cash v' = cash
      /\ BuyTheDip.Vars.missed_opportunities v'
         = S (BuyTheDip.Vars.missed_opportunities v))
  /\ (~ dip ->
      BuyTheDip.Vars.purchases v' = BuyTheDip.Vars.purchases v
      /\ BuyTheDip.Vars.total_invested v' = BuyTheDip.Vars.total_invested v
      /\ BuyTheDip.Vars.total_coins v' = BuyTheDip.Vars.total_coins v
      /\ BuyTheDip.Vars.accumulated_cash v' = cash
      /\ BuyTheDip.Vars.dip_days v' = BuyTheDip.Vars.dip_days v
      /\ BuyTheDip.Vars.missed_opportunities v' = BuyTheDip.Vars.missed_opportunities v).
Proof.
  intros cash v' dip.
  assert (Hno : ~ dip -> BuyTheDip.dip_threshold self < BuyTheDip.daily_return row).
  { intro H. apply Qnot_le_lt. exact H. }
  split; [|split; [|split]].
  - split.
    + intro Hd. destruct (Qlt_le_dec cash 100) as [Hc|Hc].
      * unfold v'. rewrite (dip_step_missed self v row Hd Hc). reflexivity.
      * unfold v'. rewrite (dip_step_buy self v row Hd Hc). reflexivity.
    + intro Hs. destruct (Qlt_le_dec (BuyTheDip.dip_threshold self) (BuyTheDip.daily_return row))
        as [Hn|Hd]; [|exact Hd].
      unfold v' in Hs. rewrite (dip_step_no_dip self v row Hn) in Hs. simpl in Hs. lia.
  - intros Hd Hc. unfold v'. rewrite (dip_step_buy self v row Hd Hc). simpl.
    eexists. split; [reflexivity|]. simpl. repeat split; reflexivity.
  - intros Hd Hc. unfold v'. rewrite (dip_step_missed self v row Hd Hc). simpl.
    repeat split; reflexivity.
  - intro Hn. unfold v'. rewrite (dip_step_no_dip self v row (Hno Hn)). simpl.
    repeat split; reflexivity.
Qed.

(** The loop of the engine run on a frame cut after some bar is the loop
    on the frame cut before that bar, followed by the iteration for the
    bar; the loop on the whole frame goes on from there over the bars
    that follow, in frame order. *)
Lemma dip_simulate_split (self : BuyTheDip.t) (before after : DataFrame) (row : Bar) :
  BuyTheDip.df self = before ++ row :: after ->
  let cut rows :=
    BuyTheDip.mk rows (BuyTheDip.monthly_savings self) (BuyTheDip.dip_threshold self) in
  BuyTheDip.simulate (cut (before ++ [row]))
  = BuyTheDip.step self (BuyTheDip.simulate (cut before)) row
  /\ BuyTheDip.simulate self
     = fold_left (BuyTheDip.step self) after (BuyTheDip.simulate (cut (before ++ [row]))).
Proof.
  intros Hdf cut.
  assert (Hstep : forall rows,
             fold_left (BuyTheDip.step (cut rows)) rows BuyTheDip.init
             = fold_left (BuyTheDip.step self) rows BuyTheDip.init) by reflexivity.
  unfold BuyTheDip.simulate. cbn [BuyTheDip.df cut]. rewrite !Hstep. split.
  - apply dip_simulate_snoc.
  - rewrite Hdf. change (row :: after) with ([row] ++ after).
    rewrite app_assoc, fold_left_app. reflexivity.
Qed.


(* ===================================================================== *)
(** * The dip engine: invariants of the loop *)
(* ===================================================================== *)

Section DipLoop.

Import BuyTheDip.

Variable self : BuyTheDip.t.

(** Reduction of record projections and of [map]/[length] on explicit
    lists, leaving [firstn] and [sum] folded. *)
Ltac dip_cbn :=
  cbn [Vars.total_invested Vars.total_coins Vars.accumulated_cash Vars.purchases
       Vars.dip_days Vars.missed_opportunities
       Purchase.date Purchase.price Purchase.daily_return Purchase.investment
       Purchase.coins_bought Purchase.total_invested Purchase.total_coins
       Purchase.avg_price map length Nat.add].

Lemma dip_books_init : dip_books init.
Proof.
  unfold dip_books, init; simpl. repeat split; try reflexivity.
  all: destruct k; discriminate.
Qed.

Lemma dip_books_step (v : Vars.t) (row : Bar) :
  dip_books v -> dip_books (step self v row).
Proof.
  intros (Hi & Hc & Hd & Hp).
  destruct (Qlt_le_dec (dip_threshold self) (daily_return row)) as [Hn|Hdip].
  { rewrite (dip_step_no_dip self v row Hn). unfold dip_books; simpl. auto. }
  destruct (Qlt_le_dec (Vars.accumulated_cash v + monthly_savings self / 30) 100) as [Hlow|Hok].
  { rewrite (dip_step_missed self v row Hdip Hlow). unfold dip_books; simpl.
    split; [exact Hi|]. split; [exact Hc|]. split; [lia | exact Hp]. }
  rewrite (dip_step_buy self v row Hdip Hok). unfold dip_books; dip_cbn.
  rewrite !map_app, length_app; dip_cbn. rewrite !sum_snoc.
  split; [congruence|]. split; [congruence|]. split; [lia|].
  intros k p Hk. apply nth_error_snoc in Hk. destruct Hk as [[Hk Hlt]|[-> ->]].
  - rewrite firstn_snoc_lt by lia. apply Hp. exact Hk.
  - rewrite firstn_snoc_all, !map_app. dip_cbn. rewrite !sum_snoc.
    split; [congruence|]. split; [congruence|]. reflexivity.
Qed.

Lemma dip_books_simulate : dip_books (simulate self).
Proof.
  unfold simulate. apply fold_left_inv.
  - apply dip_books_init.
  - intros v row _. apply dip_books_step.
Qed.

Lemma Qdiv_pos (a b : Q) : 0 < a -> 0 < b -> 0 < a / b.
Proof.
  intros Ha Hb. apply Qlt_shift_div_l; [exact Hb|]. rewrite Qmult_0_l. exact Ha.
Qed.

Lemma dip_positive_step (v : Vars.t) (row : Bar) :
  0 < close row -> dip_positive v -> dip_positive (step self v row).
Proof.
  intros Hclose (H0 & Hp).
  destruct (Qlt_le_dec (dip_threshold self) (daily_return row)) as [Hn|Hdip].
  { rewrite (dip_step_no_dip self v row Hn). split; simpl; auto. }
  destruct (Qlt_le_dec (Vars.accumulated_cash v + monthly_savings self / 30) 100) as [Hlow|Hok].
  { rewrite (dip_step_missed self v row Hdip Hlow). split; simpl; auto. }
  rewrite (dip_step_buy self v row Hdip Hok).
  assert (Hbuy : 0 < (Vars.accumulated_cash v + monthly_savings self / 30) / close row).
  { apply Qdiv_pos; [|exact Hclose].
    apply Qlt_le_trans with (y := 100); [reflexivity | exact Hok]. }
  assert (Hsum : 0 < Vars.total_coins v
                     + (Vars.accumulated_cash v + monthly_savings self / 30) / close row).
  { apply Qlt_le_trans with (y := 0 + (Vars.accumulated_cash v + monthly_savings self / 30) / close row).
    - rewrite Qplus_0_l. exact Hbuy.
    - apply Qplus_le_l. exact H0. }
  split; simpl.
  - apply Qlt_le_weak. exact Hsum.
  - intros p Hin. apply in_app_or in Hin. destruct Hin as [Hin|[<-|[]]].
    + apply Hp. exact Hin.
    + simpl. exact Hsum.
Qed.

Lemma dip_positive_simulate : positive_closes (df self) -> dip_positive (simulate self).
Proof.
  intro Hpos. unfold simulate. apply fold_left_inv.
  - split; simpl; [apply Qle_refl | intros p []].
  - intros v row Hin. apply dip_positive_step.
    unfold positive_closes in Hpos. rewrite Forall_forall in Hpos. apply Hpos. exact Hin.
Qed.

Lemma dip_idle_simulate : monthly_savings self <= 0 -> dip_idle (simulate self).
Proof.
  intro Hm. unfold simulate. apply fold_left_inv.
  - split; simpl; [apply Qle_refl | reflexivity].
  - intros v row _ (Hc & Hp).
    assert (Hs : monthly_savings self / 30 <= 0).
    { apply Qle_shift_div_r; [reflexivity|]. rewrite Qmult_0_l. exact Hm. }
    assert (Hcash0 : Vars.accumulated_cash v + monthly_savings self / 30 <= 0) by lra.
    assert (Hcash : Vars.accumulated_cash v + monthly_savings self / 30 < 100) by lra.
    destruct (Qlt_le_dec (dip_threshold self) (daily_return row)) as [Hn|Hdip].
    + rewrite (dip_step_no_dip self v row Hn). split; simpl; assumption.
    + rewrite (dip_step_missed self v row Hdip Hcash). split; simpl; assumption.
Qed.

End DipLoop.

(* ===================================================================== *)
(** * The dip engine: the result of a run *)
(* ===================================================================== *)

Section DipRun.

Import BuyTheDip.

Variable self : BuyTheDip.t.

(** A run that returns a result has found purchases in the log, and the
    result is built from the loop's final variables. *)
Lemma dip_run_inv (r : Results.t) :
  run_strategy self = Return (Some r) ->
  let v := simulate self in
  exists current_price,
    df self <> []
    /\ Vars.purchases v <> []
    /\ iloc_last (map close (df self)) = Return current_price
    /\ Results.purchases r = Vars.purchases v
    /\ Results.total_invested r = Vars.total_invested v
    /\ Results.total_coins r = Vars.total_coins v
    /\ Results.accumulated_cash r = Vars.accumulated_cash v
    /\ Results.num_purchases r = length (Vars.purchases v)
    /\ Results.dip_days r = Vars.dip_days v
    /\ Results.missed_opportunities r = Vars.missed_opportunities v
    /\ Results.total_days r = length (df self)
    /\ Results.current_price r = current_price
    /\ Results.total_should_save r = Qlen (df self) * (monthly_savings self / 30)
    /\ Results.current_value r = Vars.total_coins v * current_price
    /\ Results.current_value_with_cash r
       = Vars.total_coins v * current_price + Vars.accumulated_cash v
    /\ Results.total_return r
       = Vars.total_coins v * current_price + Vars.accumulated_cash v
         - Qlen (df self) * (monthly_savings self / 30)
    /\ Results.return_pct r
       = (if Qlt_bool 0 (Qlen (df self) * (monthly_savings self / 30))
          then (Vars.total_coins v * current_price + Vars.accumulated_cash v
                - Qlen (df self) * (monthly_savings self / 30))
               / (Qlen (df self) * (monthly_savings self / 30)) * 100
          else 0).
Proof.
  unfold run_strategy. intro H.
  destruct (df self) as [|r0 rs] eqn:Edf; [discriminate|]. cbn [print_period bind] in H.
  destruct (Vars.purchases (simulate self)) as [|p0 ps] eqn:Ep; [discriminate|].
  cbn [length Nat.ltb Nat.leb] in H.
  destruct (iloc_last (map close (r0 :: rs))) as [cp|e] eqn:Ecp; [|discriminate].
  cbn [bind iloc_first] in H.
  destruct (iloc_last (p0 :: ps)) as [pn|e]; [|discriminate]. cbn [bind] in H.
  injection H as <-. exists cp. cbn.
  repeat split; try reflexivity; discriminate.
Qed.

(** When the loop has bought at least once on a frame that is not empty,
    the run returns a result. *)
Lemma dip_run_total :
  df self <> [] -> Vars.purchases (simulate self) <> [] ->
  exists r, run_strategy self = Return (Some r).
Proof.
  intros Hne Hp. unfold run_strategy.
  destruct (df self) as [|r0 rs] eqn:Edf; [congruence|]. cbn [print_period bind].
  destruct (Vars.purchases (simulate self)) as [|p0 ps] eqn:Ep; [congruence|].
  cbn [length Nat.ltb Nat.leb].
  destruct (iloc_last_nonempty (map close (r0 :: rs))) as [cp Hcp]; [discriminate|].
  rewrite Hcp. cbn [bind iloc_first].
  destruct (iloc_last_nonempty (p0 :: ps)) as [pn Hpn]; [discriminate|].
  rewrite Hpn. cbn [bind]. eexists. reflexivity.
Qed.

(** When the loop has bought nothing on a frame that is not empty, the run
    returns [None]. *)
Lemma dip_run_none :
  df self <> [] -> Vars.purchases (simulate self) = [] ->
  run_strategy self = Return None.
Proof.
  intros Hne Hp. unfold run_strategy.
  destruct (df self) as [|r0 rs] eqn:Edf; [congruence|]. cbn [print_period bind].
  rewrite Hp. reflexivity.
Qed.

End DipRun.

(* ===================================================================== *)
(** * The dip engine: what happens on every bar *)
(* ===================================================================== *)

(** C2. The dip engine on a frame of positive prices, at any bar [row] of
    the frame, [before] being the bars in front of it and [after] those
    behind it.  The variables [v] of the loop when it reaches the bar are
    those of a run over [before] alone, starting from zero cash, no
    purchase and zero counters; the variables [v'] when it leaves the bar
    are those of a run over [before ++ [row]], and the loop goes on from
    [v'] over [after], in frame order.  On the bar the cash first grows by
    [monthly_savings / 30].  The dip-day counter increments exactly when
    the intrabar return [(close - open) / open * 100] is at most the
    threshold.  On such a bar, if the cash is at least 100, all of it is
    spent at the bar's close ([coins_bought = cash / close], a positive
    quantity), a purchase is appended and the cash is reset to 0; otherwise the
    missed-opportunity counter increments and the cash is kept.  On any
    other bar nothing is bought and the counters are unchanged.
    [run_strategy] returns [None] when the loop ends with an empty log,
    and otherwise a result that carries the log, the totals, the cash and
    the counters the loop ends with. *)
Theorem dip_engine_step (self : BuyTheDip.t) (before after : DataFrame) (row : Bar) :
  BuyTheDip.df self = before ++ row :: after ->
  positive_prices (BuyTheDip.df self) ->
  let cut rows :=
    BuyTheDip.mk rows (BuyTheDip.monthly_savings self) (BuyTheDip.dip_threshold self) in
  let v := BuyTheDip.simulate (cut before) in
  let v' := BuyTheDip.simulate (cut (before ++ [row])) in
  let cash := BuyTheDip.Vars.accumulated_cash v + BuyTheDip.monthly_savings self / 30 in
  let dip := (close row - open row) / open row * 100 <= BuyTheDip.dip_threshold self in
  BuyTheDip.simulate (cut []) = BuyTheDip.Vars.mk 0 0 0 [] 0 0
  /\ BuyTheDip.simulate self = fold_left (BuyTheDip.step self) after v'
  /\ (dip <-> BuyTheDip.Vars.dip_days v' = S (BuyTheDip.Vars.dip_days v))
  /\ (dip -> 100 <= cash ->
      exists p,
        BuyTheDip.Vars.purchases v' = BuyTheDip.Vars.purchases v ++ [p]
        /\ BuyTheDip.Purchase.date p = date row
        /\ BuyTheDip.Purchase.price p = close row
        /\ BuyTheDip.Purchase.investment p = cash
        /\ BuyTheDip.Purchase.coins_bought p = cash / close row
        /\ 0 < BuyTheDip.Purchase.coins_bought p
        /\ BuyTheDip.Vars.total_invested v' = BuyTheDip.Vars.total_invested v + cash
        /\ BuyTheDip.Vars.total_coins v' = BuyTheDip.Vars.total_coins v + cash / close row
        /\ BuyTheDip.Vars.accumulated_cash v' = 0
        /\ BuyTheDip.Vars.missed_opportunities v' = BuyTheDip.Vars.missed_opportunities v)
  /\ (dip -> cash < 100 ->
      BuyTheDip.Vars.purchases v' = BuyTheDip.Vars.purchases v
      /\ BuyTheDip.Vars.total_invested v' = BuyTheDip.Vars.total_invested v
      /\ BuyTheDip.Vars.total_coins v' = BuyTheDip.Vars.total_coins v
      /\ BuyTheDip.Vars.accumulated_cash v' = cash
      /\ BuyTheDip.Vars.missed_opportunities v'
         = S (BuyTheDip.Vars.missed_opportunities v))
  /\ (~ dip ->
      BuyTheDip.Vars.purchases v' = BuyTheDip.Vars.purchases v
      /\ BuyTheDip.Vars.total_invested v' = BuyTheDip.Vars.total_invested v
      /\ BuyTheDip.Vars.total_coins v' = BuyTheDip.Vars.total_coins v
      /\ BuyTheDip.Vars.accumulated_cash v' = cash
      /\ BuyTheDip.Vars.dip_days v' = BuyTheDip.Vars.dip_days v
      /\ BuyTheDip.Vars.missed_opportunities v' = BuyTheDip.Vars.missed_opportunities v)
  /\ (BuyTheDip.Vars.purchases (BuyTheDip.simulate self) = [] ->
      BuyTheDip.run_strategy self = Return None)
  /\ (BuyTheDip.Vars.purchases (BuyTheDip.simulate self) <> [] ->
      let final := BuyTheDip.simulate self in
      exists r,
        BuyTheDip.run_strategy self = Return (Some r)
        /\ BuyTheDip.Results.purchases r = BuyTheDip.Vars.purchases final
        /\ BuyTheDip.Results.total_invested r = BuyTheDip.Vars.total_invested final
        /\ BuyTheDip.Results.total_coins r = BuyTheDip.Vars.total_coins final
        /\ BuyTheDip.Results.accumulated_cash r = BuyTheDip.Vars.accumulated_cash final
        /\ BuyTheDip.Results.dip_days r = BuyTheDip.Vars.dip_days final
        /\ BuyTheDip.Results.missed_opportunities r
           = BuyTheDip.Vars.missed_opportunities final).
Proof.
  intros Hdf Hpos cut v v' cash dip.
  destruct (dip_simulate_split self before after row Hdf) as (Hsnoc0 & Hrest0).
  assert (Hsnoc : v' = BuyTheDip.step self v row) by exact Hsnoc0.
  assert (Hrest : BuyTheDip.simulate self = fold_left (BuyTheDip.step self) after v')
    by exact Hrest0.
  clear Hsnoc0 Hrest0.
  assert (Hclose : 0 < close row).
  { unfold positive_prices in Hpos. rewrite Hdf, Forall_app, Forall_cons_iff in Hpos. tauto. }
  split; [reflexivity|]. split; [exact Hrest|].
  pose proof (dip_step_cases self v row) as Hcases. cbv zeta in Hcases.
  rewrite <- Hsnoc in Hcases. fold cash dip in Hcases.
  destruct Hcases as (H1 & H2 & H3 & H4).
  split; [exact H1|]. split.
  { intros Hd Hc. destruct (H2 Hd Hc) as (p & Hp & Hdate & Hprice & Hinv & Hcoins & Hrest').
    exists p. split; [exact Hp|]. split; [exact Hdate|]. split; [exact Hprice|].
    split; [exact Hinv|]. split; [exact Hcoins|]. split; [|exact Hrest'].
    rewrite Hcoins. apply Qdiv_pos; [|exact Hclose].
    apply Qlt_le_trans with (y := 100); [reflexivity | exact Hc]. }
  split; [exact H3|]. split; [exact H4|].
  assert (Hne : BuyTheDip.df self <> []).
  { rewrite Hdf. destruct before; discriminate. }
  split; [intro Hnone; apply dip_run_none; assumption|].
  intros Hsome final.
  destruct (dip_run_total self Hne Hsome) as (r & Hrun). exists r.
  destruct (dip_run_inv self r Hrun)
    as (cp & _ & _ & _ & Hlog & Hti & Htc & Hcash & _ & Hdd & Hm & _).
  repeat split; assumption.
Qed.

(** The theorem at [two_dips] with a stipend of 1500: the third bar is a
    dip that finds 150 saved and spends it at the close of 90. *)
Lemma dip_engine_step_witness :
  exists p,
    BuyTheDip.Vars.purchases
      (BuyTheDip.simulate (BuyTheDip.mk (firstn 3 two_dips) 1500 (-5))) = [p]
    /\ BuyTheDip.Purchase.date p = mkDate 2024 1 5
    /\ BuyTheDip.Purchase.price p = 90
    /\ BuyTheDip.Purchase.investment p == 150.
Proof.
  destruct (dip_engine_step (BuyTheDip.mk two_dips 1500 (-5))
              (firstn 2 two_dips) (skipn 3 two_dips) (bar 2024 1 5 100 101 89 90)
              eq_refl)
    as (_ & _ & _ & Hbuy & _).
  - repeat (constructor; [split; reflexivity|]). constructor.
  - cbv zeta in Hbuy. destruct Hbuy as (p & Hp & Hdate & Hprice & Hinv & _).
    + vm_compute. discriminate.
    + vm_compute. discriminate.
    + exists p. split; [exact Hp|]. split; [exact Hdate|]. split; [exact Hprice|].
      rewrite Hinv. reflexivity.
Defined.

(* ===================================================================== *)
(** * The calendar scheduler of [run_dca] *)
(* ===================================================================== *)

Lemma filter_first_split {A : Type} (f : A -> bool) (xs : list A) (x : A) (rest : list A) :
  filter f xs = x :: rest ->
  exists l1 l2, xs = l1 ++ x :: l2 /\ f x = true /\ Forall (fun y => f y = false) l1.
Proof.
  induction xs as [|y ys IH]; simpl; [discriminate|].
  destruct (f y) eqn:E.
  - intro H. injection H as -> _. exists [], ys. auto.
  - intro H. destruct (IH H) as [l1 [l2 [-> [Hx Hl]]]].
    exists (y :: l1), l2. auto.
Qed.

Lemma filter_nil_all {A : Type} (f : A -> bool) (xs : list A) :
  filter f xs = [] -> Forall (fun y => f y = false) xs.
Proof.
  induction xs as [|y ys IH]; simpl; [constructor|].
  destruct (f y) eqn:E; [discriminate|]. intro H. constructor; auto.
Qed.

(** The resolved date, for a month that has dates: the first available
    date, in frame order, that is not before the target; when there is
    none, the last available date. *)
Lemma buy_date_policy (available : list Date) (target : Date) :
  available <> [] ->
  exists d,
    SimpleDCA.buy_date available target = Return d
    /\ In d available
    /\ ((exists l1 l2,
            available = l1 ++ d :: l2
            /\ date_geb d target = true
            /\ Forall (fun x => date_geb x target = false) l1)
        \/ (Forall (fun x => date_geb x target = false) available
            /\ iloc_last available = Return d)).
Proof.
  intro Hne. unfold SimpleDCA.buy_date.
  destruct (filter (fun d => date_geb d target) available) as [|d rest] eqn:E; simpl.
  - destruct (iloc_last_nonempty available Hne) as [d Hd]. exists d.
    split; [exact Hd|]. split; [apply iloc_last_In; exact Hd|].
    right. split; [apply filter_nil_all; exact E | exact Hd].
  - exists d. split; [reflexivity|].
    destruct (filter_first_split _ _ _ _ E) as [l1 [l2 [Ha [Hd Hl]]]].
    split; [rewrite Ha; apply in_elt|]. left. exists l1, l2. auto.
Qed.

(** On dates in ascending order the first date not before the target is
    the earliest one. *)
Lemma buy_date_earliest (available : list Date) (target d : Date) :
  StronglySorted date_lt available ->
  SimpleDCA.buy_date available target = Return d ->
  forall d', In d' available -> date_geb d' target = true -> d' = d \/ date_lt d d'.
Proof.
  intros Hs Hb d' Hin Hge.
  unfold SimpleDCA.buy_date in Hb.
  destruct (filter (fun x => date_geb x target) available) as [|x rest] eqn:E; simpl in Hb.
  - apply filter_nil_all in E. rewrite Forall_forall in E. specialize (E d' Hin).
    simpl in E. congruence.
  - injection Hb as ->.
    destruct (filter_first_split _ _ _ _ E) as [l1 [l2 [Ha [Hd Hl]]]]. subst available.
    apply in_app_or in Hin. destruct Hin as [Hin|[->|Hin]].
    + rewrite Forall_forall in Hl. specialize (Hl d' Hin). simpl in Hl. congruence.
    + left; reflexivity.
    + right. clear - Hs Hin. induction l1 as [|y ys IH]; simpl in Hs.
      * inversion Hs as [|? ? _ Hall]; subst. rewrite Forall_forall in Hall. auto.
      * inversion Hs; subst. auto.
Qed.

(** The two cases of the specification's scheduler example, in a month of
    31 days: trading dates 3, 4, 5, 8, 9 with target day 7 resolve to the
    8th; dates ending on the 28th with target day 31 resolve to the 28th. *)
Example scheduler_example_next :
  (t <- Timestamp 2024 1 7 ;;
   SimpleDCA.buy_date (map (mkDate 2024 1) [3; 4; 5; 8; 9]%Z) t)
  = Return (mkDate 2024 1 8).
Proof. reflexivity. Qed.

Example scheduler_example_last :
  (t <- Timestamp 2024 1 31 ;;
   SimpleDCA.buy_date (map (mkDate 2024 1) [25; 26; 27; 28]%Z) t)
  = Return (mkDate 2024 1 28).
Proof. reflexivity. Qed.

(* ===================================================================== *)
(** * The scheduled engine: one month at a time *)
(* ===================================================================== *)

Section DcaStep.

Import SimpleDCA.

Variable self : SimpleDCA.t.

(** An iteration that returns, for a month that has rows, has built the
    target timestamp, resolved the date among the month's rows and read
    its close. *)
Lemma dca_step_inv (v v' : Vars.t) (k : Z * Z) :
  month_rows (df self) (fst k) (snd k) <> [] ->
  step self v k = Return v' ->
  exists d row,
    valid_ymd (fst k) (snd k) (day_of_month self) = true
    /\ buy_date (map date (month_rows (df self) (fst k) (snd k)))
         (mkDate (fst k) (snd k) (day_of_month self)) = Return d
    /\ In d (map date (month_rows (df self) (fst k) (snd k)))
    /\ In row (df self) /\ date row = d
    /\ loc (df self) d close = Return (close row)
    /\ v' = dca_bought self v k d (close row).
Proof.
  intros Hne Hstep. unfold step in Hstep.
  destruct (month_rows (df self) (fst k) (snd k)) as [|r0 rs] eqn:Erows; [congruence|].
  cbn [length Nat.eqb] in Hstep.
  unfold Timestamp in Hstep.
  destruct (valid_ymd (fst k) (snd k) (day_of_month self)) eqn:Ev; [|discriminate].
  cbn [bind] in Hstep.
  destruct (buy_date (map date (r0 :: rs)) (mkDate (fst k) (snd k) (day_of_month self)))
    as [d|e] eqn:Eb; [|discriminate].
  cbn [bind] in Hstep.
  assert (Hd : In d (map date (r0 :: rs))).
  { destruct (buy_date_policy (map date (r0 :: rs))
                (mkDate (fst k) (snd k) (day_of_month self))) as [d' [Hb [Hin _]]];
      [discriminate|]. rewrite Eb in Hb. injection Hb as ->. exact Hin. }
  assert (Hdf : In d (map date (df self))).
  { apply in_map_iff in Hd. destruct Hd as [r [Hr Hin]].
    rewrite <- Erows in Hin. apply month_rows_In in Hin.
    apply in_map_iff. exists r. tauto. }
  destruct (loc_In (df self) d close Hdf) as [row [Hrow [Hdate Hloc]]].
  rewrite Hloc in Hstep. cbn [bind] in Hstep. injection Hstep as <-.
  exists d, row. repeat split; auto.
Qed.

(** With a target day that exists in the month, the iteration for a month
    that has rows returns. *)
Lemma dca_step_total (v : Vars.t) (k : Z * Z) :
  month_rows (df self) (fst k) (snd k) <> [] ->
  valid_ymd (fst k) (snd k) (day_of_month self) = true ->
  exists v', step self v k = Return v'.
Proof.
  intros Hne Hv. unfold step.
  destruct (month_rows (df self) (fst k) (snd k)) as [|r0 rs] eqn:Erows; [congruence|].
  cbn [length Nat.eqb]. unfold Timestamp. rewrite Hv. cbn [bind].
  destruct (buy_date_policy (map date (r0 :: rs))
              (mkDate (fst k) (snd k) (day_of_month self))) as [d [Hb [Hin _]]];
    [discriminate|].
  rewrite Hb. cbn [bind].
  assert (Hdf : In d (map date (df self))).
  { apply in_map_iff in Hin. destruct Hin as [r [Hr Hin]].
    rewrite <- Erows in Hin. apply month_rows_In in Hin.
    apply in_map_iff. exists r. tauto. }
  destruct (loc_In (df self) d close Hdf) as [row [_ [_ Hloc]]].
  rewrite Hloc. cbn [bind]. eexists. reflexivity.
Qed.

End DcaStep.

(* ===================================================================== *)
(** * The scheduled engine: invariants of the loop *)
(* ===================================================================== *)

Section DcaLoop.

Import SimpleDCA.

Variable self : SimpleDCA.t.

Ltac dca_cbn :=
  cbn [Vars.total_invested Vars.total_coins Vars.purchases
       Purchase.date Purchase.year Purchase.month Purchase.price Purchase.investment
       Purchase.coins_bought Purchase.total_invested Purchase.total_coins
       Purchase.avg_price map length Nat.add fst snd].

Lemma dca_books_init : dca_books self [] init.
Proof.
  unfold dca_books, init; dca_cbn.
  split; [reflexivity|]. split; [reflexivity|]. split; [reflexivity|].
  split; [change (0 == 0 * monthly_investment self); ring|].
  split; [|constructor].
  intros k p Hp. destruct k; discriminate.
Qed.

Lemma dca_books_step (done : list (Z * Z)) (v v' : Vars.t) (k : Z * Z) :
  In k (unique_months self) ->
  dca_books self done v -> step self v k = Return v' -> dca_books self (done ++ [k]) v'.
Proof.
  intros Hk (Hkeys & Hi & Hc & Hn & Hb & Hok) Hstep.
  apply month_rows_nonempty in Hk.
  destruct (dca_step_inv self v v' k Hk Hstep)
    as (d & row & Hv & Hbuy & Hin & Hrow & Hdate & Hloc & ->).
  unfold dca_books, dca_bought; dca_cbn.
  rewrite !map_app; dca_cbn. rewrite !sum_snoc.
  split; [rewrite Hkeys; destruct k; reflexivity|].
  split; [congruence|]. split; [congruence|].
  split.
  { apply Qeq_trans with ((Qlen (Vars.purchases v) + 1) * monthly_investment self).
    - apply Qeq_trans with (Qlen (Vars.purchases v) * monthly_investment self
                            + monthly_investment self); [|ring].
      apply Qplus_comp; [exact Hn | apply Qeq_refl].
    - apply Qmult_comp; [|apply Qeq_refl]. apply Qeq_sym. apply Qlen_snoc. }
  split.
  - intros i p Hp. apply nth_error_snoc in Hp. destruct Hp as [[Hp Hlt]|[-> ->]].
    + rewrite firstn_snoc_lt by lia. apply Hb. exact Hp.
    + rewrite firstn_snoc_all, !map_app. dca_cbn. rewrite !sum_snoc.
      split; [congruence|]. split; [congruence|]. reflexivity.
  - apply Forall_app. split; [exact Hok|]. constructor; [|constructor].
    unfold dca_purchase_ok; dca_cbn.
    apply in_map_iff in Hin. destruct Hin as [r [Hr Hrin]].
    apply month_rows_In in Hrin. destruct Hrin as (_ & Hy & Hm).
    repeat split; try reflexivity; try assumption; try congruence.
    exists row. auto.
Qed.

Lemma dca_books_simulate (v : Vars.t) :
  simulate self = Return v -> dca_books self (unique_months self) v.
Proof.
  intro Hrun. change (unique_months self) with ([] ++ unique_months self).
  apply (for_each_prefix_inv (dca_books self) (step self) (unique_months self) [] init v).
  - apply dca_books_init.
  - intros done' k s s' Hk. apply dca_books_step. exact Hk.
  - exact Hrun.
Qed.

Lemma dca_monotone_simulate (v : Vars.t) :
  0 <= monthly_investment self -> positive_closes (df self) ->
  simulate self = Return v -> dca_monotone v.
Proof.
  intros Hm Hpos Hrun.
  apply (for_each_inv dca_monotone (step self) (unique_months self) init v).
  - unfold dca_monotone, init; dca_cbn.
    repeat split; try (intros a []); apply nondecreasing_nil.
  - intros s k s' Hk (Hi & Hc & Hmi & Hmc) Hstep.
    apply month_rows_nonempty in Hk.
    destruct (dca_step_inv self s s' k Hk Hstep)
      as (d & row & Hv & Hbuy & Hin & Hrow & Hdate & Hloc & ->).
    assert (Hclose : 0 < close row).
    { unfold positive_closes in Hpos. rewrite Forall_forall in Hpos. auto. }
    assert (Hbuy0 : 0 <= monthly_investment self / close row).
    { apply Qle_shift_div_l; [exact Hclose|]. rewrite Qmult_0_l. exact Hm. }
    unfold dca_monotone, dca_bought; dca_cbn. rewrite !map_app; dca_cbn.
    assert (Hi' : forall a, In a (map Purchase.total_invested (Vars.purchases s)) ->
                            a <= Vars.total_invested s + monthly_investment self).
    { intros a Ha. specialize (Hi a Ha). lra. }
    assert (Hc' : forall a, In a (map Purchase.total_coins (Vars.purchases s)) ->
                            a <= Vars.total_coins s + monthly_investment self / close row).
    { intros a Ha. specialize (Hc a Ha). lra. }
    split; [|split; [|split]].
    + intros a Ha. apply in_app_or in Ha. destruct Ha as [Ha|[<-|[]]];
        [auto | apply Qle_refl].
    + intros a Ha. apply in_app_or in Ha. destruct Ha as [Ha|[<-|[]]];
        [auto | apply Qle_refl].
    + apply nondecreasing_snoc; assumption.
    + apply nondecreasing_snoc; assumption.
  - exact Hrun.
Qed.

(** With a target day that exists in every month of the frame the loop
    runs to its end. *)
Lemma dca_simulate_total :
  target_day_exists (df self) (day_of_month self) ->
  exists v, simulate self = Return v.
Proof.
  intro Hday. unfold simulate. apply for_each_total.
  intros s k Hk. apply dca_step_total.
  - apply month_rows_nonempty. exact Hk.
  - apply group_keys_In in Hk. destruct Hk as [row [Hin <-]].
    unfold target_day_exists in Hday. rewrite Forall_forall in Hday.
    apply Hday. exact Hin.
Qed.

End DcaLoop.

(* ===================================================================== *)
(** * The scheduled engine: the result of a run *)
(* ===================================================================== *)

Section DcaRun.

Import SimpleDCA.

Variable self : SimpleDCA.t.

(** A run that returns a result has passed the loop, and the result is
    built from the loop's final variables. *)
Lemma dca_run_inv (r : Results.t) :
  run_dca self = Return (Some r) ->
  exists v current_price,
    df self <> []
    /\ simulate self = Return v
    /\ iloc_last (map close (df self)) = Return current_price
    /\ Results.purchases r = Vars.purchases v
    /\ Results.total_invested r = Vars.total_invested v
    /\ Results.total_coins r = Vars.total_coins v
    /\ Results.num_purchases r = length (Vars.purchases v)
    /\ Results.current_price r = current_price
    /\ Results.current_value r = Vars.total_coins v * current_price
    /\ Results.total_return r = Vars.total_coins v * current_price - Vars.total_invested v
    /\ Results.return_pct r
       = (if Qlt_bool 0 (Vars.total_invested v)
          then (Vars.total_coins v * current_price - Vars.total_invested v)
               / Vars.total_invested v * 100
          else 0).
Proof.
  unfold run_dca. intro H.
  destruct (df self) as [|r0 rs] eqn:Edf; [discriminate|]. cbn [print_period bind] in H.
  destruct (simulate self) as [v|e] eqn:Ev; [|discriminate]. cbn [bind] in H.
  destruct (0 <? length (Vars.purchases v))%nat; [|discriminate].
  destruct (iloc_last (map close (r0 :: rs))) as [cp|e] eqn:Ecp; [|discriminate].
  cbn [bind] in H.
  destruct (iloc_first (Vars.purchases v)) as [p0|e]; [|discriminate]. cbn [bind] in H.
  destruct (iloc_last (Vars.purchases v)) as [pn|e]; [|discriminate]. cbn [bind] in H.
  injection H as <-. exists v, cp. cbn.
  repeat split; try reflexivity. discriminate.
Qed.

Lemma unique_months_nonempty : df self <> [] -> unique_months self <> [].
Proof.
  intros Hne E. destruct (df self) as [|r0 rs] eqn:Edf; [congruence|].
  assert (Hin : In (year (date r0), month (date r0)) (unique_months self)).
  { unfold unique_months. apply group_keys_In. exists r0. rewrite Edf. simpl. auto. }
  rewrite E in Hin. exact Hin.
Qed.

(** On a frame that is not empty, with a target day that exists in each
    of its months, the run returns a result. *)
Lemma dca_run_total :
  df self <> [] -> target_day_exists (df self) (day_of_month self) ->
  exists r, run_dca self = Return (Some r).
Proof.
  intros Hne Hday. destruct (dca_simulate_total self Hday) as [v Hv].
  pose proof (dca_books_simulate self v Hv) as (Hkeys & _).
  pose proof (unique_months_nonempty Hne) as Hk.
  assert (Hp : Vars.purchases v <> []).
  { intro E. rewrite E in Hkeys. simpl in Hkeys. congruence. }
  unfold run_dca.
  destruct (df self) as [|r0 rs] eqn:Edf; [congruence|]. cbn [print_period bind].
  rewrite Hv. cbn [bind].
  destruct (Vars.purchases v) as [|p0 ps] eqn:Ep; [congruence|].
  cbn [length Nat.ltb Nat.leb].
  destruct (iloc_last_nonempty (map close (r0 :: rs))) as [cp Hcp]; [discriminate|].
  rewrite Hcp. cbn [bind iloc_first].
  destruct (iloc_last_nonempty (p0 :: ps)) as [pn Hpn]; [discriminate|].
  rewrite Hpn. cbn [bind]. eexists. reflexivity.
Qed.

End DcaRun.

Lemma dates_ascending_of_keys (ps : list SimpleDCA.Purchase.t) :
  ascending (map (fun p => (SimpleDCA.Purchase.year p, SimpleDCA.Purchase.month p)) ps) ->
  Forall (fun p => year (SimpleDCA.Purchase.date p) = SimpleDCA.Purchase.year p
                   /\ month (SimpleDCA.Purchase.date p) = SimpleDCA.Purchase.month p) ps ->
  StronglySorted date_lt (map SimpleDCA.Purchase.date ps).
Proof.
  unfold ascending. induction ps as [|p ps IH]; simpl; intros Hs Hd; [constructor|].
  inversion Hs as [|? ? Hrest Hall]; subst. inversion Hd as [|? ? [Hy Hm] Hd']; subst.
  constructor; [apply IH; assumption|].
  rewrite Forall_forall in *. intros d Hin.
  apply in_map_iff in Hin. destruct Hin as [q [<- Hq]].
  assert (Hlt : ym_lt (SimpleDCA.Purchase.year p, SimpleDCA.Purchase.month p)
                      (SimpleDCA.Purchase.year q, SimpleDCA.Purchase.month q)).
  { apply Hall. apply in_map_iff. exists q. auto. }
  destruct (Hd' q Hq) as [Hy' Hm'].
  unfold ym_lt in Hlt. rewrite ym_ltb_spec in Hlt. simpl in Hlt.
  unfold date_lt. rewrite date_ltb_spec. lia.
Qed.

(* ===================================================================== *)
(** * The scheduled engine: cadence *)
(* ===================================================================== *)

(** C4.  On a frame with unique dates and a target day that exists in
    each of its months, the loop of [run_dca] runs to its end, and its
    log holds exactly one purchase for each (year, month) pair that has a
    row, in chronological order.  Each purchase spends
    [monthly_investment] at the close of the resolved date, the close of
    the one row that carries this date ([coins_bought =
    monthly_investment / close]); the number of purchases is the number
    of months with data and [total_invested] is that number times
    [monthly_investment].  With an amount that is not negative and
    positive closes, the cumulative invested total and the cumulative
    units never decrease along the log.  When the frame has rows,
    [run_dca] returns a result that reports this log, its length and
    these totals.  (When some month of the frame lacks the target day the
    run raises instead: [dca_raises_when_target_day_missing].) *)
Theorem dca_one_purchase_per_month (self : SimpleDCA.t) :
  NoDup (map date (SimpleDCA.df self)) ->
  target_day_exists (SimpleDCA.df self) (SimpleDCA.day_of_month self) ->
  exists v,
    let log := SimpleDCA.Vars.purchases v in
    let months := map (fun p => (SimpleDCA.Purchase.year p, SimpleDCA.Purchase.month p)) log in
    SimpleDCA.simulate self = Return v
    /\ NoDup months
    /\ (forall y m,
           In (y, m) months <->
           exists row, In row (SimpleDCA.df self)
                       /\ year (date row) = y /\ month (date row) = m)
    /\ StronglySorted date_lt (map SimpleDCA.Purchase.date log)
    /\ Forall (fun p =>
                 SimpleDCA.Purchase.investment p = SimpleDCA.monthly_investment self
                 /\ SimpleDCA.buy_date
                      (map date (month_rows (SimpleDCA.df self)
                                   (SimpleDCA.Purchase.year p) (SimpleDCA.Purchase.month p)))
                      (mkDate (SimpleDCA.Purchase.year p) (SimpleDCA.Purchase.month p)
                         (SimpleDCA.day_of_month self))
                    = Return (SimpleDCA.Purchase.date p)
                 /\ loc (SimpleDCA.df self) (SimpleDCA.Purchase.date p) close
                    = Return (SimpleDCA.Purchase.price p)
                 /\ (forall row,
                        In row (SimpleDCA.df self) ->
                        date row = SimpleDCA.Purchase.date p ->
                        close row = SimpleDCA.Purchase.price p)
                 /\ SimpleDCA.Purchase.coins_bought p
                    = SimpleDCA.monthly_investment self / SimpleDCA.Purchase.price p) log
    /\ length log = length (SimpleDCA.unique_months self)
    /\ SimpleDCA.Vars.total_invested v
       == inject_Z (Z.of_nat (length log)) * SimpleDCA.monthly_investment self
    /\ (0 <= SimpleDCA.monthly_investment self ->
        positive_closes (SimpleDCA.df self) ->
        nondecreasing (map SimpleDCA.Purchase.total_invested log)
        /\ nondecreasing (map SimpleDCA.Purchase.total_coins log))
    /\ (SimpleDCA.df self <> [] ->
        exists r,
          SimpleDCA.run_dca self = Return (Some r)
          /\ SimpleDCA.Results.purchases r = log
          /\ SimpleDCA.Results.num_purchases r = length log
          /\ SimpleDCA.Results.total_invested r = SimpleDCA.Vars.total_invested v
          /\ SimpleDCA.Results.total_coins r = SimpleDCA.Vars.total_coins v).
Proof.
  intros Huniq Hday.
  destruct (dca_simulate_total self Hday) as [v Hv]. exists v.
  destruct (dca_books_simulate self v Hv) as (Hkeys & _ & _ & Hn & _ & Hok).
  cbv zeta. rewrite Hkeys.
  pose proof (group_keys_ascending (SimpleDCA.df self)) as Hasc.
  split; [exact Hv|].
  split; [apply ascending_NoDup; exact Hasc|].
  split.
  { intros y m. unfold SimpleDCA.unique_months. rewrite group_keys_In. split.
    - intros [row [Hin E]]. injection E as <- <-. exists row. auto.
    - intros [row [Hin [<- <-]]]. exists row. auto. }
  split.
  { apply dates_ascending_of_keys.
    - rewrite Hkeys. exact Hasc.
    - apply Forall_impl with (2 := Hok). unfold dca_purchase_ok. tauto. }
  split.
  { apply Forall_impl with (2 := Hok). unfold dca_purchase_ok.
    intros p (Hinv & Hcoins & Hloc & Hbuy & _).
    split; [exact Hinv|]. split; [exact Hbuy|]. split; [exact Hloc|].
    split; [|exact Hcoins].
    intros row Hin Hdate.
    pose proof (loc_unique (SimpleDCA.df self) row close Huniq Hin) as Hrow.
    rewrite Hdate, Hloc in Hrow. injection Hrow as ->. reflexivity. }
  split.
  { rewrite <- Hkeys. rewrite length_map. reflexivity. }
  split; [exact Hn|].
  split.
  { intros Hm Hpos.
    destruct (dca_monotone_simulate self v Hm Hpos Hv) as (_ & _ & H1 & H2). auto. }
  intro Hne.
  destruct (dca_run_total self Hne Hday) as [r Hrun]. exists r.
  destruct (dca_run_inv self r Hrun)
    as (v' & cp & _ & Hv' & _ & Hlog & Hti & Htc & Hnum & _).
  rewrite Hv in Hv'. injection Hv' as <-. auto.
Qed.

(** The theorem at [dca_three_months]: three months, three purchases. *)
Lemma dca_one_purchase_per_month_witness :
  exists r,
    SimpleDCA.run_dca dca_three_months = Return (Some r)
    /\ SimpleDCA.Results.num_purchases r = 3%nat
    /\ SimpleDCA.Results.total_invested r == 3000.
Proof.
  destruct (dca_one_purchase_per_month dca_three_months) as [v H].
  - repeat (constructor; [simpl; intuition discriminate|]). constructor.
  - repeat constructor.
  - cbv zeta in H.
    destruct H as (_ & _ & _ & _ & _ & Hlen & Hti & _ & Hrun).
    destruct Hrun as (r & Hrun & _ & Hnum & Hr & _); [discriminate|].
    exists r. split; [exact Hrun|]. split; [rewrite Hnum; exact Hlen|].
    rewrite Hr, Hti, Hlen. reflexivity.
Defined.

(** The cadence breaks on a month that lacks the target day.  On
    [three_months], whose dates are unique, with target day 30: January
    has a 30th, no bar on or after it, and the scheduler falls back to the
    last bar of January; February 2024 has no 30th, building the target
    timestamp raises, and [run_dca] raises with it: none of the three
    months with data gets its purchase.  The scheduler itself, given the
    target (2024, 2, 30), would resolve February to its last bar. *)
Lemma dca_cadence_breaks_on_short_month :
  NoDup (map date three_months)
  /\ SimpleDCA.unique_months (SimpleDCA.mk three_months 1000 30)
     = [(2024, 1); (2024, 2); (2024, 3)]%Z
  /\ (t <- Timestamp 2024 1 30 ;;
      SimpleDCA.buy_date (map date (month_rows three_months 2024 1)) t)
     = Return (mkDate 2024 1 5)
  /\ Timestamp 2024 2 30 = Raise ValueError
  /\ SimpleDCA.buy_date (map date (month_rows three_months 2024 2)) (mkDate 2024 2 30)
     = Return (mkDate 2024 2 6)
  /\ SimpleDCA.run_dca (SimpleDCA.mk three_months 1000 30) = Raise ValueError.
Proof.
  split.
  { repeat (constructor; [simpl; intuition discriminate|]). constructor. }
  repeat split; reflexivity.
Qed.

(** The specification's end-to-end case, on [dca_three_months]: closes of
    100, 120 and 80 on the resolved dates, 3000 invested for
    10 + 25/3 + 25/2 units, a final value of 80 times the units and a
    return of -17.78 percent (-160/9). *)
Example dca_end_to_end :
  exists r,
    SimpleDCA.run_dca dca_three_months = Return (Some r)
    /\ map SimpleDCA.Purchase.date (SimpleDCA.Results.purchases r)
       = [mkDate 2024 1 5; mkDate 2024 2 6; mkDate 2024 3 4]
    /\ map SimpleDCA.Purchase.price (SimpleDCA.Results.purchases r) = [100; 120; 80]
    /\ SimpleDCA.Results.total_invested r == 3000
    /\ SimpleDCA.Results.total_coins r == 10 + 25 / 3 + 25 / 2
    /\ SimpleDCA.Results.avg_cost r == 3000 / (10 + 25 / 3 + 25 / 2)
    /\ SimpleDCA.Results.current_value r == 80 * (10 + 25 / 3 + 25 / 2)
    /\ SimpleDCA.Results.return_pct r == - (160 / 9).
Proof.
  eexists. split; [vm_compute; reflexivity|]. repeat split; reflexivity.
Qed.

(* ===================================================================== *)
(** * Counters of the dip engine *)
(* ===================================================================== *)

(** The dip-day counter is the number of rows whose intrabar return is at
    most the threshold. *)
Lemma dip_days_count (self : BuyTheDip.t) (rows : DataFrame) :
  BuyTheDip.Vars.dip_days (fold_left (BuyTheDip.step self) rows BuyTheDip.init)
  = length (filter (fun row => Qle_bool (BuyTheDip.daily_return row)
                                 (BuyTheDip.dip_threshold self)) rows).
Proof.
  induction rows as [|row rows IH] using rev_ind; [reflexivity|].
  rewrite dip_simulate_snoc, filter_app, length_app; simpl filter.
  set (v := fold_left (BuyTheDip.step self) rows BuyTheDip.init) in *.
  destruct (Qle_bool (BuyTheDip.daily_return row) (BuyTheDip.dip_threshold self)) eqn:E.
  - apply Qle_bool_true in E.
    destruct (Qlt_le_dec (BuyTheDip.Vars.accumulated_cash v
                          + BuyTheDip.monthly_savings self / 30) 100) as [Hlow|Hok].
    + rewrite (dip_step_missed self v row E Hlow). simpl. lia.
    + rewrite (dip_step_buy self v row E Hok). simpl. lia.
  - apply Qle_bool_false in E. rewrite (dip_step_no_dip self v row E). simpl. lia.
Qed.

(** C10. After the loop of [run_strategy] the number of dip days is the
    number of purchases plus the number of missed opportunities, so there
    are at most as many purchases as dip days; the counters reported in a
    result satisfy the same identity. *)
Theorem dip_counter_identity (self : BuyTheDip.t) :
  let v := BuyTheDip.simulate self in
  BuyTheDip.Vars.dip_days v
  = (length (BuyTheDip.Vars.purchases v) + BuyTheDip.Vars.missed_opportunities v)%nat
  /\ (length (BuyTheDip.Vars.purchases v) <= BuyTheDip.Vars.dip_days v)%nat
  /\ BuyTheDip.Vars.dip_days v
     = length (filter (fun row => Qle_bool (BuyTheDip.daily_return row)
                                    (BuyTheDip.dip_threshold self)) (BuyTheDip.df self))
  /\ forall r,
      BuyTheDip.run_strategy self = Return (Some r) ->
      BuyTheDip.Results.dip_days r
      = (BuyTheDip.Results.num_purchases r + BuyTheDip.Results.missed_opportunities r)%nat
      /\ (BuyTheDip.Results.num_purchases r <= BuyTheDip.Results.dip_days r)%nat.
Proof.
  intro v. destruct (dip_books_simulate self) as (_ & _ & Hd & _). fold v in Hd.
  split; [exact Hd|]. split; [lia|]. split; [apply dip_days_count|].
  intros r Hrun. destruct (dip_run_inv self r Hrun)
    as (cp & _ & _ & _ & _ & _ & _ & _ & Hn & Hdd & Hm & _).
  fold v in Hn, Hdd, Hm. rewrite Hn, Hdd, Hm. lia.
Qed.

(** The specification's missed-opportunity case, on [two_dips]: the first
    dip spends the 150 saved at the close of 90 and resets the cash, the
    second dip finds 50 and is missed. *)
Example two_dips_second_is_missed :
  let v := BuyTheDip.simulate (BuyTheDip.mk two_dips 1500 (-5)) in
  BuyTheDip.Vars.dip_days v = 2%nat
  /\ BuyTheDip.Vars.missed_opportunities v = 1%nat
  /\ map BuyTheDip.Purchase.date (BuyTheDip.Vars.purchases v) = [mkDate 2024 1 5]
  /\ BuyTheDip.Vars.total_invested v == 150
  /\ BuyTheDip.Vars.total_coins v == 150 / 90
  /\ BuyTheDip.Vars.accumulated_cash v == 50.
Proof. vm_compute. repeat split; reflexivity. Qed.

(* ===================================================================== *)
(** * Conservation of money and units *)
(* ===================================================================== *)

(** C1. For every run of either engine that returns a result (a completed
    run with at least one purchase): the sum of the purchases'
    [investment] is the reported [total_invested], the sum of their
    [coins_bought] is the reported [total_coins], and the totals recorded
    with each purchase are the sums up to that purchase, the recorded
    average being their quotient.  For the dip engine the closes are taken
    positive, as the data model has them. *)
Theorem conservation_of_money_and_units :
  (forall (self : SimpleDCA.t) (r : SimpleDCA.Results.t),
      SimpleDCA.run_dca self = Return (Some r) ->
      SimpleDCA.Results.purchases r <> []
      /\ sum (map SimpleDCA.Purchase.investment (SimpleDCA.Results.purchases r))
         = SimpleDCA.Results.total_invested r
      /\ sum (map SimpleDCA.Purchase.coins_bought (SimpleDCA.Results.purchases r))
         = SimpleDCA.Results.total_coins r
      /\ exact_books SimpleDCA.Purchase.investment SimpleDCA.Purchase.coins_bought
           SimpleDCA.Purchase.total_invested SimpleDCA.Purchase.total_coins
           SimpleDCA.Purchase.avg_price (SimpleDCA.Results.purchases r))
  /\ (forall (self : BuyTheDip.t) (r : BuyTheDip.Results.t),
         BuyTheDip.run_strategy self = Return (Some r) ->
         positive_closes (BuyTheDip.df self) ->
         BuyTheDip.Results.purchases r <> []
         /\ sum (map BuyTheDip.Purchase.investment (BuyTheDip.Results.purchases r))
            = BuyTheDip.Results.total_invested r
         /\ sum (map BuyTheDip.Purchase.coins_bought (BuyTheDip.Results.purchases r))
            = BuyTheDip.Results.total_coins r
         /\ exact_books BuyTheDip.Purchase.investment BuyTheDip.Purchase.coins_bought
              BuyTheDip.Purchase.total_invested BuyTheDip.Purchase.total_coins
              BuyTheDip.Purchase.avg_price (BuyTheDip.Results.purchases r)).
Proof.
  split.
  - intros self r Hrun.
    destruct (dca_run_inv self r Hrun) as (v & cp & Hne & Hv & _ & Hlog & Hti & Htc & _).
    destruct (dca_books_simulate self v Hv) as (Hkeys & Hi & Hc & _ & Hb & _).
    rewrite Hlog, Hti, Htc.
    split; [|split; [symmetry; exact Hi | split; [symmetry; exact Hc | exact Hb]]].
    intro E. rewrite E in Hkeys. simpl in Hkeys.
    apply (unique_months_nonempty self Hne). congruence.
  - intros self r Hrun Hpos.
    destruct (dip_run_inv self r Hrun) as (cp & _ & Hp & _ & Hlog & Hti & Htc & _).
    destruct (dip_books_simulate self) as (Hi & Hc & _ & Hb).
    destruct (dip_positive_simulate self Hpos) as (_ & Hgt).
    rewrite Hlog, Hti, Htc.
    split; [exact Hp | split; [symmetry; exact Hi | split; [symmetry; exact Hc |]]].
    intros k p H. destruct (Hb k p H) as (H1 & H2 & Havg).
    split; [exact H1 | split; [exact H2 |]]. rewrite Havg.
    assert (Hin : In p (BuyTheDip.Vars.purchases (BuyTheDip.simulate self)))
      by (apply nth_error_In with k; exact H).
    apply Hgt in Hin. apply Qlt_bool_true in Hin. rewrite Hin. reflexivity.
Qed.

(** The theorem at [dca_three_months] and [dip_three_months]. *)
Lemma conservation_of_money_and_units_witness :
  (exists r,
      SimpleDCA.run_dca dca_three_months = Return (Some r)
      /\ sum (map SimpleDCA.Purchase.investment (SimpleDCA.Results.purchases r))
         = SimpleDCA.Results.total_invested r)
  /\ (exists r,
         BuyTheDip.run_strategy dip_three_months = Return (Some r)
         /\ sum (map BuyTheDip.Purchase.coins_bought (BuyTheDip.Results.purchases r))
            = BuyTheDip.Results.total_coins r).
Proof.
  split.
  - destruct (SimpleDCA.run_dca dca_three_months) as [[r|]|e] eqn:E;
      try (vm_compute in E; discriminate).
    exists r. split; [reflexivity|].
    apply (proj1 conservation_of_money_and_units dca_three_months r E).
  - destruct (BuyTheDip.run_strategy dip_three_months) as [[r|]|e] eqn:E;
      try (vm_compute in E; discriminate).
    exists r. split; [reflexivity|].
    apply (proj2 conservation_of_money_and_units dip_three_months r E).
    repeat constructor.
Defined.

(* ===================================================================== *)
(** * The scheduler on a target day the month does not have *)
(* ===================================================================== *)

(** Whenever some month of the frame lacks the target day, the run raises:
    the months before it are bought, and building the target timestamp of
    that month raises. *)
Lemma dca_raises_when_target_day_missing (self : SimpleDCA.t) :
  Exists (fun row => valid_ymd (year (date row)) (month (date row))
                       (SimpleDCA.day_of_month self) = false) (SimpleDCA.df self) ->
  SimpleDCA.run_dca self = Raise ValueError.
Proof.
  intro Hex. apply Exists_exists in Hex. destruct Hex as [row [Hrow Hbad]].
  unfold SimpleDCA.run_dca.
  destruct (SimpleDCA.df self) as [|r0 rs] eqn:Edf; [destruct Hrow|].
  cbn [print_period bind]. rewrite <- Edf in *.
  assert (Hloop : SimpleDCA.simulate self = Raise ValueError).
  { unfold SimpleDCA.simulate. apply for_each_raises.
    - intros v k Hk.
      destruct (valid_ymd (fst k) (snd k) (SimpleDCA.day_of_month self)) eqn:Ev.
      + left. apply dca_step_total; [apply month_rows_nonempty; exact Hk | exact Ev].
      + right. unfold SimpleDCA.step.
        destruct (month_rows (SimpleDCA.df self) (fst k) (snd k)) eqn:Er;
          [exfalso; apply (month_rows_nonempty _ _ Hk); exact Er|].
        cbn [length Nat.eqb]. unfold Timestamp. rewrite Ev. reflexivity.
    - exists (year (date row), month (date row)). split.
      + apply group_keys_In. exists row. auto.
      + intro v. unfold SimpleDCA.step. cbn [fst snd].
        destruct (month_rows (SimpleDCA.df self) (year (date row)) (month (date row))) eqn:Er.
        * exfalso. assert (Hin : In row (month_rows (SimpleDCA.df self) (year (date row))
                                          (month (date row))))
            by (apply month_rows_In; auto).
          rewrite Er in Hin. exact Hin.
        * cbn [length Nat.eqb]. unfold Timestamp. rewrite Hbad. reflexivity. }
  rewrite Hloop. reflexivity.
Qed.

(** C3, at the failing inputs.  With target day 31, [run_dca] raises on a
    frame holding February (dates ending on the 28th) and on a frame
    holding April: the target timestamp is built before any date is
    resolved, and building it raises.  The resolution itself, were it
    reached with the target (year, month, 31), would give the last
    available date of the month. *)
Theorem scheduler_raises_on_missing_target_day :
  SimpleDCA.run_dca (SimpleDCA.mk february 10000 31) = Raise ValueError
  /\ SimpleDCA.run_dca (SimpleDCA.mk april 10000 31) = Raise ValueError
  /\ SimpleDCA.buy_date (map date february) (mkDate 2023 2 31) = Return (mkDate 2023 2 28)
  /\ SimpleDCA.buy_date (map date april) (mkDate 2023 4 31) = Return (mkDate 2023 4 28).
Proof. repeat split; reflexivity. Qed.

(* ===================================================================== *)
(** * The denominator of the reported return *)
(* ===================================================================== *)

(** C5 fails for the scheduled engine.  On [gapped] with 1000 a month it
    buys twice, in January and in March: 2000 spent for a final value of
    1800, and the reported [return_pct] is the return against the 2000
    spent (-10 percent).  It is neither the return against what should
    have been saved over the four bars, nor against the stipend of the
    three calendar months from January to March. *)
Lemma dca_return_not_against_savings :
  exists r,
    SimpleDCA.run_dca (SimpleDCA.mk gapped 1000 5) = Return (Some r)
    /\ SimpleDCA.Results.total_invested r == 2000
    /\ SimpleDCA.Results.current_value r == 1800
    /\ SimpleDCA.Results.return_pct r == -10
    /\ should_have_saved gapped 1000 == 400 / 3
    /\ saved_over_months gapped 1000 == 3000
    /\ ~ SimpleDCA.Results.return_pct r
         == return_pct_against (SimpleDCA.Results.current_value r)
              (should_have_saved gapped 1000)
    /\ ~ SimpleDCA.Results.return_pct r
         == return_pct_against (SimpleDCA.Results.current_value r)
              (saved_over_months gapped 1000).
Proof.
  destruct (SimpleDCA.run_dca (SimpleDCA.mk gapped 1000 5)) as [[r|]|e] eqn:E;
    try (vm_compute in E; discriminate).
  exists r. split; [reflexivity|].
  vm_compute in E. injection E as <-.
  repeat split; try reflexivity; vm_compute; discriminate.
Qed.

(** C5, amended.  The dip engine reports its return against what should
    have been saved, [total_should_save = total_days * (monthly_savings /
    30)], which is positive whenever a result is returned; the final value
    is the holdings at the last close plus the cash left over.  The
    scheduled engine reports its return against [total_invested], the cash
    spent on its purchases, and the final value is the holdings at the
    last close; its [return_pct] is 0 when [total_invested] is not
    positive. *)
Theorem return_denominators :
  (forall (self : BuyTheDip.t) (r : BuyTheDip.Results.t),
      BuyTheDip.run_strategy self = Return (Some r) ->
      let final_value := BuyTheDip.Results.current_value_with_cash r in
      let base := should_have_saved (BuyTheDip.df self) (BuyTheDip.monthly_savings self) in
      BuyTheDip.Results.total_should_save r = base
      /\ 0 < base
      /\ iloc_last (map close (BuyTheDip.df self))
         = Return (BuyTheDip.Results.current_price r)
      /\ final_value
         = BuyTheDip.Results.total_coins r * BuyTheDip.Results.current_price r
           + BuyTheDip.Results.accumulated_cash r
      /\ BuyTheDip.Results.total_return r = final_value - base
      /\ BuyTheDip.Results.return_pct r = return_pct_against final_value base)
  /\ (forall (self : SimpleDCA.t) (r : SimpleDCA.Results.t),
         SimpleDCA.run_dca self = Return (Some r) ->
         let final_value := SimpleDCA.Results.current_value r in
         let base := SimpleDCA.Results.total_invested r in
         iloc_last (map close (SimpleDCA.df self))
         = Return (SimpleDCA.Results.current_price r)
         /\ final_value
            = SimpleDCA.Results.total_coins r * SimpleDCA.Results.current_price r
         /\ base == inject_Z (Z.of_nat (SimpleDCA.Results.num_purchases r))
                    * SimpleDCA.monthly_investment self
         /\ SimpleDCA.Results.total_return r = final_value - base
         /\ SimpleDCA.Results.return_pct r
            = (if Qlt_bool 0 base then return_pct_against final_value base else 0)).
Proof.
  split.
  - intros self r Hrun.
    destruct (dip_run_inv self r Hrun)
      as (cp & Hne & Hp & Hcp & _ & Hti & Htc & Hcash & _ & _ & _ & _ & Hprice
          & Hsave & Hcv & Hcvc & Htr & Hret).
    assert (Hbase : 0 < Qlen (BuyTheDip.df self) * (BuyTheDip.monthly_savings self / 30)).
    { destruct (Qlt_le_dec 0 (BuyTheDip.monthly_savings self)) as [Hm|Hm].
      - apply Qmult_lt_0_compat.
        + unfold Qlen. destruct (BuyTheDip.df self); [congruence|].
          unfold Qlt; simpl. lia.
        + apply Qdiv_pos; [exact Hm | reflexivity].
      - destruct (dip_idle_simulate self Hm) as [_ Hnil]. congruence. }
    cbv zeta. unfold should_have_saved, return_pct_against.
    rewrite Hsave, Hcvc, Htr, Hret, Htc, Hcash.
    pose proof (proj2 (Qlt_bool_true _ _) Hbase) as Hguard. rewrite Hguard, Hprice.
    repeat split; try reflexivity; assumption.
  - intros self r Hrun.
    destruct (dca_run_inv self r Hrun)
      as (v & cp & _ & Hv & Hcp & _ & Hti & Htc & Hnum & Hprice & Hcv & Htr & Hret).
    destruct (dca_books_simulate self v Hv) as (_ & _ & _ & Hn & _).
    cbv zeta. unfold return_pct_against.
    rewrite Hcv, Htr, Hret, Hti, Htc, Hprice, Hnum.
    repeat split; try reflexivity; assumption.
Qed.

(** The theorem at [dip_three_months] and [dca_three_months]. *)
Lemma return_denominators_witness :
  (exists r,
      BuyTheDip.run_strategy dip_three_months = Return (Some r)
      /\ BuyTheDip.Results.total_should_save r = should_have_saved three_months 10000)
  /\ (exists r,
         SimpleDCA.run_dca dca_three_months = Return (Some r)
         /\ SimpleDCA.Results.total_return r
            = SimpleDCA.Results.current_value r - SimpleDCA.Results.total_invested r).
Proof.
  split.
  - destruct (BuyTheDip.run_strategy dip_three_months) as [[r|]|e] eqn:E;
      try (vm_compute in E; discriminate).
    exists r. split; [reflexivity|].
    apply (proj1 return_denominators dip_three_months r E).
  - destruct (SimpleDCA.run_dca dca_three_months) as [[r|]|e] eqn:E;
      try (vm_compute in E; discriminate).
    exists r. split; [reflexivity|].
    apply (proj2 return_denominators dca_three_months r E).
Defined.

(* ===================================================================== *)
(** * Runs without purchases *)
(* ===================================================================== *)

(** When no row's intrabar return reaches the threshold, the loop of the
    dip engine buys nothing. *)
Lemma dip_no_breach_no_purchase (self : BuyTheDip.t) :
  Forall (fun row => BuyTheDip.dip_threshold self < BuyTheDip.daily_return row)
    (BuyTheDip.df self) ->
  BuyTheDip.Vars.purchases (BuyTheDip.simulate self) = [].
Proof.
  intro Hq.
  destruct (dip_books_simulate self) as (_ & _ & Hd & _).
  unfold BuyTheDip.simulate in *. rewrite dip_days_count in Hd.
  rewrite filter_none in Hd.
  2:{ apply Forall_impl with (2 := Hq). intros row Hrow. apply Qle_bool_false. exact Hrow. }
  simpl in Hd.
  destruct (BuyTheDip.Vars.purchases _); [reflexivity | simpl in Hd; lia].
Qed.

(** The scheduled engine buys in every month it visits, so on a frame with
    rows its loop never ends with an empty log. *)
Lemma dca_buys_when_rows (self : SimpleDCA.t) (v : SimpleDCA.Vars.t) :
  SimpleDCA.df self <> [] ->
  SimpleDCA.simulate self = Return v ->
  SimpleDCA.Vars.purchases v <> [].
Proof.
  intros Hne Hv E.
  destruct (dca_books_simulate self v Hv) as (Hkeys & _).
  rewrite E in Hkeys. simpl in Hkeys.
  apply (unique_months_nonempty self Hne). congruence.
Qed.

(** A frame without rows is not a run without purchases but a run that
    does not start: both run operations raise when they format the period
    of the empty index, before their loops. *)
Lemma run_raises_without_rows :
  (forall self : BuyTheDip.t,
      BuyTheDip.df self = [] -> BuyTheDip.run_strategy self = Raise ValueError)
  /\ (forall self : SimpleDCA.t,
         SimpleDCA.df self = [] -> SimpleDCA.run_dca self = Raise ValueError).
Proof.
  split.
  - intros self E. unfold BuyTheDip.run_strategy. rewrite E. reflexivity.
  - intros self E. unfold SimpleDCA.run_dca. rewrite E. reflexivity.
Qed.

Example no_rows_run_raises :
  BuyTheDip.run_strategy (BuyTheDip.mk no_rows 10000 (-5)) = Raise ValueError
  /\ SimpleDCA.run_dca (SimpleDCA.mk no_rows 10000 5) = Raise ValueError.
Proof. split; reflexivity. Qed.

(** C6.  On every frame with rows on which the loop of the dip engine
    makes no purchase, as when no row's intrabar return reaches the
    threshold, [run_strategy] returns [None]: it does not raise, and the
    divisions of the result are not reached.  With positive closes it
    raises on no frame with rows, whatever it buys.  The scheduled engine
    buys in every month it visits, so on a frame with rows it has no run
    without purchases, and [run_dca] returns [None] on no such frame. *)
Theorem empty_result_on_frames_with_rows :
  (forall self : BuyTheDip.t,
      BuyTheDip.df self <> [] ->
      BuyTheDip.Vars.purchases (BuyTheDip.simulate self) = [] ->
      BuyTheDip.run_strategy self = Return None)
  /\ (forall self : BuyTheDip.t,
         BuyTheDip.df self <> [] ->
         Forall (fun row => BuyTheDip.dip_threshold self < BuyTheDip.daily_return row)
           (BuyTheDip.df self) ->
         BuyTheDip.Vars.purchases (BuyTheDip.simulate self) = []
         /\ BuyTheDip.run_strategy self = Return None)
  /\ (forall self : BuyTheDip.t,
         BuyTheDip.df self <> [] ->
         positive_closes (BuyTheDip.df self) ->
         exists result, BuyTheDip.run_strategy self = Return result)
  /\ (forall (self : SimpleDCA.t) (v : SimpleDCA.Vars.t),
         SimpleDCA.df self <> [] ->
         SimpleDCA.simulate self = Return v ->
         SimpleDCA.Vars.purchases v <> [])
  /\ (forall self : SimpleDCA.t,
         SimpleDCA.df self <> [] ->
         SimpleDCA.run_dca self <> Return None).
Proof.
  split; [|split; [|split; [|split]]].
  - intros self Hne Hp. apply dip_run_none; assumption.
  - intros self Hne Hq.
    pose proof (dip_no_breach_no_purchase self Hq) as Hp.
    split; [exact Hp | apply dip_run_none; assumption].
  - intros self Hne _.
    destruct (BuyTheDip.Vars.purchases (BuyTheDip.simulate self)) as [|p ps] eqn:Ep.
    + exists None. apply dip_run_none; assumption.
    + destruct (dip_run_total self Hne) as [r Hr]; [rewrite Ep; discriminate|].
      exists (Some r). exact Hr.
  - intros self v Hne Hv. apply (dca_buys_when_rows self v); assumption.
  - intros self Hne Hrun. unfold SimpleDCA.run_dca in Hrun.
    destruct (SimpleDCA.df self) as [|r0 rs] eqn:Edf; [congruence|].
    cbn [print_period bind] in Hrun.
    destruct (SimpleDCA.simulate self) as [v|e] eqn:Ev; [|discriminate].
    cbn [bind] in Hrun.
    assert (Hp : SimpleDCA.Vars.purchases v <> []).
    { apply (dca_buys_when_rows self v); [rewrite Edf; discriminate | exact Ev]. }
    destruct (SimpleDCA.Vars.purchases v) as [|p0 ps] eqn:Ep; [congruence|].
    cbn [length Nat.ltb Nat.leb] in Hrun.
    destruct (iloc_last (map close (r0 :: rs))); [|discriminate]. cbn [bind] in Hrun.
    cbn [iloc_first bind] in Hrun.
    destruct (iloc_last (p0 :: ps)); discriminate.
Qed.

(** The theorem at the quiet frame with the threshold of -5 percent. *)
Lemma empty_result_on_frames_with_rows_witness :
  BuyTheDip.Vars.purchases (BuyTheDip.simulate (BuyTheDip.mk quiet 10000 (-5))) = []
  /\ BuyTheDip.run_strategy (BuyTheDip.mk quiet 10000 (-5)) = Return None.
Proof.
  apply (proj1 (proj2 empty_result_on_frames_with_rows) (BuyTheDip.mk quiet 10000 (-5))).
  - discriminate.
  - repeat constructor.
Defined.

(* ===================================================================== *)
(** * The comparator's score tally *)
(* ===================================================================== *)

(** C7 fails: the tally is not a count of metrics won, whatever the value
    of one metric.  On [three_months] the scheduled engine wins all four
    metrics and scores 8 of 8; on [dip_on_last_day] it wins one metric
    (the units) and scores 3, the dip engine wins three and scores 5. *)
Lemma tally_is_not_a_count_of_metrics :
  exists m1 m2,
    compared_metrics three_months 10000 (-5) 5 = Return m1
    /\ compared_metrics dip_on_last_day 10000 (-5) 5 = Return m2
    /\ StrategyComparison.metrics_won m1 = (4, 0)%Z
    /\ StrategyComparison.tally m1
       = [(StrategyComparison.SIMPLE_DCA, 8%Z); (StrategyComparison.BUY_THE_DIP, 0%Z)]
    /\ StrategyComparison.metrics_won m2 = (1, 3)%Z
    /\ StrategyComparison.tally m2
       = [(StrategyComparison.SIMPLE_DCA, 3%Z); (StrategyComparison.BUY_THE_DIP, 5%Z)]
    /\ ~ exists k : Z,
          forall m : StrategyComparison.Metrics,
            StrategyComparison.tally m
            = [(StrategyComparison.SIMPLE_DCA,
                (k * fst (StrategyComparison.metrics_won m))%Z);
               (StrategyComparison.BUY_THE_DIP,
                (k * snd (StrategyComparison.metrics_won m))%Z)].
Proof.
  destruct (compared_metrics three_months 10000 (-5) 5) as [m1|e1] eqn:E1;
    [|vm_compute in E1; discriminate].
  destruct (compared_metrics dip_on_last_day 10000 (-5) 5) as [m2|e2] eqn:E2;
    [|vm_compute in E2; discriminate].
  exists m1, m2. split; [reflexivity|]. split; [reflexivity|].
  vm_compute in E1. injection E1 as E1. vm_compute in E2. injection E2 as E2.
  assert (W1 : StrategyComparison.metrics_won m1 = (4, 0)%Z)
    by (rewrite <- E1; vm_compute; reflexivity).
  assert (T1 : StrategyComparison.tally m1
               = [(StrategyComparison.SIMPLE_DCA, 8%Z); (StrategyComparison.BUY_THE_DIP, 0%Z)])
    by (rewrite <- E1; vm_compute; reflexivity).
  assert (W2 : StrategyComparison.metrics_won m2 = (1, 3)%Z)
    by (rewrite <- E2; vm_compute; reflexivity).
  assert (T2 : StrategyComparison.tally m2
               = [(StrategyComparison.SIMPLE_DCA, 3%Z); (StrategyComparison.BUY_THE_DIP, 5%Z)])
    by (rewrite <- E2; vm_compute; reflexivity).
  split; [exact W1|]. split; [exact T1|]. split; [exact W2|]. split; [exact T2|].
  intros [k H].
  pose proof (H m1) as H1. rewrite T1, W1 in H1.
  pose proof (H m2) as H2. rewrite T2, W2 in H2.
  cbn [fst snd] in H1, H2. injection H1 as H1 _. injection H2 as H2 _. lia.
Qed.

(** C7, amended.  The scores are a weighted tally: 3 points for the units
    acquired, 2 for the average cost, 2 for the return and 1 for the
    capital utilisation, each given to the scheduled engine when it wins
    the comparison strictly and to the dip engine otherwise, 8 points in
    all.  The declared winner is the scheduled engine when its score is at
    least the dip engine's (4 points or more), else the dip engine. *)
Theorem tally_is_weighted (m : StrategyComparison.Metrics) :
  let dca :=
    (points (Qlt_bool (StrategyComparison.dip_btc m) (StrategyComparison.dca_btc m)) 3
     + points (Qlt_bool (StrategyComparison.dca_avg m) (StrategyComparison.dip_avg m)) 2
     + points (Qlt_bool (StrategyComparison.dip_return m) (StrategyComparison.dca_return m)) 2
     + points (Qlt_bool (StrategyComparison.dip_util m) (StrategyComparison.dca_util m)) 1)%Z in
  StrategyComparison.tally m
  = [(StrategyComparison.SIMPLE_DCA, dca); (StrategyComparison.BUY_THE_DIP, (8 - dca)%Z)]
  /\ StrategyComparison.winner m
     = Return (if (8 - dca <=? dca)%Z
               then StrategyComparison.SIMPLE_DCA else StrategyComparison.BUY_THE_DIP)
  /\ (8 - dca <=? dca)%Z = (4 <=? dca)%Z.
Proof.
  unfold StrategyComparison.winner, StrategyComparison.tally.
  destruct (Qlt_bool (StrategyComparison.dip_btc m) (StrategyComparison.dca_btc m));
    destruct (Qlt_bool (StrategyComparison.dca_avg m) (StrategyComparison.dip_avg m));
    destruct (Qlt_bool (StrategyComparison.dip_return m) (StrategyComparison.dca_return m));
    destruct (Qlt_bool (StrategyComparison.dip_util m) (StrategyComparison.dca_util m));
    repeat split; reflexivity.
Qed.

Example comparison_three_months :
  (r <- StrategyComparison.run_all_strategies three_months 10000 (-5) 5 ;;
   StrategyComparison.print_comparison r)
  = Return ([(StrategyComparison.SIMPLE_DCA, 8%Z); (StrategyComparison.BUY_THE_DIP, 0%Z)],
            StrategyComparison.SIMPLE_DCA).
Proof. vm_compute. reflexivity. Qed.

Example comparison_dip_on_last_day :
  (r <- StrategyComparison.run_all_strategies dip_on_last_day 10000 (-5) 5 ;;
   StrategyComparison.print_comparison r)
  = Return ([(StrategyComparison.SIMPLE_DCA, 3%Z); (StrategyComparison.BUY_THE_DIP, 5%Z)],
            StrategyComparison.BUY_THE_DIP).
Proof. vm_compute. reflexivity. Qed.

(* ===================================================================== *)
(** * The per-month loop of [analyze_drops] *)
(* ===================================================================== *)

Lemma iloc_last_map {A B : Type} (f : A -> B) (xs : list A) (x : A) :
  iloc_last xs = Return x -> iloc_last (map f xs) = Return (f x).
Proof.
  induction xs as [|y ys IH]; simpl; [discriminate|].
  destruct ys as [|z zs]; [intro H; injection H as ->; reflexivity|].
  intro H. simpl in IH. apply IH. exact H.
Qed.




(* ===================================================================== *)
(** * The daily returns of a subrange *)
(* ===================================================================== *)

Section AugustReturns.

Import AnalyzeAugust.

Lemma zip_with_nth {A B C : Type} (f : A -> B -> C) (xs : list A) (ys : list B) :
  forall i x y,
    nth_error xs i = Some x -> nth_error ys i = Some y ->
    nth_error (zip_with f xs ys) i = Some (f x y).
Proof.
  revert ys. induction xs as [|a xs IH]; intros ys i x y Hx Hy.
  - destruct i; discriminate.
  - destruct ys as [|b ys]; [destruct i; discriminate|].
    destruct i as [|i]; simpl in *.
    + injection Hx as ->. injection Hy as ->. reflexivity.
    + apply IH; assumption.
Qed.

Lemma zip_with_bars (frame : DataFrame) (vs : list (option Q)) :
  length vs = length frame ->
  map bar (zip_with mkRow frame vs) = frame.
Proof.
  revert vs. induction frame as [|b bs IH]; intros vs Hlen; [reflexivity|].
  destruct vs as [|v vs]; [discriminate|]. simpl. f_equal. apply IH.
  simpl in Hlen. lia.
Qed.

Lemma pct_change_from_length (prev : Q) (xs : list Q) :
  length (pct_change_from prev xs) = length xs.
Proof.
  revert prev. induction xs as [|x xs IH]; intro prev; simpl; [reflexivity|].
  rewrite IH. reflexivity.
Qed.

Lemma pct_change_100_length (xs : list Q) : length (pct_change_100 xs) = length xs.
Proof.
  unfold pct_change_100. rewrite length_map. destruct xs as [|x xs]; simpl; [reflexivity|].
  rewrite pct_change_from_length. reflexivity.
Qed.

Lemma pct_change_from_nth (xs : list Q) :
  forall prev i p x,
    nth_error (prev :: xs) i = Some p -> nth_error xs i = Some x ->
    nth_error (pct_change_from prev xs) i = Some (Some (x / p - 1)).
Proof.
  induction xs as [|a xs IH]; intros prev i p x Hp Hx.
  - destruct i; discriminate.
  - destruct i as [|i]; simpl in *.
    + injection Hp as ->. injection Hx as ->. reflexivity.
    + apply IH; assumption.
Qed.

(** The column computed on a frame: missing on the first row, and on every
    other row the change from the close of the row before it. *)
Lemma pct_change_100_first (x : Q) (xs : list Q) :
  nth_error (pct_change_100 (x :: xs)) 0 = Some None.
Proof. reflexivity. Qed.

Lemma pct_change_100_next (xs : list Q) (i : nat) (p x : Q) :
  nth_error xs i = Some p -> nth_error xs (S i) = Some x ->
  nth_error (pct_change_100 xs) (S i) = Some (Some ((x / p - 1) * 100)).
Proof.
  intros Hp Hx. unfold pct_change_100. destruct xs as [|a xs]; [discriminate|].
  simpl in Hx. cbn [pct_change map nth_error].
  rewrite nth_error_map, (pct_change_from_nth xs a i p x Hp Hx). reflexivity.
Qed.

Lemma loc_return_unique (rows : list Row) (r : Row) :
  NoDup (map (fun r => date (bar r)) rows) -> In r rows ->
  loc_return rows (date (bar r)) = Return (daily_return r).
Proof.
  induction rows as [|r0 rest IH]; intros Hnd Hin; [destruct Hin|].
  simpl in Hnd. inversion Hnd as [|? ? Hnotin Hnd']; subst. simpl.
  destruct (date_eqb (date (bar r0)) (date (bar r))) eqn:E.
  - destruct Hin as [->|Hin]; [reflexivity|].
    apply date_eqb_eq in E. exfalso. apply Hnotin. rewrite E.
    apply in_map_iff. exists r. auto.
  - destruct Hin as [->|Hin].
    + assert (date_eqb (date (bar r)) (date (bar r)) = true) by (apply date_eqb_eq; reflexivity).
      congruence.
    + apply IH; assumption.
Qed.

Lemma assign_from_spec (df : list Row) (sub : list Row) :
  Forall (fun r => In (date (bar r)) (map (fun r => date (bar r)) df)) sub ->
  exists out,
    assign_from df sub = Return out
    /\ map bar out = map bar sub
    /\ Forall (fun r => loc_return df (date (bar r)) = Return (daily_return r)) out.
Proof.
  induction 1 as [|r sub Hr _ [out (Hout & Hbars & Hvals)]]; simpl.
  - exists []. repeat split; constructor.
  - assert (Hv : exists v, loc_return df (date (bar r)) = Return v).
    { clear - Hr. induction df as [|r0 rest IH]; [destruct Hr|]. simpl in *.
      destruct (date_eqb (date (bar r0)) (date (bar r))) eqn:E; [eexists; reflexivity|].
      destruct Hr as [Hr|Hr]; [|apply IH; exact Hr].
      apply date_eqb_eq in Hr. congruence. }
    destruct Hv as [v Hv]. rewrite Hv, Hout. cbn [bind].
    exists (mkRow (bar r) v :: out). split; [reflexivity|].
    split; [simpl; congruence|]. constructor; [exact Hv | exact Hvals].
Qed.

End AugustReturns.

(** C9. In [analyze_august], on a frame with unique dates and positive
    closes, the [daily_return] column of the August rows never raises to
    build and holds, for the row of every August bar, the value computed
    on the whole frame: for a bar at position [i + 1] of the frame the
    change [(close - previous close) / previous close * 100] from the bar
    at position [i] of the frame, whether or not that bar lies in August;
    it is missing only for a bar that is the first of the whole frame. *)
Theorem august_returns_follow_the_full_frame (df : DataFrame) :
  NoDup (map date df) ->
  positive_closes df ->
  exists rows,
    AnalyzeAugust.august_data df = Return rows
    /\ map AnalyzeAugust.bar rows = AnalyzeAugust.august_rows df
    /\ Forall (fun row =>
                 forall i,
                   nth_error df i = Some (AnalyzeAugust.bar row) ->
                   match i with
                   | O => AnalyzeAugust.daily_return row = None
                   | S i' =>
                       exists prev r,
                         nth_error df i' = Some prev
                         /\ AnalyzeAugust.daily_return row = Some r
                         /\ r == (close (AnalyzeAugust.bar row) - close prev) / close prev * 100
                   end) rows.
Proof.
  intros Hnd Hpos. unfold AnalyzeAugust.august_data.
  set (df' := AnalyzeAugust.with_own_returns df).
  set (sub := AnalyzeAugust.with_own_returns (AnalyzeAugust.august_rows df)).
  assert (Hbars : map AnalyzeAugust.bar df' = df).
  { apply zip_with_bars. rewrite pct_change_100_length, length_map. reflexivity. }
  assert (Hsub : map AnalyzeAugust.bar sub = AnalyzeAugust.august_rows df).
  { apply zip_with_bars. rewrite pct_change_100_length, length_map. reflexivity. }
  assert (Hlabels : map (fun r => date (AnalyzeAugust.bar r)) df' = map date df).
  { transitivity (map date (map AnalyzeAugust.bar df'));
      [symmetry; apply map_map | rewrite Hbars; reflexivity]. }
  destruct (assign_from_spec df' sub) as (rows & Hrows & Hrb & Hvals).
  { rewrite Forall_forall. intros r Hr. rewrite Hlabels. apply in_map.
    assert (Hin : In (AnalyzeAugust.bar r) (AnalyzeAugust.august_rows df)).
    { rewrite <- Hsub. apply in_map. exact Hr. }
    unfold AnalyzeAugust.august_rows in Hin. apply filter_In in Hin. tauto. }
  exists rows. split; [exact Hrows|]. split; [congruence|].
  apply Forall_impl with (2 := Hvals). intros row Hloc i Hi.
  assert (Hlen : length (AnalyzeAugust.pct_change_100 (map close df)) = length df).
  { rewrite pct_change_100_length, length_map. reflexivity. }
  destruct (nth_error (AnalyzeAugust.pct_change_100 (map close df)) i) as [v|] eqn:Ev.
  2:{ apply nth_error_None in Ev.
      assert (i < length df)%nat by (apply nth_error_Some; congruence). lia. }
  assert (Hrow' : In (AnalyzeAugust.mkRow (AnalyzeAugust.bar row) v) df').
  { apply nth_error_In with i. apply zip_with_nth; assumption. }
  pose proof (loc_return_unique df' _ (eq_ind_r (fun l => NoDup l) Hnd Hlabels) Hrow') as Hv.
  cbn [AnalyzeAugust.bar AnalyzeAugust.daily_return] in Hv.
  rewrite Hloc in Hv. injection Hv as Hv.
  destruct i as [|i'].
  - destruct df as [|b0 bs]; [discriminate|]. simpl in Ev. injection Ev as <-. exact Hv.
  - destruct (nth_error df i') as [prev|] eqn:Eprev.
    2:{ apply nth_error_None in Eprev.
        assert (S i' < length df)%nat by (apply nth_error_Some; congruence). lia. }
    exists prev, ((close (AnalyzeAugust.bar row) / close prev - 1) * 100).
    split; [reflexivity|].
    assert (E : nth_error (AnalyzeAugust.pct_change_100 (map close df)) (S i')
                = Some (Some ((close (AnalyzeAugust.bar row) / close prev - 1) * 100))).
    { apply pct_change_100_next; rewrite nth_error_map.
      - rewrite Eprev. reflexivity.
      - rewrite Hi. reflexivity. }
    rewrite E in Ev. injection Ev as <-. split; [exact Hv|].
    assert (Hp : 0 < close prev).
    { unfold positive_closes in Hpos. rewrite Forall_forall in Hpos.
      apply Hpos. apply nth_error_In with i'. exact Eprev. }
    field. intro Hz. rewrite Hz in Hp. apply (Qlt_irrefl 0). exact Hp.
Qed.

(** The theorem at [two_augusts]. *)
Lemma august_returns_follow_the_full_frame_witness :
  exists rows,
    AnalyzeAugust.august_data two_augusts = Return rows
    /\ map AnalyzeAugust.bar rows = AnalyzeAugust.august_rows two_augusts.
Proof.
  destruct (august_returns_follow_the_full_frame two_augusts) as (rows & Hrun & Hbars & _).
  - repeat (constructor; [simpl; intuition congruence|]). constructor.
  - repeat constructor.
  - exists rows. split; assumption.
Defined.

(** On [two_augusts] the first bar of August 2024 (close 121) is given
    the change from July 31, 2024 (close 242), which is -50 percent; the
    change from the previous August bar (close 121) would be 0. *)
Example two_augusts_returns :
  exists r1 r2 r3,
    AnalyzeAugust.august_data two_augusts
    = Return [ AnalyzeAugust.mkRow (bar 2023 8 1 100 110 100 110) (Some r1);
               AnalyzeAugust.mkRow (bar 2023 8 31 110 121 110 121) (Some r2);
               AnalyzeAugust.mkRow (bar 2024 8 1 242 242 121 121) (Some r3) ]
    /\ r1 == 10 /\ r2 == 10 /\ r3 == -50.
Proof.
  do 3 eexists. split; [vm_compute; reflexivity|]. repeat split; reflexivity.
Qed.

(* ===================================================================== *)
(** * Month-end closes and their returns *)
(* ===================================================================== *)

Section Seasonality.

Import MonthlyPatterns.

Lemma ord_of_ord (o : Z) : ord (of_ord o) = o.
Proof.
  unfold ord, of_ord; cbn [fst snd]. pose proof (Z.div_mod o 12 ltac:(lia)). lia.
Qed.

Lemma of_ord_ord (k : Z * Z) : (1 <= snd k <= 12)%Z -> of_ord (ord k) = k.
Proof.
  destruct k as [y m]; unfold ord, of_ord; cbn [fst snd]. intro H.
  f_equal.
  - symmetry. apply (Z.div_unique (12 * y + (m - 1)) 12 y (m - 1)); lia.
  - assert ((12 * y + (m - 1)) mod 12 = m - 1)%Z; [|lia].
    symmetry. apply (Z.mod_unique (12 * y + (m - 1)) 12 y (m - 1)); lia.
Qed.






Lemma latest_from (rows : DataFrame) :
  forall best,
    exists b,
      fold_left (fun best row =>
                   match best with
                   | None => Some row
                   | Some b => if date_ltb (date row) (date b) then Some b else Some row
                   end) rows (Some best) = Some b
      /\ (b = best \/ In b rows).
Proof.
  induction rows as [|r rows IH]; intro best; simpl.
  - exists best. auto.
  - destruct (date_ltb (date r) (date best)).
    + destruct (IH best) as [b [Hb Hin]]. exists b. split; [exact Hb|].
      destruct Hin as [Hin|Hin]; [left | right; right]; exact Hin.
    + destruct (IH r) as [b [Hb Hin]]. exists b. split; [exact Hb|].
      destruct Hin as [->|Hin]; [right; left; reflexivity | right; right; exact Hin].
Qed.

(** A bin with rows has a month-end close, the close of one of its rows. *)
Lemma latest_some (rows : DataFrame) :
  rows <> [] -> exists b, latest rows = Some b /\ In b rows.
Proof.
  destruct rows as [|r rows]; [congruence|]. intros _. unfold latest. simpl.
  destruct (latest_from rows r) as [b [Hb Hin]]. exists b. split; [exact Hb|].
  destruct Hin as [->|Hin]; [left; reflexivity | right; exact Hin].
Qed.



Lemma monthly_returns_by_bin (pad : bool) (df : DataFrame) :
  monthly_returns pad df
  = combine (bins df)
      (map (option_map (fun r => r * 100))
         (pct_change pad
            (map (fun k => option_map close (latest (month_rows df (fst k) (snd k))))
               (bins df)))).
Proof.
  unfold monthly_returns, monthly_close. rewrite !map_map. cbn [fst snd].
  rewrite map_id. reflexivity.
Qed.



End Seasonality.

(* ===================================================================== *)
(** * Months with a single bar *)
(* ===================================================================== *)



(* ===================================================================== *)
(** * The dip engine: cash, purchases and the report *)
(* ===================================================================== *)

Section DipCash.

Import BuyTheDip.

Variable self : BuyTheDip.t.

(** Every unit of savings is either invested or still in cash. *)
Lemma dip_cash_conserved (rows : DataFrame) :
  let v := fold_left (step self) rows init in
  Vars.total_invested v + Vars.accumulated_cash v == Qlen rows * (monthly_savings self / 30).
Proof.
  induction rows as [|row rows IH] using rev_ind; [reflexivity|].
  rewrite dip_simulate_snoc. cbv zeta in IH.
  set (v := fold_left (step self) rows init) in *.
  pose proof (Qlen_snoc rows row) as Hlen.
  set (n := Qlen rows) in *. set (n' := Qlen (rows ++ [row])) in *.
  set (d := monthly_savings self / 30) in *.
  assert (Hgoal : n' * d == n * d + d) by (rewrite Hlen; ring).
  cbv zeta.
  destruct (Qlt_le_dec (dip_threshold self) (daily_return row)) as [Hn|Hdip].
  { rewrite (dip_step_no_dip self v row Hn). simpl. fold d. lra. }
  destruct (Qlt_le_dec (Vars.accumulated_cash v + monthly_savings self / 30) 100) as [Hlow|Hok].
  { rewrite (dip_step_missed self v row Hdip Hlow). simpl. fold d. lra. }
  rewrite (dip_step_buy self v row Hdip Hok). simpl. fold d. lra.
Qed.

(** The cash is never negative and every purchase spends at least 100,
    so the amount invested is at least 100 per purchase. *)
Lemma dip_floor (rows : DataFrame) :
  0 <= monthly_savings self ->
  let v := fold_left (step self) rows init in
  0 <= Vars.accumulated_cash v
  /\ Qlen (Vars.purchases v) * 100 <= Vars.total_invested v
  /\ Forall (fun p => 100 <= Purchase.investment p) (Vars.purchases v).
Proof.
  intro Hm.
  assert (Hd : 0 <= monthly_savings self / 30).
  { apply Qle_shift_div_l; [reflexivity|]. rewrite Qmult_0_l. exact Hm. }
  induction rows as [|row rows IH] using rev_ind.
  { cbv zeta. simpl. split; [apply Qle_refl|]. split; [discriminate | constructor]. }
  rewrite dip_simulate_snoc. cbv zeta in IH |- *.
  set (v := fold_left (step self) rows init) in *.
  destruct IH as (Hc & Hi & Hp).
  destruct (Qlt_le_dec (dip_threshold self) (daily_return row)) as [Hn|Hdip].
  { rewrite (dip_step_no_dip self v row Hn). simpl.
    split; [lra|]. split; assumption. }
  destruct (Qlt_le_dec (Vars.accumulated_cash v + monthly_savings self / 30) 100) as [Hlow|Hok].
  { rewrite (dip_step_missed self v row Hdip Hlow). simpl.
    split; [lra|]. split; assumption. }
  rewrite (dip_step_buy self v row Hdip Hok). simpl.
  split; [apply Qle_refl|]. split.
  - pose proof (Qlen_snoc (Vars.purchases v)
                  (Purchase.mk (date row) (close row) (daily_return row)
                     (Vars.accumulated_cash v + monthly_savings self / 30)
                     ((Vars.accumulated_cash v + monthly_savings self / 30) / close row)
                     (Vars.total_invested v
                      + (Vars.accumulated_cash v + monthly_savings self / 30))
                     (Vars.total_coins v
                      + (Vars.accumulated_cash v + monthly_savings self / 30) / close row)
                     (if Qlt_bool 0
                           (Vars.total_coins v
                            + (Vars.accumulated_cash v + monthly_savings self / 30) / close row)
                      then (Vars.total_invested v
                            + (Vars.accumulated_cash v + monthly_savings self / 30))
                           / (Vars.total_coins v
                              + (Vars.accumulated_cash v + monthly_savings self / 30)
                                / close row)
                      else 0))) as Hlen.
    rewrite Hlen. lra.
  - apply Forall_app. split; [exact Hp|]. constructor; [exact Hok | constructor].
Qed.

(** The purchases made from a state onwards sit on dip rows met later,
    in frame order. *)
Lemma dip_log_from (rows : DataFrame) (v : Vars.t) :
  exists later bought,
    Vars.purchases (fold_left (step self) rows v) = Vars.purchases v ++ later
    /\ subsequence bought rows
    /\ Forall2 (dip_purchase_on self) later bought.
Proof.
  induction rows as [|row rows IH] using rev_ind.
  { exists [], []. simpl. rewrite app_nil_r. repeat split; constructor. }
  rewrite fold_left_app. cbn [fold_left].
  set (w := fold_left (step self) rows v) in *.
  destruct IH as (later & bought & Hl & Hsub & Hon).
  assert (Hskip : subsequence bought (rows ++ [row])).
  { clear - Hsub. induction Hsub; simpl; constructor; assumption. }
  destruct (Qlt_le_dec (dip_threshold self) (daily_return row)) as [Hn|Hdip].
  { rewrite (dip_step_no_dip self w row Hn). simpl. exists later, bought. auto. }
  destruct (Qlt_le_dec (Vars.accumulated_cash w + monthly_savings self / 30) 100) as [Hlow|Hok].
  { rewrite (dip_step_missed self w row Hdip Hlow). simpl. exists later, bought. auto. }
  rewrite (dip_step_buy self w row Hdip Hok). cbn [Vars.purchases].
  eexists (later ++ [_]), (bought ++ [row]).
  split; [rewrite Hl, <- app_assoc; reflexivity|].
  split.
  { clear - Hsub. induction Hsub; simpl.
    - induction ys as [|y ys IH]; simpl; [repeat constructor | constructor; exact IH].
    - constructor. assumption.
    - constructor. assumption. }
  apply Forall2_app; [exact Hon|]. constructor; [|constructor].
  unfold dip_purchase_on. simpl. repeat split; try reflexivity; assumption.
Qed.

End DipCash.

Lemma subsequence_In {A : Type} (xs ys : list A) :
  subsequence xs ys -> forall x, In x xs -> In x ys.
Proof.
  induction 1 as [ys|x xs ys _ IH|xs y ys _ IH]; intros z Hz.
  - destruct Hz.
  - destruct Hz as [->|Hz]; [left; reflexivity | right; apply IH; exact Hz].
  - right. apply IH. exact Hz.
Qed.

Lemma Forall2_In_l {A B : Type} (R : A -> B -> Prop) (xs : list A) (ys : list B) :
  Forall2 R xs ys -> forall x, In x xs -> exists y, In y ys /\ R x y.
Proof.
  induction 1 as [|x y xs ys Hxy _ IH]; intros z Hz; [destruct Hz|].
  destruct Hz as [->|Hz].
  - exists y. split; [left; reflexivity | exact Hxy].
  - destruct (IH z Hz) as (y' & Hy' & Hr). exists y'. split; [right; exact Hy' | exact Hr].
Qed.

(* ===================================================================== *)
(** * Percentages *)
(* ===================================================================== *)

Lemma py_div_value (a b : Q) : ~ b == 0 -> py_div a b = Value (a / b).
Proof.
  intro H. unfold py_div. destruct (Qeq_bool b 0) eqn:E; [|reflexivity].
  apply Qeq_bool_iff in E. contradiction.
Qed.

Lemma py_div_zero (a b : Q) : b == 0 -> py_div a b = ZeroDivisionError.
Proof.
  intro H. unfold py_div. apply Qeq_bool_iff in H. rewrite H. reflexivity.
Qed.

Lemma Qdiv_lt_iff (a b c : Q) : 0 < b -> (a / b < c <-> a < c * b).
Proof.
  intro Hb. split; intro H.
  - apply Qnot_le_lt. intro Hle. apply (Qlt_not_le _ _ H).
    apply Qle_shift_div_l; assumption.
  - apply Qlt_shift_div_r; assumption.
Qed.

Lemma Qdiv_le_iff (a b c : Q) : 0 < b -> (a / b <= c <-> a <= c * b).
Proof.
  intro Hb. split; intro H.
  - apply Qnot_lt_le. intro Hlt. apply (Qle_not_lt _ _ H).
    apply Qlt_shift_div_l; assumption.
  - apply Qle_shift_div_r; assumption.
Qed.

Lemma Qdiv_gt_iff (a b c : Q) : 0 < b -> (c < a / b <-> c * b < a).
Proof.
  intro Hb. split; intro H.
  - apply Qnot_le_lt. intro Hle. apply (Qlt_not_le _ _ H).
    apply Qle_shift_div_r; assumption.
  - apply Qlt_shift_div_l; assumption.
Qed.

Lemma Qdiv_ge_iff (a b c : Q) : 0 < b -> (c <= a / b <-> c * b <= a).
Proof.
  intro Hb. split; intro H.
  - apply Qnot_lt_le. intro Hlt. apply (Qle_not_lt _ _ H).
    apply Qlt_shift_div_r; assumption.
  - apply Qle_shift_div_l; assumption.
Qed.

(** [a / b * 100] against a bound, for a positive [b]. *)
Lemma pct_lt_iff (a b c : Q) : 0 < b -> (a / b * 100 < c <-> a * 100 < c * b).
Proof.
  intro Hb. rewrite <- (Qdiv_lt_iff (a * 100) b c Hb).
  assert (E : a / b * 100 == a * 100 / b) by (field; lra).
  rewrite E. tauto.
Qed.

Lemma pct_le_iff (a b c : Q) : 0 < b -> (a / b * 100 <= c <-> a * 100 <= c * b).
Proof.
  intro Hb. rewrite <- (Qdiv_le_iff (a * 100) b c Hb).
  assert (E : a / b * 100 == a * 100 / b) by (field; lra).
  rewrite E. tauto.
Qed.

Lemma pct_gt_iff (a b c : Q) : 0 < b -> (c < a / b * 100 <-> c * b < a * 100).
Proof.
  intro Hb. rewrite <- (Qdiv_gt_iff (a * 100) b c Hb).
  assert (E : a / b * 100 == a * 100 / b) by (field; lra).
  rewrite E. tauto.
Qed.

Lemma pct_ge_iff (a b c : Q) : 0 < b -> (c <= a / b * 100 <-> c * b <= a * 100).
Proof.
  intro Hb. rewrite <- (Qdiv_ge_iff (a * 100) b c Hb).
  assert (E : a / b * 100 == a * 100 / b) by (field; lra).
  rewrite E. tauto.
Qed.

Lemma Qnat_le (n m : nat) : (n <= m)%nat -> Qnat n <= Qnat m.
Proof. intro H. unfold Qnat. rewrite <- Zle_Qle. lia. Qed.

Lemma Qnat_pos (n : nat) : (0 < n)%nat -> 0 < Qnat n.
Proof. intro H. unfold Qnat. replace 0 with (inject_Z 0) by reflexivity. rewrite <- Zlt_Qlt. lia. Qed.

Lemma Qlen_pos {A : Type} (xs : list A) : xs <> [] -> 1 <= Qlen xs.
Proof.
  intro H. unfold Qlen. replace 1 with (inject_Z 1) by reflexivity. rewrite <- Zle_Qle.
  destruct xs; [congruence | simpl; lia].
Qed.

(* ===================================================================== *)
(** * The dip engine: what a result says about the savings *)
(* ===================================================================== *)

Section DipResult.

Import BuyTheDip.

Variable self : BuyTheDip.t.

(** The totals recorded with the last purchase are the final totals. *)
Lemma dip_last_purchase (ps : list Purchase.t) (p : Purchase.t) :
  Vars.purchases (simulate self) = ps ++ [p] ->
  Purchase.total_invested p = Vars.total_invested (simulate self)
  /\ Purchase.total_coins p = Vars.total_coins (simulate self).
Proof.
  intro E. destruct (dip_books_simulate self) as (Hi & Hc & _ & Hb).
  destruct (Hb (length ps) p) as (H1 & H2 & _).
  { rewrite E, nth_error_app2 by lia. rewrite Nat.sub_diag. reflexivity. }
  rewrite E, firstn_snoc_all in H1, H2. rewrite E in Hi, Hc. split; congruence.
Qed.

(** A run that returns a result was given a positive stipend, has saved at
    least the 100 it invested, and keeps no negative cash. *)
Lemma dip_run_savings (r : Results.t) :
  run_strategy self = Return (Some r) ->
  0 < monthly_savings self
  /\ 0 <= Results.accumulated_cash r
  /\ 100 <= Results.total_invested r
  /\ Results.total_invested r + Results.accumulated_cash r == Results.total_should_save r
  /\ (1 <= Results.num_purchases r <= Results.dip_days r)%nat.
Proof.
  intro Hrun.
  destruct (dip_run_inv self r Hrun)
    as (cp & _ & Hp & _ & _ & Hti & _ & Hcash & Hn & Hdd & _ & _ & _ & Htss & _).
  assert (Hm : 0 < monthly_savings self).
  { apply Qnot_le_lt. intro Hle. apply Hp. apply (dip_idle_simulate self Hle). }
  destruct (dip_floor self (df self) (Qlt_le_weak _ _ Hm)) as (Hc & Hi & _).
  fold (simulate self) in Hc, Hi.
  pose proof (dip_cash_conserved self (df self)) as Hcons. cbv zeta in Hcons.
  fold (simulate self) in Hcons.
  destruct (dip_books_simulate self) as (_ & _ & Hd & _).
  pose proof (Qlen_pos _ Hp) as Hlen.
  rewrite Hti, Hcash, Htss, Hn, Hdd.
  split; [exact Hm|]. split; [exact Hc|]. split; [lra|]. split; [exact Hcons|].
  destruct (Vars.purchases (simulate self)); [congruence | simpl in *; lia].
Qed.

End DipResult.
(** X1. In the dip engine every unit of savings is either invested or
    still held as cash: after the loop [total_invested + accumulated_cash]
    is the number of rows times [monthly_savings / 30].  In a result this
    is [total_should_save], so the reported [total_return] is the value of
    the coins minus what was invested: the idle cash cancels out. *)
Theorem dip_savings_invested_or_kept (self : BuyTheDip.t) :
  let v := BuyTheDip.simulate self in
  BuyTheDip.Vars.total_invested v + BuyTheDip.Vars.accumulated_cash v
  == Qlen (BuyTheDip.df self) * (BuyTheDip.monthly_savings self / 30)
  /\ forall r,
      BuyTheDip.run_strategy self = Return (Some r) ->
      BuyTheDip.Results.total_invested r + BuyTheDip.Results.accumulated_cash r
      == BuyTheDip.Results.total_should_save r
      /\ BuyTheDip.Results.total_return r
         == BuyTheDip.Results.current_value r - BuyTheDip.Results.total_invested r.
Proof.
  intro v. pose proof (dip_cash_conserved self (BuyTheDip.df self)) as Hcons.
  cbv zeta in Hcons. fold (BuyTheDip.simulate self) in Hcons. fold v in Hcons.
  split; [exact Hcons|]. intros r Hrun.
  destruct (dip_run_inv self r Hrun)
    as (cp & _ & _ & _ & _ & Hti & _ & Hcash & _ & _ & _ & _ & _ & Htss & Hcv & _ & Hret & _).
  fold v in Hti, Hcash, Hcv, Hret. rewrite Hti, Hcash, Htss, Hcv, Hret.
  split; [exact Hcons | lra].
Qed.

(** X2. Every purchase of the dip engine sits on a row of the frame whose
    intrabar return is at most the threshold: it carries that row's label,
    close and return, spends at least 100 and buys [investment / close]
    units.  The log follows the frame: its rows are a subsequence of the
    frame's rows.  A result carries the same log. *)
Theorem dip_purchases_sit_on_dip_rows (self : BuyTheDip.t) :
  let log := BuyTheDip.Vars.purchases (BuyTheDip.simulate self) in
  (exists bought,
      subsequence bought (BuyTheDip.df self)
      /\ Forall2 (dip_purchase_on self) log bought)
  /\ forall r,
      BuyTheDip.run_strategy self = Return (Some r) -> BuyTheDip.Results.purchases r = log.
Proof.
  intro log. split.
  - destruct (dip_log_from self (BuyTheDip.df self) BuyTheDip.init)
      as (later & bought & Hl & Hsub & Hon).
    exists bought. split; [exact Hsub|]. unfold log, BuyTheDip.simulate. rewrite Hl. exact Hon.
  - intros r Hrun. destruct (dip_run_inv self r Hrun) as (cp & _ & _ & _ & Hlog & _).
    exact Hlog.
Qed.

(** X3. [print_summary] after a run that returned a result never divides
    by zero: there is at least one dip day, and what should have been
    saved is positive.  The purchase rate it prints lies in (0, 100] and
    is 100 exactly when no dip day was missed; the investment rate it
    prints is positive and is the same number as the utilisation.  Before
    any result it prints a notice and computes nothing. *)
Theorem dip_summary_rates (self : BuyTheDip.t) (r : BuyTheDip.Results.t) :
  BuyTheDip.run_strategy self = Return (Some r) ->
  DipReport.print_summary None = Value None
  /\ (1 <= BuyTheDip.Results.dip_days r)%nat
  /\ 0 < BuyTheDip.Results.total_should_save r
  /\ exists s,
      DipReport.print_summary (Some r) = Value (Some s)
      /\ DipReport.purchase_rate s
         = Qnat (BuyTheDip.Results.num_purchases r) / Qnat (BuyTheDip.Results.dip_days r)
           * 100
      /\ 0 < DipReport.purchase_rate s <= 100
      /\ (DipReport.purchase_rate s == 100
          <-> BuyTheDip.Results.missed_opportunities r = 0%nat)
      /\ 0 < DipReport.investment_rate s
      /\ DipReport.investment_rate s = DipReport.utilization s.
Proof.
  intro Hrun. destruct (dip_run_savings self r Hrun) as (Hm & Hc & Hi & Hcons & Hn).
  assert (Hcount : BuyTheDip.Results.dip_days r
                   = (BuyTheDip.Results.num_purchases r
                      + BuyTheDip.Results.missed_opportunities r)%nat).
  { destruct (dip_run_inv self r Hrun)
      as (cp & _ & _ & _ & _ & _ & _ & _ & Hnum & Hdd & Hmiss & _).
    destruct (dip_books_simulate self) as (_ & _ & Hd & _).
    rewrite Hnum, Hdd, Hmiss. exact Hd. }
  set (ti := BuyTheDip.Results.total_invested r) in *.
  set (cash := BuyTheDip.Results.accumulated_cash r) in *.
  set (tss := BuyTheDip.Results.total_should_save r) in *.
  assert (Htss : 0 < tss) by lra.
  assert (Hd : 0 < Qnat (BuyTheDip.Results.dip_days r)) by (apply Qnat_pos; lia).
  assert (Hnp : 0 < Qnat (BuyTheDip.Results.num_purchases r)) by (apply Qnat_pos; lia).
  assert (Hnd : Qnat (BuyTheDip.Results.num_purchases r) <= Qnat (BuyTheDip.Results.dip_days r))
    by (apply Qnat_le; lia).
  split; [reflexivity|]. split; [lia|]. split; [exact Htss|].
  unfold DipReport.print_summary.
  rewrite (py_div_value _ (Qnat (BuyTheDip.Results.dip_days r))) by lra.
  cbn [arith_bind]. fold ti tss. rewrite (py_div_value ti tss) by lra. cbn [arith_bind].
  eexists. split; [reflexivity|].
  cbn [DipReport.purchase_rate DipReport.utilization DipReport.investment_rate].
  split; [reflexivity|].
  split; [split; [apply pct_gt_iff | apply pct_le_iff]; lra|].
  split.
  { split; intro H.
    - assert (H2 : 100 <= Qnat (BuyTheDip.Results.num_purchases r)
                          / Qnat (BuyTheDip.Results.dip_days r) * 100)
        by (rewrite H; apply Qle_refl).
      apply pct_ge_iff in H2; [|exact Hd].
      assert (Hle : Qnat (BuyTheDip.Results.dip_days r)
                    <= Qnat (BuyTheDip.Results.num_purchases r)) by lra.
      unfold Qnat in Hle. rewrite <- Zle_Qle in Hle. lia.
    - assert (E : BuyTheDip.Results.dip_days r = BuyTheDip.Results.num_purchases r) by lia.
      rewrite E. field. lra. }
  split; [apply pct_gt_iff; lra | reflexivity].
Qed.

(** The theorem at [dip_three_months]. *)
Lemma dip_summary_rates_witness :
  exists r s,
    BuyTheDip.run_strategy dip_three_months = Return (Some r)
    /\ DipReport.print_summary (Some r) = Value (Some s)
    /\ 0 < DipReport.purchase_rate s <= 100.
Proof.
  destruct (BuyTheDip.run_strategy dip_three_months) as [[r|]|e] eqn:E;
    try (vm_compute in E; discriminate).
  destruct (dip_summary_rates dip_three_months r E) as (_ & _ & _ & s & Hs & _ & Hu & _).
  exists r, s. split; [reflexivity|]. split; [exact Hs | exact Hu].
Defined.

(** X4. [export_results] after a run that returned a result writes one
    row per purchase, in the order of the log, and its last row agrees
    with the summary: its [current_value] is the result's [current_value]
    and its [current_profit] is the result's [total_return]. *)
Theorem dip_export_ends_at_summary (self : BuyTheDip.t) (r : BuyTheDip.Results.t) :
  BuyTheDip.run_strategy self = Return (Some r) ->
  exists rows last,
    DipReport.export_results (BuyTheDip.Results.purchases r) r = Some rows
    /\ map DipReport.purchase rows = BuyTheDip.Results.purchases r
    /\ iloc_last rows = Return last
    /\ DipReport.current_value last = BuyTheDip.Results.current_value r
    /\ DipReport.current_profit last == BuyTheDip.Results.total_return r.
Proof.
  intro Hrun.
  pose proof (dip_cash_conserved self (BuyTheDip.df self)) as Hcons.
  cbv zeta in Hcons. fold (BuyTheDip.simulate self) in Hcons.
  destruct (dip_run_inv self r Hrun)
    as (cp & _ & Hp & _ & Hlog & _ & _ & _ & _ & _ & _ & _ & Hcp & _ & Hcv & _ & Hret & _).
  destruct (exists_last Hp) as (ps & p & E).
  destruct (dip_last_purchase self ps p E) as (Hti & Htc).
  unfold DipReport.export_results. rewrite Hlog, E.
  destruct (ps ++ [p]) as [|p0 rest] eqn:E'; [destruct ps; discriminate|].
  rewrite <- E'. eexists. eexists. split; [reflexivity|].
  split; [rewrite map_map; cbn [DipReport.purchase]; apply map_id|].
  split; [rewrite map_app; cbn [map]; apply iloc_last_snoc|].
  cbn [DipReport.current_value DipReport.current_profit].
  rewrite Hti, Htc, Hcp, Hcv, Hret. split; [reflexivity | lra].
Qed.

(** The theorem at [dip_three_months]. *)
Lemma dip_export_ends_at_summary_witness :
  exists r rows,
    BuyTheDip.run_strategy dip_three_months = Return (Some r)
    /\ DipReport.export_results (BuyTheDip.Results.purchases r) r = Some rows
    /\ map DipReport.purchase rows = BuyTheDip.Results.purchases r.
Proof.
  destruct (BuyTheDip.run_strategy dip_three_months) as [[r|]|e] eqn:E;
    try (vm_compute in E; discriminate).
  destruct (dip_export_ends_at_summary dip_three_months r E) as (rows & last & H1 & H2 & _).
  exists r, rows. split; [reflexivity|]. split; [exact H1 | exact H2].
Defined.
(* ===================================================================== *)
(** * The dip engine: the charts replay the run *)
(* ===================================================================== *)

Section DipCharts.

Import BuyTheDip.

Variable self : BuyTheDip.t.

Hypothesis unique_labels : NoDup (map date (df self)).

(** After any prefix of the frame the replayed cash is the engine's cash
    and the replay points at the first purchase the engine has not made
    yet. *)
Lemma replay_prefix (done rest : DataFrame) :
  df self = done ++ rest ->
  let st := fold_left (DipReport.replay_step self (Vars.purchases (simulate self))) done
              (DipReport.Replay.mk [] 0 0%nat) in
  let v := fold_left (step self) done init in
  DipReport.Replay.accumulated_cash st = Vars.accumulated_cash v
  /\ DipReport.Replay.purchase_idx st = length (Vars.purchases v)
  /\ length (DipReport.Replay.cash_history st) = length done
  /\ forall k row,
      nth_error done k = Some row ->
      nth_error (DipReport.Replay.cash_history st) k
      = Some (date row,
              Vars.accumulated_cash (fold_left (step self) (firstn (S k) done) init)).
Proof.
  revert rest. induction done as [|row done IH] using rev_ind; intros rest Hdf.
  { cbv zeta. simpl. repeat split; try reflexivity. intros k row H. destruct k; discriminate. }
  rewrite <- app_assoc in Hdf. cbn [app] in Hdf.
  specialize (IH (row :: rest) Hdf). cbv zeta in IH |- *.
  rewrite !fold_left_app. cbn [fold_left].
  set (st := fold_left (DipReport.replay_step self (Vars.purchases (simulate self))) done
               (DipReport.Replay.mk [] 0 0%nat)) in *.
  set (v := fold_left (step self) done init) in *.
  destruct IH as (Hcash & Hidx & Hlen & Hhist).
  assert (Hfresh : ~ In (date row) (map date rest)).
  { rewrite Hdf, map_app in unique_labels. cbn [map] in unique_labels.
    apply NoDup_remove_2 in unique_labels. intro Hin. apply unique_labels.
    apply in_or_app. right. exact Hin. }
  destruct (dip_log_from self rest (step self v row)) as (later & bought & Hl & Hsub & Hon).
  assert (HP : Vars.purchases (simulate self) = Vars.purchases (step self v row) ++ later).
  { unfold simulate. rewrite Hdf, fold_left_app. exact Hl. }
  assert (Hlater : forall p, In p later -> Purchase.date p <> date row).
  { intros p Hp Heq. destruct (Forall2_In_l _ _ _ Hon p Hp) as (b & Hb & Hpb).
    apply Hfresh. destruct Hpb as (Hd & _). rewrite <- Heq, Hd. apply in_map.
    apply (subsequence_In _ _ Hsub). exact Hb. }
  assert (Hstep :
    forall bought_now,
      match nth_error (Vars.purchases (simulate self)) (DipReport.Replay.purchase_idx st) with
      | Some p => date_eqb (Purchase.date p) (date row)
      | None => false
      end = bought_now ->
      (if bought_now then 0 else Vars.accumulated_cash v + monthly_savings self / 30)
      = Vars.accumulated_cash (step self v row) ->
      (if bought_now then S (length (Vars.purchases v)) else length (Vars.purchases v))
      = length (Vars.purchases (step self v row)) ->
      DipReport.Replay.accumulated_cash (DipReport.replay_step self (Vars.purchases (simulate self)) st row)
      = Vars.accumulated_cash (step self v row)
      /\ DipReport.Replay.purchase_idx (DipReport.replay_step self (Vars.purchases (simulate self)) st row)
         = length (Vars.purchases (step self v row))
      /\ length (DipReport.Replay.cash_history
                   (DipReport.replay_step self (Vars.purchases (simulate self)) st row))
         = length (done ++ [row])
      /\ forall k row0,
          nth_error (done ++ [row]) k = Some row0 ->
          nth_error (DipReport.Replay.cash_history
                       (DipReport.replay_step self (Vars.purchases (simulate self)) st row)) k
          = Some (date row0,
                  Vars.accumulated_cash
                    (fold_left (step self) (firstn (S k) (done ++ [row])) init))).
  { intros b Hb Hc Hi. unfold DipReport.replay_step. rewrite Hb.
    cbn [DipReport.Replay.accumulated_cash DipReport.Replay.purchase_idx
         DipReport.Replay.cash_history].
    rewrite Hcash, Hidx. split; [exact Hc|]. split; [exact Hi|].
    split; [rewrite !length_app, Hlen; reflexivity|].
    intros k row0 Hk. apply nth_error_snoc in Hk. destruct Hk as [[Hk Hlt]|[-> ->]].
    - rewrite nth_error_app1 by lia. rewrite firstn_snoc_lt by lia. apply Hhist. exact Hk.
    - rewrite nth_error_app2 by lia. rewrite Hlen, Nat.sub_diag. cbn [nth_error].
      rewrite firstn_snoc_all, fold_left_app. cbn [fold_left]. fold v. rewrite Hc.
      reflexivity. }
  destruct (Qlt_le_dec (dip_threshold self) (daily_return row)) as [Hn|Hdip];
    [|destruct (Qlt_le_dec (Vars.accumulated_cash v + monthly_savings self / 30) 100)
        as [Hlow|Hok]].
  - apply (Hstep false).
    + rewrite HP, Hidx, (dip_step_no_dip self v row Hn). cbn [Vars.purchases].
      rewrite nth_error_app2 by lia. rewrite Nat.sub_diag.
      destruct later as [|p later']; [reflexivity|]. cbn [nth_error].
      destruct (date_eqb (Purchase.date p) (date row)) eqn:E; [|reflexivity].
      apply date_eqb_eq in E. exfalso. apply (Hlater p); [left; reflexivity | exact E].
    + rewrite (dip_step_no_dip self v row Hn). reflexivity.
    + rewrite (dip_step_no_dip self v row Hn). reflexivity.
  - apply (Hstep false).
    + rewrite HP, Hidx, (dip_step_missed self v row Hdip Hlow). cbn [Vars.purchases].
      rewrite nth_error_app2 by lia. rewrite Nat.sub_diag.
      destruct later as [|p later']; [reflexivity|]. cbn [nth_error].
      destruct (date_eqb (Purchase.date p) (date row)) eqn:E; [|reflexivity].
      apply date_eqb_eq in E. exfalso. apply (Hlater p); [left; reflexivity | exact E].
    + rewrite (dip_step_missed self v row Hdip Hlow). reflexivity.
    + rewrite (dip_step_missed self v row Hdip Hlow). reflexivity.
  - apply (Hstep true).
    + rewrite HP, Hidx, (dip_step_buy self v row Hdip Hok). cbn [Vars.purchases].
      rewrite <- app_assoc. rewrite nth_error_app2 by lia. rewrite Nat.sub_diag.
      cbn [app nth_error Purchase.date]. apply date_eqb_eq. reflexivity.
    + rewrite (dip_step_buy self v row Hdip Hok). reflexivity.
    + rewrite (dip_step_buy self v row Hdip Hok). cbn [Vars.purchases].
      rewrite length_app. simpl. lia.
Qed.

(** Each purchase is found again by its label, at its own price. *)
Lemma dip_loc_purchase (p : Purchase.t) :
  In p (Vars.purchases (simulate self)) ->
  loc (df self) (Purchase.date p) close = Return (Purchase.price p).
Proof.
  intro Hin.
  destruct (dip_log_from self (df self) init) as (later & bought & Hl & Hsub & Hon).
  cbn [Vars.purchases init app] in Hl. fold (simulate self) in Hl. rewrite Hl in Hin.
  destruct (Forall2_In_l _ _ _ Hon p Hin) as (row & Hrow & Hd & Hp & _).
  rewrite Hd, Hp. apply loc_unique; [exact unique_labels|].
  apply (subsequence_In _ _ Hsub). exact Hrow.
Qed.

End DipCharts.

Lemma for_each_append {X Y : Type} (body : list Y -> X -> outcome (list Y)) (g : X -> Y)
    (xs : list X) :
  (forall acc x, In x xs -> body acc x = Return (acc ++ [g x])) ->
  forall acc, for_each body xs acc = Return (acc ++ map g xs).
Proof.
  induction xs as [|x xs IH]; intros H acc; simpl.
  - rewrite app_nil_r. reflexivity.
  - rewrite (H acc x (or_introl eq_refl)). simpl. rewrite IH.
    + rewrite <- app_assoc. reflexivity.
    + intros acc' y Hy. apply H. right. exact Hy.
Qed.

(** With unique labels the portfolio values are computed for every
    purchase of the log. *)
Lemma dip_portfolio_values (self : BuyTheDip.t) :
  NoDup (map date (BuyTheDip.df self)) ->
  DipReport.portfolio_values self (BuyTheDip.Vars.purchases (BuyTheDip.simulate self))
  = Return
      (map (fun p =>
              DipReport.mkPortfolioValue (BuyTheDip.Purchase.date p)
                (BuyTheDip.Purchase.total_coins p * BuyTheDip.Purchase.price p)
                (BuyTheDip.Purchase.total_invested p)
                (BuyTheDip.Purchase.total_coins p * BuyTheDip.Purchase.price p
                 - BuyTheDip.Purchase.total_invested p))
         (BuyTheDip.Vars.purchases (BuyTheDip.simulate self))).
Proof.
  intro Hnd. unfold DipReport.portfolio_values.
  apply (for_each_append _ _ _ (fun acc p Hin =>
           f_equal (fun c => bind c _) (dip_loc_purchase self Hnd p Hin)) []).
Qed.

(** X5. The cash chart of [plot_strategy_analysis] replays the run.  After
    a run that returned a result on a frame with unique labels, the
    function draws its charts, with one point of cash per row, and the
    cash drawn for each row is the cash the engine held after that row. *)
Theorem dip_cash_chart_replays_engine (self : BuyTheDip.t) (r : BuyTheDip.Results.t) :
  NoDup (map date (BuyTheDip.df self)) ->
  BuyTheDip.run_strategy self = Return (Some r) ->
  exists charts,
    DipReport.plot_strategy_analysis self (BuyTheDip.Results.purchases r)
    = Return (Some charts)
    /\ length (DipReport.chart_cash_history charts) = length (BuyTheDip.df self)
    /\ forall k row,
        nth_error (BuyTheDip.df self) k = Some row ->
        nth_error (DipReport.chart_cash_history charts) k
        = Some (date row,
                BuyTheDip.Vars.accumulated_cash
                  (fold_left (BuyTheDip.step self) (firstn (S k) (BuyTheDip.df self))
                     BuyTheDip.init)).
Proof.
  intros Hnd Hrun.
  destruct (dip_run_inv self r Hrun) as (cp & _ & Hp & _ & Hlog & _).
  destruct (replay_prefix self Hnd (BuyTheDip.df self) [] (eq_sym (app_nil_r _)))
    as (_ & _ & Hlen & Hhist).
  pose proof (dip_portfolio_values self Hnd) as Hvalues.
  unfold DipReport.plot_strategy_analysis. rewrite Hlog.
  destruct (BuyTheDip.Vars.purchases (BuyTheDip.simulate self)) as [|p0 ps] eqn:E;
    [congruence|].
  rewrite Hvalues. cbn [bind]. eexists. split; [reflexivity|].
  cbn [DipReport.chart_cash_history]. split; [exact Hlen | exact Hhist].
Qed.

(** The theorem at [two_dips] with a stipend of 1500. *)
Lemma dip_cash_chart_replays_engine_witness :
  exists r charts,
    BuyTheDip.run_strategy (BuyTheDip.mk two_dips 1500 (-5)) = Return (Some r)
    /\ DipReport.plot_strategy_analysis (BuyTheDip.mk two_dips 1500 (-5))
         (BuyTheDip.Results.purchases r) = Return (Some charts)
    /\ length (DipReport.chart_cash_history charts) = 4%nat.
Proof.
  destruct (BuyTheDip.run_strategy (BuyTheDip.mk two_dips 1500 (-5))) as [[r|]|e] eqn:E;
    try (vm_compute in E; discriminate).
  destruct (dip_cash_chart_replays_engine (BuyTheDip.mk two_dips 1500 (-5)) r)
    as (charts & Hplot & Hlen & _).
  - repeat (constructor; [simpl; intuition discriminate|]). constructor.
  - exact E.
  - exists r, charts. split; [reflexivity|]. split; [exact Hplot | exact Hlen].
Defined.

(** On [two_dips] the chart shows 50 and 100 on the flat days, 0 after the
    purchase and 50 on the missed dip. *)
Example two_dips_cash_chart :
  map snd (DipReport.cash_history (BuyTheDip.mk two_dips 1500 (-5))
             (BuyTheDip.Vars.purchases (BuyTheDip.simulate (BuyTheDip.mk two_dips 1500 (-5)))))
  = [1500 / 30; 1500 / 30 + 1500 / 30; 0; 1500 / 30].
Proof. vm_compute. reflexivity. Qed.

(** X6. The portfolio chart of [plot_strategy_analysis] never fails on a
    label.  After a run that returned a result on a frame with unique
    labels, every purchase date is found in the frame with the close the
    purchase was made at, so each point of the chart is the holdings
    after the purchase valued at the purchase price, and its profit is
    that value minus what was invested so far. *)
Theorem dip_portfolio_chart_values (self : BuyTheDip.t) (r : BuyTheDip.Results.t) :
  NoDup (map date (BuyTheDip.df self)) ->
  BuyTheDip.run_strategy self = Return (Some r) ->
  exists charts,
    DipReport.plot_strategy_analysis self (BuyTheDip.Results.purchases r)
    = Return (Some charts)
    /\ DipReport.chart_portfolio_values charts
       = map (fun p =>
                DipReport.mkPortfolioValue (BuyTheDip.Purchase.date p)
                  (BuyTheDip.Purchase.total_coins p * BuyTheDip.Purchase.price p)
                  (BuyTheDip.Purchase.total_invested p)
                  (BuyTheDip.Purchase.total_coins p * BuyTheDip.Purchase.price p
                   - BuyTheDip.Purchase.total_invested p))
           (BuyTheDip.Results.purchases r).
Proof.
  intros Hnd Hrun.
  destruct (dip_run_inv self r Hrun) as (cp & _ & Hp & _ & Hlog & _).
  pose proof (dip_portfolio_values self Hnd) as Hvalues.
  unfold DipReport.plot_strategy_analysis. rewrite Hlog.
  destruct (BuyTheDip.Vars.purchases (BuyTheDip.simulate self)) as [|p0 ps] eqn:E;
    [congruence|].
  rewrite Hvalues. cbn [bind]. eexists. split; reflexivity.
Qed.

(** The theorem at [dip_three_months]. *)
Lemma dip_portfolio_chart_values_witness :
  exists r charts,
    BuyTheDip.run_strategy dip_three_months = Return (Some r)
    /\ DipReport.plot_strategy_analysis dip_three_months (BuyTheDip.Results.purchases r)
       = Return (Some charts).
Proof.
  destruct (BuyTheDip.run_strategy dip_three_months) as [[r|]|e] eqn:E;
    try (vm_compute in E; discriminate).
  destruct (dip_portfolio_chart_values dip_three_months r) as (charts & Hplot & _).
  - repeat (constructor; [simpl; intuition discriminate|]). constructor.
  - exact E.
  - exists r, charts. split; [reflexivity | exact Hplot].
Defined.
(* ===================================================================== *)
(** * The scheduled engine: the report *)
(* ===================================================================== *)

Lemma firstn_S_snoc {A : Type} (xs : list A) (k : nat) (x : A) :
  nth_error xs k = Some x -> firstn (S k) xs = firstn k xs ++ [x].
Proof.
  revert k. induction xs as [|y ys IH]; intros k H; [destruct k; discriminate|].
  destruct k as [|k]; simpl in H.
  - injection H as ->. reflexivity.
  - change (firstn (S (S k)) (y :: ys)) with (y :: firstn (S k) ys).
    rewrite (IH k H). reflexivity.
Qed.

Section DcaReportFacts.

Import SimpleDCA.

Variable self : SimpleDCA.t.

Hypothesis positive_stipend : 0 < monthly_investment self.
Hypothesis positive_prices : positive_closes (df self).

(** With a positive amount and positive closes every purchase buys a
    positive quantity at a positive price. *)
Lemma dca_positive_simulate (v : Vars.t) :
  simulate self = Return v ->
  0 <= Vars.total_coins v
  /\ 0 <= Vars.total_invested v
  /\ (Vars.purchases v <> [] -> 0 < Vars.total_coins v /\ 0 < Vars.total_invested v)
  /\ Forall (fun p => 0 < Purchase.price p /\ 0 < Purchase.total_coins p
                      /\ 0 < Purchase.total_invested p) (Vars.purchases v).
Proof.
  intro Hrun.
  apply (for_each_inv
           (fun v => 0 <= Vars.total_coins v
                     /\ 0 <= Vars.total_invested v
                     /\ (Vars.purchases v <> []
                         -> 0 < Vars.total_coins v /\ 0 < Vars.total_invested v)
                     /\ Forall (fun p => 0 < Purchase.price p /\ 0 < Purchase.total_coins p
                                         /\ 0 < Purchase.total_invested p)
                          (Vars.purchases v))
           (step self) (unique_months self) init v).
  - simpl. split; [apply Qle_refl|]. split; [apply Qle_refl|].
    split; [congruence | constructor].
  - intros s k s' Hk (Hc & Hi & _ & Hall) Hstep.
    apply month_rows_nonempty in Hk.
    destruct (dca_step_inv self s s' k Hk Hstep)
      as (d & row & _ & _ & _ & Hrow & _ & _ & ->).
    assert (Hclose : 0 < close row).
    { unfold positive_closes in positive_prices. rewrite Forall_forall in positive_prices.
      auto. }
    pose proof (Qdiv_pos _ _ positive_stipend Hclose) as Hbuy.
    unfold dca_bought. cbn [Vars.total_coins Vars.total_invested Vars.purchases].
    split; [lra|]. split; [lra|]. split; [intros _; split; lra|].
    apply Forall_app. split; [exact Hall|]. constructor; [|constructor].
    simpl. split; [exact Hclose|]. split; lra.
  - exact Hrun.
Qed.

End DcaReportFacts.

Section DcaRunMore.

Import SimpleDCA.

Variable self : SimpleDCA.t.

Lemma dca_run_avg_cost (r : Results.t) (v : Vars.t) :
  run_dca self = Return (Some r) -> simulate self = Return v ->
  Results.avg_cost r
  = (if Qlt_bool 0 (Vars.total_coins v)
     then Vars.total_invested v / Vars.total_coins v else 0).
Proof.
  unfold run_dca. intros H Hv.
  destruct (df self) as [|r0 rs] eqn:Edf; [discriminate|]. cbn [print_period bind] in H.
  rewrite Hv in H. cbn [bind] in H.
  destruct (0 <? length (Vars.purchases v))%nat; [|discriminate].
  destruct (iloc_last (map close (r0 :: rs))) as [cp|e] eqn:Ecp; [|discriminate].
  cbn [bind] in H.
  destruct (iloc_first (Vars.purchases v)) as [p0|e]; [|discriminate]. cbn [bind] in H.
  destruct (iloc_last (Vars.purchases v)) as [pn|e]; [|discriminate]. cbn [bind] in H.
  injection H as <-. reflexivity.
Qed.

(** The log of a result is not empty, and each of its purchases is found
    again by its label at its own price. *)
Lemma dca_run_log (r : Results.t) :
  run_dca self = Return (Some r) ->
  Results.purchases r <> []
  /\ Forall (dca_purchase_ok self) (Results.purchases r)
  /\ exact_books Purchase.investment Purchase.coins_bought Purchase.total_invested
       Purchase.total_coins Purchase.avg_price (Results.purchases r).
Proof.
  intro Hrun.
  destruct (dca_run_inv self r Hrun) as (v & cp & Hne & Hv & _ & Hlog & _).
  destruct (dca_books_simulate self v Hv) as (Hkeys & _ & _ & _ & Hb & Hok).
  rewrite Hlog. split; [|split; assumption].
  intro E. rewrite E in Hkeys. simpl in Hkeys.
  apply (unique_months_nonempty self Hne). congruence.
Qed.

End DcaRunMore.
(** X7. [export_purchase_history] after a run that returned a result,
    with closes positive: the profit it writes beside a purchase is the
    profit on what was held before that purchase, valued at the
    purchase's price, since the units just bought are worth what was
    just paid.  The first row therefore shows a profit and a return of
    zero. *)
Theorem dca_export_profit_on_earlier_holdings (self : SimpleDCA.t) (r : SimpleDCA.Results.t) :
  SimpleDCA.run_dca self = Return (Some r) ->
  positive_closes (SimpleDCA.df self) ->
  exists rows,
    DcaReport.export_purchase_history (SimpleDCA.Results.purchases r) = Some rows
    /\ map DcaReport.purchase rows = SimpleDCA.Results.purchases r
    /\ (forall k row,
           nth_error rows k = Some row ->
           DcaReport.profit_loss row
           == sum (map SimpleDCA.Purchase.coins_bought
                     (firstn k (SimpleDCA.Results.purchases r)))
              * SimpleDCA.Purchase.price (DcaReport.purchase row)
              - sum (map SimpleDCA.Purchase.investment
                       (firstn k (SimpleDCA.Results.purchases r))))
    /\ (forall row,
           iloc_first rows = Return row ->
           DcaReport.profit_loss row == 0 /\ DcaReport.return_pct row == 0).
Proof.
  intros Hrun Hpos. destruct (dca_run_log self r Hrun) as (Hne & Hok & Hb).
  set (log := SimpleDCA.Results.purchases r) in *.
  set (f := fun p =>
              DcaReport.mkExportRow p
                (SimpleDCA.Purchase.total_coins p * SimpleDCA.Purchase.price p)
                (SimpleDCA.Purchase.total_coins p * SimpleDCA.Purchase.price p
                 - SimpleDCA.Purchase.total_invested p)
                ((SimpleDCA.Purchase.total_coins p * SimpleDCA.Purchase.price p
                  - SimpleDCA.Purchase.total_invested p)
                 / SimpleDCA.Purchase.total_invested p * 100)).
  assert (Hrows : DcaReport.export_purchase_history log = Some (map f log)).
  { unfold DcaReport.export_purchase_history. destruct log; [congruence | reflexivity]. }
  assert (Hat : forall k row,
             nth_error (map f log) k = Some row ->
             DcaReport.profit_loss row
             == sum (map SimpleDCA.Purchase.coins_bought (firstn k log))
                * SimpleDCA.Purchase.price (DcaReport.purchase row)
                - sum (map SimpleDCA.Purchase.investment (firstn k log))).
  { intros k row Hk. rewrite nth_error_map in Hk.
    destruct (nth_error log k) as [p|] eqn:Ep; [|discriminate]. injection Hk as <-.
    destruct (Hb k p Ep) as (Hi & Hc & _).
    rewrite Forall_forall in Hok.
    destruct (Hok p (nth_error_In _ _ Ep)) as (Hinv & Hcoins & _ & _ & _ & _ & row & Hin & _ & Hpr).
    assert (Hprice : 0 < SimpleDCA.Purchase.price p).
    { rewrite <- Hpr. unfold positive_closes in Hpos. rewrite Forall_forall in Hpos. auto. }
    unfold f. cbn [DcaReport.profit_loss DcaReport.purchase].
    rewrite Hi, Hc, (firstn_S_snoc _ _ _ Ep), !map_app. cbn [map]. rewrite !sum_snoc.
    rewrite Hcoins, Hinv. field. lra. }
  exists (map f log). split; [exact Hrows|].
  split; [rewrite map_map; apply map_id|]. split; [exact Hat|].
  intros row Hrow.
  assert (H0 : nth_error (map f log) 0 = Some row).
  { destruct (map f log); [discriminate|]. simpl in Hrow. injection Hrow as ->. reflexivity. }
  pose proof (Hat 0%nat row H0) as Hp. cbn [firstn map] in Hp. rewrite sum_nil in Hp.
  assert (Hz : DcaReport.profit_loss row == 0) by (rewrite Hp; ring).
  split; [exact Hz|].
  rewrite nth_error_map in H0. destruct (nth_error log 0); [|discriminate].
  injection H0 as <-. unfold f in Hz |- *. cbn [DcaReport.return_pct DcaReport.profit_loss] in *.
  rewrite Hz. unfold Qdiv. ring.
Qed.

(** The theorem at [dca_three_months]. *)
Lemma dca_export_profit_on_earlier_holdings_witness :
  exists r rows,
    SimpleDCA.run_dca dca_three_months = Return (Some r)
    /\ DcaReport.export_purchase_history (SimpleDCA.Results.purchases r) = Some rows
    /\ map DcaReport.purchase rows = SimpleDCA.Results.purchases r.
Proof.
  destruct (SimpleDCA.run_dca dca_three_months) as [[r|]|e] eqn:E;
    try (vm_compute in E; discriminate).
  destruct (dca_export_profit_on_earlier_holdings dca_three_months r E) as (rows & H1 & H2 & _).
  { repeat constructor. }
  exists r, rows. split; [reflexivity|]. split; [exact H1 | exact H2].
Defined.

(** X8. [plot_dca_history] after a run that returned a result never fails
    on a label: every purchase date is a label of the frame, and its
    close is the price of the purchase.  The portfolio values and profits
    the chart draws are therefore the columns [portfolio_value] and
    [profit_loss] that [export_purchase_history] writes. *)
Theorem dca_chart_agrees_with_export (self : SimpleDCA.t) (r : SimpleDCA.Results.t) :
  SimpleDCA.run_dca self = Return (Some r) ->
  exists values rows,
    DcaReport.plot_dca_history self (SimpleDCA.Results.purchases r) = Return (Some values)
    /\ DcaReport.export_purchase_history (SimpleDCA.Results.purchases r) = Some rows
    /\ map DcaReport.pv_date values
       = map SimpleDCA.Purchase.date (SimpleDCA.Results.purchases r)
    /\ map DcaReport.pv_portfolio_value values = map DcaReport.portfolio_value rows
    /\ map DcaReport.pv_invested values
       = map SimpleDCA.Purchase.total_invested (SimpleDCA.Results.purchases r)
    /\ map DcaReport.pv_profit values = map DcaReport.profit_loss rows.
Proof.
  intro Hrun. destruct (dca_run_log self r Hrun) as (Hne & Hok & _).
  set (log := SimpleDCA.Results.purchases r) in *.
  set (g := fun p =>
              DcaReport.mkPortfolioValue (SimpleDCA.Purchase.date p)
                (SimpleDCA.Purchase.total_coins p * SimpleDCA.Purchase.price p)
                (SimpleDCA.Purchase.total_invested p)
                (SimpleDCA.Purchase.total_coins p * SimpleDCA.Purchase.price p
                 - SimpleDCA.Purchase.total_invested p)).
  assert (Hvalues : DcaReport.portfolio_values self log = Return (map g log)).
  { unfold DcaReport.portfolio_values.
    refine (for_each_append _ g log _ []).
    intros acc p Hin. rewrite Forall_forall in Hok.
    destruct (Hok p Hin) as (_ & _ & Hloc & _). rewrite Hloc. reflexivity. }
  unfold DcaReport.plot_dca_history, DcaReport.export_purchase_history.
  destruct log as [|p0 ps] eqn:Elog; [congruence|]. rewrite Hvalues. cbn [bind].
  eexists. eexists. split; [reflexivity|]. split; [reflexivity|].
  rewrite !map_map. repeat split; reflexivity.
Qed.

(** The theorem at [dca_three_months]. *)
Lemma dca_chart_agrees_with_export_witness :
  exists r values,
    SimpleDCA.run_dca dca_three_months = Return (Some r)
    /\ DcaReport.plot_dca_history dca_three_months (SimpleDCA.Results.purchases r)
       = Return (Some values).
Proof.
  destruct (SimpleDCA.run_dca dca_three_months) as [[r|]|e] eqn:E;
    try (vm_compute in E; discriminate).
  destruct (dca_chart_agrees_with_export dca_three_months r E) as (values & rows & H1 & _).
  exists r, values. split; [reflexivity | exact H1].
Defined.

(** X9. [print_summary] of the scheduled engine, after a run that returned
    a result with a positive amount and positive closes: it finds the
    first purchase, and the return it reports for the schedule is above
    the return of buying once at the first purchase's price exactly when
    the average cost of the schedule is below that price. *)
Theorem dca_beats_single_purchase_iff (self : SimpleDCA.t) (r : SimpleDCA.Results.t) :
  SimpleDCA.run_dca self = Return (Some r) ->
  0 < SimpleDCA.monthly_investment self ->
  positive_closes (SimpleDCA.df self) ->
  exists first s,
    iloc_first (SimpleDCA.Results.purchases r) = Return first
    /\ DcaReport.print_summary (Some r) (SimpleDCA.Results.purchases r) = Return (Some s)
    /\ (DcaReport.buy_hold_return s < SimpleDCA.Results.return_pct r
        <-> SimpleDCA.Results.avg_cost r < SimpleDCA.Purchase.price first).
Proof.
  intros Hrun Hm Hpos.
  destruct (dca_run_inv self r Hrun)
    as (v & cp & Hne & Hv & Hcp & Hlog & Hti & Htc & _ & Hprice & _ & _ & Hret).
  pose proof (dca_run_avg_cost self r v Hrun Hv) as Havg.
  destruct (dca_run_log self r Hrun) as (Hlogne & _ & _).
  destruct (dca_positive_simulate self Hm Hpos v Hv) as (_ & _ & Hgt & Hall).
  rewrite Hlog in Hlogne. destruct (Hgt Hlogne) as (Hcoins & Hinv).
  assert (Hex : exists first, iloc_first (SimpleDCA.Vars.purchases v) = Return first).
  { destruct (SimpleDCA.Vars.purchases v) as [|p ps]; [congruence|]. exists p. reflexivity. }
  destruct Hex as (first & Hfirst).
  assert (Hp0 : 0 < SimpleDCA.Purchase.price first).
  { rewrite Forall_forall in Hall. apply Hall. apply iloc_first_In. exact Hfirst. }
  assert (Hcur : 0 < cp).
  { apply iloc_last_In in Hcp. apply in_map_iff in Hcp. destruct Hcp as (row & <- & Hin).
    unfold positive_closes in Hpos. rewrite Forall_forall in Hpos. auto. }
  exists first. unfold DcaReport.print_summary. rewrite Hlog, Hfirst. cbn [bind].
  eexists. split; [reflexivity|]. split; [reflexivity|].
  cbn [DcaReport.buy_hold_return]. rewrite Hret, Havg, Hprice.
  apply Qlt_bool_true in Hinv. apply Qlt_bool_true in Hcoins. rewrite Hinv, Hcoins.
  apply Qlt_bool_true in Hinv. apply Qlt_bool_true in Hcoins.
  set (ti := SimpleDCA.Vars.total_invested v) in *.
  set (tc := SimpleDCA.Vars.total_coins v) in *.
  set (p0 := SimpleDCA.Purchase.price first) in *.
  rewrite (Qdiv_lt_iff ti tc p0 Hcoins).
  rewrite (pct_lt_iff (cp - p0) p0 _ Hp0).
  assert (E : (tc * cp - ti) / ti * 100 * p0 == (tc * cp - ti) * p0 / ti * 100)
    by (field; lra).
  rewrite E. rewrite (pct_gt_iff ((tc * cp - ti) * p0) ti _ Hinv).
  split; intro H; nra.
Qed.

(** The theorem at [dca_three_months]. *)
Lemma dca_beats_single_purchase_iff_witness :
  exists r first,
    SimpleDCA.run_dca dca_three_months = Return (Some r)
    /\ iloc_first (SimpleDCA.Results.purchases r) = Return first.
Proof.
  destruct (SimpleDCA.run_dca dca_three_months) as [[r|]|e] eqn:E;
    try (vm_compute in E; discriminate).
  destruct (dca_beats_single_purchase_iff dca_three_months r E) as (first & s & H1 & _).
  { reflexivity. }
  { repeat constructor. }
  exists r, first. split; [reflexivity | exact H1].
Defined.
(* ===================================================================== *)
(** * The comparator: both results side by side *)
(* ===================================================================== *)

Lemma run_all_inv (df : DataFrame) (m thr : Q) (day : Z)
    (dca_r : option SimpleDCA.Results.t) (dip_r : option BuyTheDip.Results.t) :
  StrategyComparison.run_all_strategies df m thr day = Return (dca_r, dip_r) ->
  SimpleDCA.run_dca (SimpleDCA.mk df m day) = Return dca_r
  /\ BuyTheDip.run_strategy (BuyTheDip.mk df m thr) = Return dip_r.
Proof.
  unfold StrategyComparison.run_all_strategies. intro H.
  destruct (SimpleDCA.run_dca (SimpleDCA.mk df m day)) as [a|e]; [|discriminate].
  cbn [bind] in H.
  destruct (BuyTheDip.run_strategy (BuyTheDip.mk df m thr)) as [b|e]; [|discriminate].
  cbn [bind] in H. injection H as -> ->. split; reflexivity.
Qed.

(** The scheduled engine has invested a positive amount whenever the dip
    engine, run with the same amount, returned a result. *)
Lemma dca_invested_positive (df : DataFrame) (m thr : Q) (day : Z)
    (dca_r : SimpleDCA.Results.t) (dip_r : BuyTheDip.Results.t) :
  StrategyComparison.run_all_strategies df m thr day = Return (Some dca_r, Some dip_r) ->
  0 < SimpleDCA.Results.total_invested dca_r.
Proof.
  intro Hall. destruct (run_all_inv _ _ _ _ _ _ Hall) as (Hdca & Hdip).
  destruct (dip_run_savings _ dip_r Hdip) as (Hm & _). cbn [BuyTheDip.monthly_savings] in Hm.
  destruct (dca_run_inv _ dca_r Hdca) as (v & cp & Hne & Hv & _ & Hlog & Hti & _).
  destruct (dca_books_simulate _ v Hv) as (_ & _ & _ & Hn & _).
  cbn [SimpleDCA.monthly_investment] in Hn.
  destruct (dca_run_log _ dca_r Hdca) as (Hlogne & _). rewrite Hlog in Hlogne.
  pose proof (Qlen_pos _ Hlogne) as Hlen. rewrite Hti, Hn. nra.
Qed.



(** X11. When both engines return a result, the capital utilisation of
    the scheduled engine is 100, the constant the table prints, and that
    of the dip engine is positive.  When the dip engine ends with cash
    left over its utilisation is below 100, so the utilisation point goes
    to the scheduled engine; the scheduled engine is then declared the
    winner as soon as it has acquired more units. *)
Theorem comparison_utilisation_point (df : DataFrame) (m thr : Q) (day : Z)
    (dca_r : SimpleDCA.Results.t) (dip_r : BuyTheDip.Results.t) :
  StrategyComparison.run_all_strategies df m thr day = Return (Some dca_r, Some dip_r) ->
  let mt := StrategyComparison.metrics dca_r dip_r in
  StrategyComparison.dca_util mt == 100
  /\ 0 < StrategyComparison.dip_util mt
  /\ (0 < BuyTheDip.Results.accumulated_cash dip_r ->
      Qlt_bool (StrategyComparison.dip_util mt) (StrategyComparison.dca_util mt) = true
      /\ StrategyComparison.get (StrategyComparison.tally mt) StrategyComparison.SIMPLE_DCA
         = (1 + points (Qlt_bool (StrategyComparison.dip_btc mt)
                          (StrategyComparison.dca_btc mt)) 3
              + points (Qlt_bool (StrategyComparison.dca_avg mt)
                          (StrategyComparison.dip_avg mt)) 2
              + points (Qlt_bool (StrategyComparison.dip_return mt)
                          (StrategyComparison.dca_return mt)) 2)%Z)
  /\ (0 < BuyTheDip.Results.accumulated_cash dip_r ->
      StrategyComparison.dip_btc mt < StrategyComparison.dca_btc mt ->
      exists scores,
        StrategyComparison.print_comparison (Some dca_r, Some dip_r)
        = Return (scores, StrategyComparison.SIMPLE_DCA)).
Proof.
  intros Hall mt. pose proof (dca_invested_positive _ _ _ _ _ _ Hall) as Hinv.
  destruct (run_all_inv _ _ _ _ _ _ Hall) as (Hdca & Hdip).
  destruct (dip_run_savings _ dip_r Hdip) as (_ & Hc & Hi & Hcons & _).
  set (ti := BuyTheDip.Results.total_invested dip_r) in *.
  set (cash := BuyTheDip.Results.accumulated_cash dip_r) in *.
  set (tss := BuyTheDip.Results.total_should_save dip_r) in *.
  assert (Htss : 0 < tss) by lra.
  assert (Hdca_util : StrategyComparison.dca_util mt == 100).
  { unfold mt, StrategyComparison.metrics. cbn [StrategyComparison.dca_util]. field. lra. }
  assert (Hdip_util : StrategyComparison.dip_util mt = ti / tss * 100) by reflexivity.
  assert (Hpoint : 0 < cash ->
                   Qlt_bool (StrategyComparison.dip_util mt) (StrategyComparison.dca_util mt)
                   = true).
  { intro Hcash. rewrite Qlt_bool_true, Hdca_util, Hdip_util, (pct_lt_iff ti tss 100 Htss).
    lra. }
  split; [exact Hdca_util|]. rewrite Hdip_util at 1.
  split; [apply pct_gt_iff; lra|].
  split.
  { intro Hcash. split; [exact (Hpoint Hcash)|].
    unfold StrategyComparison.tally. rewrite (Hpoint Hcash).
    destruct (Qlt_bool (StrategyComparison.dip_btc mt) (StrategyComparison.dca_btc mt));
      destruct (Qlt_bool (StrategyComparison.dca_avg mt) (StrategyComparison.dip_avg mt));
      destruct (Qlt_bool (StrategyComparison.dip_return mt) (StrategyComparison.dca_return mt));
      reflexivity. }
  intros Hcash Hbtc. apply Hpoint in Hcash. apply Qlt_bool_true in Hbtc.
  unfold StrategyComparison.print_comparison. fold mt.
  unfold StrategyComparison.winner, StrategyComparison.tally. rewrite Hcash, Hbtc.
  destruct (Qlt_bool (StrategyComparison.dca_avg mt) (StrategyComparison.dip_avg mt));
    destruct (Qlt_bool (StrategyComparison.dip_return mt) (StrategyComparison.dca_return mt));
    eexists; reflexivity.
Qed.

(** The theorem at [three_months]. *)
Lemma comparison_utilisation_point_witness :
  exists dca_r dip_r,
    StrategyComparison.run_all_strategies three_months 10000 (-5) 5
    = Return (Some dca_r, Some dip_r)
    /\ StrategyComparison.dca_util (StrategyComparison.metrics dca_r dip_r) == 100.
Proof.
  destruct (StrategyComparison.run_all_strategies three_months 10000 (-5) 5)
    as [[[dca_r|] [dip_r|]]|e] eqn:E; try (vm_compute in E; discriminate).
  exists dca_r, dip_r. split; [reflexivity|].
  apply (comparison_utilisation_point three_months 10000 (-5) 5 dca_r dip_r E).
Defined.
(* ===================================================================== *)
(** * The drops report: bounds on the drawdown *)
(* ===================================================================== *)

(** [(l - m) / m * 100 <= (c - o) / o * 100] when [l / m <= c / o]. *)
Lemma pct_change_le (l m c o : Q) :
  0 < m -> 0 < o -> l * o <= c * m -> (l - m) / m * 100 <= (c - o) / o * 100.
Proof.
  intros Hm Ho H. apply pct_le_iff; [exact Hm|].
  assert (E : (c - o) / o * 100 * m == (c - o) * m * 100 / o) by (field; lra).
  rewrite E. apply Qdiv_ge_iff; [exact Ho|]. nra.
Qed.

Lemma pct_change_bounds (l m : Q) :
  0 < l -> l <= m -> -100 < (l - m) / m * 100 /\ (l - m) / m * 100 <= 0.
Proof.
  intros Hl Hm. split; [apply pct_gt_iff | apply pct_le_iff]; lra.
Qed.

Lemma Qmin_case (P : Q -> Prop) (a b : Q) : P a -> P b -> P (Qmin a b).
Proof.
  intros Ha Hb. destruct (Q.min_spec a b) as [[_ E]|[_ E]].
  - unfold Qmin, GenericMinMax.gmin in *. destruct (a ?= b); assumption.
  - unfold Qmin, GenericMinMax.gmin in *. destruct (a ?= b); assumption.
Qed.

Lemma fold_Qmin_case (P : Q -> Prop) (xs : list Q) :
  forall x, P x -> Forall P xs -> P (fold_left Qmin xs x).
Proof.
  induction xs as [|y ys IH]; intros x Hx Hall; simpl; [exact Hx|].
  inversion Hall; subst. apply IH; [apply Qmin_case; assumption | assumption].
Qed.

Lemma fold_Qmin_le (xs : list Q) :
  forall x, fold_left Qmin xs x <= x /\ Forall (fun y => fold_left Qmin xs x <= y) xs.
Proof.
  induction xs as [|y ys IH]; intro x; simpl; [split; [apply Qle_refl | constructor]|].
  destruct (IH (Qmin x y)) as (H1 & H2).
  pose proof (Q.le_min_l x y). pose proof (Q.le_min_r x y).
  split; [lra|]. constructor; [lra | exact H2].
Qed.

Lemma fold_Qmin_mono (xs ys : list Q) :
  Forall2 Qle xs ys ->
  forall x y, x <= y -> fold_left Qmin xs x <= fold_left Qmin ys y.
Proof.
  induction 1 as [|a b xs ys Hab _ IH]; intros x y Hxy; simpl; [exact Hxy|].
  apply IH. apply Q.min_le_compat; assumption.
Qed.

(** The least of a series is below each of its elements and is one of
    them up to the property it is asked about. *)
Lemma series_min_le (xs : list Q) (a y : Q) :
  AnalyzeDrops.series_min xs = Return a -> In y xs -> a <= y.
Proof.
  destruct xs as [|x rest]; [discriminate|]. simpl. intro H. injection H as <-.
  destruct (fold_Qmin_le rest x) as (H1 & H2). intros [<-|Hin]; [exact H1|].
  rewrite Forall_forall in H2. apply H2. exact Hin.
Qed.

Lemma series_min_case (P : Q -> Prop) (xs : list Q) (a : Q) :
  AnalyzeDrops.series_min xs = Return a -> Forall P xs -> P a.
Proof.
  destruct xs as [|x rest]; [discriminate|]. simpl. intros H Hall. injection H as <-.
  inversion Hall; subst. apply fold_Qmin_case; assumption.
Qed.

Lemma series_min_mono (xs ys : list Q) (a b : Q) :
  AnalyzeDrops.series_min xs = Return a -> AnalyzeDrops.series_min ys = Return b ->
  Forall2 Qle xs ys -> a <= b.
Proof.
  intros Ha Hb H. destruct H as [|x y xs ys Hxy H]; [discriminate|].
  simpl in Ha, Hb. injection Ha as <-. injection Hb as <-.
  apply fold_Qmin_mono; assumption.
Qed.

Section Drawdown.

Let drawdown (l m : Q) : Q := (l - m) / m * 100.
Let drop (row : Bar) : Q := (close row - open row) / open row * 100.

Let bar_ok (row : Bar) : Prop :=
  0 < low row /\ low row <= open row /\ open row <= high row
  /\ low row <= close row /\ close row <= high row.

(** Below the running maximum [m] of earlier highs: every drawdown lies in
    (-100, 0] and is at most the intrabar return of its row. *)
Lemma drawdown_from (rows : DataFrame) :
  Forall bar_ok rows ->
  forall m,
    Forall (fun d => -100 < d /\ d <= 0)
      (zip_with drawdown (map low rows) (AnalyzeDrops.cummax_from m (map high rows)))
    /\ Forall2 Qle
         (zip_with drawdown (map low rows) (AnalyzeDrops.cummax_from m (map high rows)))
         (map drop rows).
Proof.
  induction 1 as [|row rows (Hl & Hlo & Hoh & Hlc & Hch) _ IH]; intro m; simpl.
  { split; constructor. }
  destruct (IH (Qmax m (high row))) as (H1 & H2).
  pose proof (Q.le_max_r m (high row)) as Hmax.
  set (mx := Qmax m (high row)) in *.
  split; constructor; try assumption.
  - apply pct_change_bounds; lra.
  - apply pct_change_le; try lra. nra.
Qed.

(** The drawdown of the last row is at most the change from an earlier
    open to the last close. *)
Lemma drawdown_last (rows : DataFrame) :
  Forall bar_ok rows ->
  forall m o last,
    iloc_last rows = Return last -> 0 < o -> o <= m ->
    exists d,
      In d (zip_with drawdown (map low rows) (AnalyzeDrops.cummax_from m (map high rows)))
      /\ d <= (close last - o) / o * 100.
Proof.
  induction 1 as [|row rows (Hl & Hlo & Hoh & Hlc & Hch) Hall IH]; intros m o last Hlast Ho Hm;
    [discriminate|].
  pose proof (Q.le_max_l m (high row)) as Hmax.
  destruct rows as [|row' rows'].
  - simpl in Hlast. injection Hlast as <-. simpl. eexists. split; [left; reflexivity|].
    set (mx := Qmax m (high row)) in *. apply pct_change_le; try lra. nra.
  - destruct (IH (Qmax m (high row)) o last) as (d & Hd & Hle); [exact Hlast | exact Ho | lra|].
    exists d. split; [right; exact Hd | exact Hle].
Qed.

(** The entry of a month of well-formed bars. *)
Lemma month_entry_bounds (period : Z * Z) (group : DataFrame) (e : AnalyzeDrops.Entry) :
  Forall bar_ok group ->
  AnalyzeDrops.month_entry period group = Return e ->
  -100 < AnalyzeDrops.Max_Drawdown_pct e
  /\ AnalyzeDrops.Max_Drawdown_pct e <= 0
  /\ AnalyzeDrops.Max_Drawdown_pct e <= AnalyzeDrops.Max_Daily_Drop_pct e
  /\ AnalyzeDrops.Max_Drawdown_pct e <= AnalyzeDrops.Return_pct e
  /\ (forall row, In row group -> AnalyzeDrops.Max_Daily_Drop_pct e <= drop row).
Proof.
  intros Hall He. destruct group as [|first rest]; [discriminate|].
  inversion Hall as [|x xs (Hl & Hlo & Hoh & Hlc & Hch) Hrest]; subst.
  unfold AnalyzeDrops.month_entry in He. cbn [map iloc_first bind] in He.
  destruct (iloc_last (close first :: map close rest)) as [cp|] eqn:Ecp; [|discriminate].
  cbn [bind AnalyzeDrops.cummax zip_with] in He.
  set (dds := (low first - high first) / high first * 100
              :: zip_with (fun l m => (l - m) / m * 100) (map low rest)
                   (AnalyzeDrops.cummax_from (high first) (map high rest))) in *.
  destruct (AnalyzeDrops.series_min dds) as [dd|] eqn:Edd; [|discriminate].
  cbn [bind] in He.
  set (drops := (close first - open first) / open first * 100
                :: map (fun row => (close row - open row) / open row * 100) rest) in *.
  destruct (AnalyzeDrops.series_min drops) as [dr|] eqn:Edr; [|discriminate].
  cbn [bind] in He. injection He as <-.
  cbn [AnalyzeDrops.Max_Drawdown_pct AnalyzeDrops.Max_Daily_Drop_pct AnalyzeDrops.Return_pct].
  destruct (drawdown_from rest Hrest (high first)) as (Hb & Hle).
  assert (Hdd0 : -100 < (low first - high first) / high first * 100
                 /\ (low first - high first) / high first * 100 <= 0)
    by (apply pct_change_bounds; lra).
  assert (Hfirst : (low first - high first) / high first * 100
                   <= (close first - open first) / open first * 100)
    by (apply pct_change_le; try lra; nra).
  assert (Hbounds : -100 < dd /\ dd <= 0).
  { apply (series_min_case (fun d => -100 < d /\ d <= 0) dds dd Edd).
    constructor; [exact Hdd0 | exact Hb]. }
  split; [tauto|]. split; [tauto|]. split.
  { apply (series_min_mono dds drops dd dr Edd Edr). constructor; [exact Hfirst | exact Hle]. }
  split.
  { assert (Hlast : exists last, iloc_last (first :: rest) = Return last /\ cp = close last).
    { destruct (iloc_last_nonempty (first :: rest)) as [last Hlast]; [discriminate|].
      exists last. split; [exact Hlast|].
      pose proof (iloc_last_map close _ _ Hlast) as H. cbn [map] in H. congruence. }
    destruct Hlast as (last & Hlast & ->).
    destruct rest as [|row' rows'].
    - simpl in Hlast. injection Hlast as <-.
      apply Qle_trans with (2 := Hfirst). apply (series_min_le dds dd _ Edd). left. reflexivity.
    - destruct (drawdown_last (row' :: rows') Hrest (high first) (open first) last)
        as (d & Hd & Hdle); [exact Hlast | lra | lra|].
      apply Qle_trans with (2 := Hdle). apply (series_min_le dds dd _ Edd). right. exact Hd. }
  intros row Hin. apply (series_min_le drops dr _ Edr).
  destruct Hin as [<-|Hin]; [left; reflexivity|]. right.
  apply in_map_iff. exists row. split; [reflexivity | exact Hin].
Qed.

End Drawdown.

Lemma collect_In (df : DataFrame) (periods : list (Z * Z)) (es : list AnalyzeDrops.Entry) :
  AnalyzeDrops.collect df periods = Return es ->
  forall e, In e es ->
    exists p, In p periods
              /\ AnalyzeDrops.month_entry p (month_rows df (fst p) (snd p)) = Return e.
Proof.
  revert es. induction periods as [|p ps IH]; intros es H e Hin; simpl in H.
  - injection H as <-. destruct Hin.
  - destruct (AnalyzeDrops.month_entry p (month_rows df (fst p) (snd p))) as [e0|] eqn:E0;
      [|discriminate]. cbn [bind] in H.
    destruct (AnalyzeDrops.collect df ps) as [es0|] eqn:E1; [|discriminate].
    cbn [bind] in H. injection H as <-. destruct Hin as [<-|Hin].
    + exists p. split; [left; reflexivity | exact E0].
    + destruct (IH es0 eq_refl e Hin) as (q & Hq & He). exists q. split; [right; exact Hq | exact He].
Qed.

(** X13. In the report of [analyze_drops] on a frame of well-formed bars
    (a positive low, open and close between low and high), every month's
    maximum drawdown lies in (-100, 0] percent, and it is at least as deep
    as the month's worst single-day drop and as the month's return: both
    of these are never below the drawdown.  The worst single-day drop is
    at most the intrabar return of every bar of the month. *)
Theorem drops_drawdown_is_deepest (df : DataFrame) (es : list AnalyzeDrops.Entry)
    (e : AnalyzeDrops.Entry) :
  well_formed_bars df ->
  AnalyzeDrops.results df = Return es ->
  In e es ->
  -100 < AnalyzeDrops.Max_Drawdown_pct e
  /\ AnalyzeDrops.Max_Drawdown_pct e <= 0
  /\ AnalyzeDrops.Max_Drawdown_pct e <= AnalyzeDrops.Max_Daily_Drop_pct e
  /\ AnalyzeDrops.Max_Drawdown_pct e <= AnalyzeDrops.Return_pct e
  /\ (forall row,
         In row (month_rows df (fst (AnalyzeDrops.Period e)) (snd (AnalyzeDrops.Period e))) ->
         AnalyzeDrops.Max_Daily_Drop_pct e <= (close row - open row) / open row * 100).
Proof.
  intros Hwf Hres Hin.
  destruct (collect_In df (group_keys df) es Hres e Hin) as (p & _ & He).
  assert (Hp : AnalyzeDrops.Period e = p).
  { unfold AnalyzeDrops.month_entry in He.
    destruct (iloc_first _); [|discriminate]. cbn [bind] in He.
    destruct (iloc_last _); [|discriminate]. cbn [bind] in He.
    destruct (AnalyzeDrops.series_min _); [|discriminate]. cbn [bind] in He.
    destruct (AnalyzeDrops.series_min _); [|discriminate]. cbn [bind] in He.
    injection He as <-. reflexivity. }
  rewrite Hp. apply (month_entry_bounds p (month_rows df (fst p) (snd p)) e); [|exact He].
  unfold well_formed_bars in Hwf. rewrite Forall_forall in Hwf |- *.
  intros row Hrow. apply Hwf. apply month_rows_In in Hrow. tauto.
Qed.

(** The theorem at [three_months]. *)
Lemma drops_drawdown_is_deepest_witness :
  exists es e,
    AnalyzeDrops.results three_months = Return es
    /\ In e es
    /\ AnalyzeDrops.Max_Drawdown_pct e <= AnalyzeDrops.Return_pct e.
Proof.
  destruct (AnalyzeDrops.results three_months) as [[|e es]|err] eqn:E;
    try (vm_compute in E; discriminate).
  exists (e :: es), e. split; [reflexivity|]. split; [left; reflexivity|].
  apply (drops_drawdown_is_deepest three_months (e :: es) e).
  - repeat (constructor; [vm_compute; intuition discriminate|]). constructor.
  - exact E.
  - left. reflexivity.
Defined.
(* ===================================================================== *)
(** * The cells of the seasonality pivot *)
(* ===================================================================== *)

Section SeasonalityCells.

Import MonthlyPatterns.

(** The month-end value of the calendar month of ordinal [o]. *)
Variable h : Z -> option Q.

Lemma Zrange_bounds (n : nat) :
  forall lo o, In o (Zrange lo n) -> (lo <= o < lo + Z.of_nat n)%Z.
Proof.
  induction n as [|n IH]; intros lo o H; [destruct H|].
  destruct H as [<-|H]; [lia|]. apply IH in H. lia.
Qed.

(** With or without filling, a change is present only from the second
    month of the range on, unless a value precedes the range. *)
Lemma cells_in_range (pad : bool) (n : nat) :
  forall lo prev o r,
    In (o, Some r)
      (combine (Zrange lo n)
         (map (option_map (fun r => r * 100)) (pct_change_from pad prev (map h (Zrange lo n))))) ->
    (lo <= o < lo + Z.of_nat n)%Z /\ (o = lo -> prev <> None).
Proof.
  induction n as [|n IH]; intros lo prev o r H; [destruct H|].
  cbn [Zrange map pct_change_from combine] in H. destruct H as [H|H].
  - injection H as <- Hr. split; [lia|]. intros _ ->.
    destruct (match h lo with Some _ => h lo | None => if pad then None else None end);
      discriminate.
  - apply IH in H. destruct H as (Hb & _). split; lia.
Qed.


(** With filling, after a value every month has a change. *)
Lemma cells_with_filling (n : nat) :
  forall lo a,
    exists rs,
      pct_change_from true (Some a) (map h (Zrange lo n)) = map Some rs
      /\ length rs = n.
Proof.
  induction n as [|n IH]; intros lo a; [exists []; split; reflexivity|].
  cbn [Zrange map pct_change_from].
  destruct (h lo) as [b|].
  - destruct (IH (lo + 1)%Z b) as (rs & E & Hlen). exists ((b / a - 1) :: rs).
    cbn [ratio map length]. rewrite E, Hlen. split; reflexivity.
  - destruct (IH (lo + 1)%Z a) as (rs & E & Hlen). exists ((a / a - 1) :: rs).
    cbn [ratio map length]. rewrite E, Hlen. split; reflexivity.
Qed.

(** With filling and positive values, the change of a month without a
    value is zero. *)
Lemma filled_months_return_zero (n : nat) :
  (forall o b, h o = Some b -> 0 < b) ->
  forall lo a o r,
    0 < a ->
    In (o, Some r)
      (combine (Zrange lo n)
         (map (option_map (fun r => r * 100))
            (pct_change_from true (Some a) (map h (Zrange lo n))))) ->
    h o = None -> r == 0.
Proof.
  intro Hpos. induction n as [|n IH]; intros lo a o r Ha H Ho; [destruct H|].
  cbn [Zrange map pct_change_from combine] in H. destruct H as [H|H].
  - injection H as <- Hr. rewrite Ho in Hr. cbn [ratio option_map] in Hr.
    injection Hr as <-. field. lra.
  - destruct (h lo) as [b|] eqn:Eb.
    + apply (IH (lo + 1)%Z b o r); [apply (Hpos lo); exact Eb | exact H | exact Ho].
    + apply (IH (lo + 1)%Z a o r); assumption.
Qed.

End SeasonalityCells.

Lemma combine_map_l {A B C : Type} (f : A -> B) (xs : list A) (ys : list C) (k : B) (v : C) :
  In (k, v) (combine (map f xs) ys) -> exists x, k = f x /\ In (x, v) (combine xs ys).
Proof.
  revert ys. induction xs as [|x xs IH]; intros ys H; [destruct H|].
  destruct ys as [|y ys]; [destruct H|]. destruct H as [H|H].
  - injection H as <- <-. exists x. split; [reflexivity | left; reflexivity].
  - destruct (IH ys H) as (x' & E & Hin). exists x'. split; [exact E | right; exact Hin].
Qed.

Lemma seasonality_In (pad : bool) (df : DataFrame) (y m : Z) (r : Q) :
  In (y, m, r) (MonthlyPatterns.seasonality pad df)
  <-> In ((y, m), Some r) (MonthlyPatterns.monthly_returns pad df).
Proof.
  unfold MonthlyPatterns.seasonality. rewrite in_flat_map. split.
  - intros ([[y' m'] [r'|]] & Hin & Hc); [|destruct Hc].
    destruct Hc as [Hc|[]]. cbn [fst snd] in Hc. injection Hc as -> -> ->. exact Hin.
  - intro Hin. exists ((y, m), Some r). split; [exact Hin | left; reflexivity].
Qed.

Lemma latest_nil_iff (rows : DataFrame) : MonthlyPatterns.latest rows = None <-> rows = [].
Proof.
  split; [|intros ->; reflexivity].
  destruct rows as [|r rows]; [reflexivity|]. intro H.
  destruct (latest_some (r :: rows)) as (b & Hb & _); [discriminate|]. congruence.
Qed.

Lemma latest_In (rows : DataFrame) (b : Bar) : MonthlyPatterns.latest rows = Some b -> In b rows.
Proof.
  intro H. destruct rows as [|r rows]; [discriminate|].
  destruct (latest_some (r :: rows)) as (b' & Hb & Hin); [discriminate|]. congruence.
Qed.

(** The returns by bin, with the bins as ordinals of calendar months. *)
Lemma monthly_returns_by_ordinal (pad : bool) (df : DataFrame) (first : Z * Z)
    (rest : list (Z * Z)) :
  group_keys df = first :: rest ->
  let h := fun o =>
             option_map close
               (MonthlyPatterns.latest
                  (month_rows df (fst (MonthlyPatterns.of_ord o))
                     (snd (MonthlyPatterns.of_ord o)))) in
  let zs := MonthlyPatterns.Zrange (MonthlyPatterns.ord first)
              (Z.to_nat (MonthlyPatterns.ord (List.last (first :: rest) first)
                         - MonthlyPatterns.ord first + 1)) in
  MonthlyPatterns.bins df = map MonthlyPatterns.of_ord zs
  /\ MonthlyPatterns.monthly_returns pad df
     = combine (map MonthlyPatterns.of_ord zs)
         (map (option_map (fun r => r * 100))
            (MonthlyPatterns.pct_change_from pad None (map h zs))).
Proof.
  intros Hkeys h zs.
  assert (Hbins : MonthlyPatterns.bins df = map MonthlyPatterns.of_ord zs).
  { unfold MonthlyPatterns.bins. rewrite Hkeys. reflexivity. }
  split; [exact Hbins|].
  rewrite monthly_returns_by_bin, Hbins. unfold MonthlyPatterns.pct_change.
  rewrite map_map. reflexivity.
Qed.



Lemma Zrange_length (n : nat) : forall lo, length (MonthlyPatterns.Zrange lo n) = n.
Proof. induction n as [|n IH]; intro lo; simpl; [reflexivity | rewrite IH; reflexivity]. Qed.

Lemma cells_of_present_returns (ks : list (Z * Z)) :
  forall rs : list Q,
    length rs = length ks ->
    map (fun c => (fst (fst c), snd (fst c)))
      (flat_map (fun kr : (Z * Z) * option Q =>
                   match snd kr with
                   | Some r => [(fst (fst kr), snd (fst kr), r)]
                   | None => []
                   end) (combine ks (map Some rs)))
    = ks.
Proof.
  induction ks as [|[y m] ks IH]; intros rs Hlen; [reflexivity|].
  destruct rs as [|r rs]; [discriminate|]. cbn [map combine flat_map snd fst app].
  rewrite IH by (simpl in Hlen; lia). reflexivity.
Qed.

(** X15. The cells of the seasonality pivot when [pct_change] fills
    missing values forward (the default before pandas 3), on a frame with
    calendar months and positive closes: every calendar month from the
    second month of the frame to its last month has a cell, in calendar
    order, whether it has bars or not, and a month without bars enters the
    pivot with a return of zero. *)
Theorem seasonality_cells_with_filling (df : DataFrame) :
  calendar_months df ->
  positive_closes df ->
  map (fun c => (fst (fst c), snd (fst c))) (MonthlyPatterns.seasonality true df)
  = tl (MonthlyPatterns.bins df)
  /\ forall y m r,
      In (y, m, r) (MonthlyPatterns.seasonality true df) ->
      month_rows df y m = [] -> r == 0.
Proof.
  intros Hcal Hpos.
  destruct (group_keys df) as [|first rest] eqn:Hkeys.
  { assert (E : MonthlyPatterns.bins df = []).
    { unfold MonthlyPatterns.bins. rewrite Hkeys. reflexivity. }
    unfold MonthlyPatterns.seasonality, MonthlyPatterns.monthly_returns,
      MonthlyPatterns.monthly_close. rewrite E. split; [reflexivity | intros y m r []]. }
  destruct (monthly_returns_by_ordinal true df first rest Hkeys) as (Hbins & Hret).
  set (h := fun o =>
              option_map close
                (MonthlyPatterns.latest
                   (month_rows df (fst (MonthlyPatterns.of_ord o))
                      (snd (MonthlyPatterns.of_ord o))))) in *.
  set (n := Z.to_nat (MonthlyPatterns.ord (List.last (first :: rest) first)
                      - MonthlyPatterns.ord first + 1)) in *.
  assert (Hfirst_in : In first (group_keys df)) by (rewrite Hkeys; left; reflexivity).
  assert (Hvalid : (1 <= snd first <= 12)%Z).
  { apply group_keys_In in Hfirst_in. destruct Hfirst_in as [row [Hin <-]].
    unfold calendar_months in Hcal. rewrite Forall_forall in Hcal. apply Hcal. exact Hin. }
  assert (Hh_pos : forall o b, h o = Some b -> 0 < b).
  { intros o b Hb. unfold h in Hb.
    destruct (MonthlyPatterns.latest _) as [bk|] eqn:Ebk; [|discriminate].
    cbn [option_map] in Hb. injection Hb as <-.
    apply latest_In in Ebk. apply month_rows_In in Ebk. destruct Ebk as (Hin & _).
    unfold positive_closes in Hpos. rewrite Forall_forall in Hpos. auto. }
  assert (Hh0 : exists a0, h (MonthlyPatterns.ord first) = Some a0).
  { unfold h. rewrite (of_ord_ord first Hvalid).
    destruct (latest_some _ (month_rows_nonempty df first Hfirst_in)) as (b & Hb & _).
    rewrite Hb. eexists. reflexivity. }
  destruct Hh0 as (a0 & Ha0).
  destruct n as [|n'] eqn:En.
  { unfold MonthlyPatterns.seasonality. rewrite Hret, Hbins.
    split; [reflexivity | intros y m r []]. }
  cbn [MonthlyPatterns.Zrange map MonthlyPatterns.pct_change_from] in Hbins, Hret.
  rewrite Ha0 in Hret. cbn [MonthlyPatterns.ratio option_map combine] in Hret.
  destruct (cells_with_filling h n' (MonthlyPatterns.ord first + 1)%Z a0) as (rs & Ers & Hlen).
  split.
  - unfold MonthlyPatterns.seasonality. rewrite Hret, Hbins, Ers. cbn [flat_map snd app tl].
    rewrite map_map. cbn [option_map].
    rewrite <- (map_map (fun r => r * 100) Some).
    apply cells_of_present_returns. rewrite !length_map, Hlen, Zrange_length. reflexivity.
  - intros y m r Hin Hempty. apply seasonality_In in Hin. rewrite Hret in Hin.
    destruct Hin as [Hin|Hin]; [discriminate|].
    apply combine_map_l in Hin. destruct Hin as (o & Hk & Hin).
    apply (filled_months_return_zero h n' Hh_pos _ a0 o r (Hh_pos _ _ Ha0) Hin).
    unfold h. rewrite <- Hk. cbn [fst snd]. rewrite Hempty. reflexivity.
Qed.

(** The theorem at [gapped]: February 2024 has no bar and enters the
    pivot between January and March. *)
Lemma seasonality_cells_with_filling_witness :
  map (fun c => (fst (fst c), snd (fst c))) (MonthlyPatterns.seasonality true gapped)
  = [(2024, 2)%Z; (2024, 3)%Z].
Proof.
  apply (proj1 (seasonality_cells_with_filling gapped
                  ltac:(repeat (constructor; [simpl; lia|]); constructor)
                  ltac:(repeat constructor))).
Defined.

(** X16. With or without filling, no cell of the seasonality pivot lies
    outside the frame's months or in its first month: every cell belongs
    to a calendar month strictly after the first month that has a bar and
    not after the last one. *)
Theorem seasonality_cells_after_first_month (pad : bool) (df : DataFrame)
    (first : Z * Z) (rest : list (Z * Z)) (y m : Z) (r : Q) :
  group_keys df = first :: rest ->
  In (y, m, r) (MonthlyPatterns.seasonality pad df) ->
  (MonthlyPatterns.ord first < MonthlyPatterns.ord (y, m)
   <= MonthlyPatterns.ord (List.last (first :: rest) first))%Z.
Proof.
  intros Hkeys Hin. apply seasonality_In in Hin.
  destruct (monthly_returns_by_ordinal pad df first rest Hkeys) as (_ & Hret).
  rewrite Hret in Hin. apply combine_map_l in Hin. destruct Hin as (o & Hk & Hin).
  apply cells_in_range in Hin. destruct Hin as (Hb & Hne).
  assert (Ho : MonthlyPatterns.ord (y, m) = o) by (rewrite Hk; apply ord_of_ord).
  rewrite Ho.
  assert (o <> MonthlyPatterns.ord first) by (intro E; apply (Hne E); reflexivity).
  lia.
Qed.

(** The theorem at [three_months]. *)
Lemma seasonality_cells_after_first_month_witness :
  (MonthlyPatterns.ord (2024, 1) < MonthlyPatterns.ord (2024, 2)
   <= MonthlyPatterns.ord (2024, 3))%Z.
Proof.
  apply (seasonality_cells_after_first_month false three_months (2024, 1)%Z
           [(2024, 2)%Z; (2024, 3)%Z] 2024 2 ((120 / 100 - 1) * 100)).
  - reflexivity.
  - vm_compute. left. reflexivity.
Defined.
(* ===================================================================== *)
(** * The cumulative return of an August *)
(* ===================================================================== *)

Lemma unique_In (xs : list Z) (y : Z) : In y (AugustReport.unique xs) <-> In y xs.
Proof.
  induction xs as [|x xs IH]; simpl; [tauto|]. rewrite filter_In, IH. split.
  - intros [H|[H _]]; auto.
  - intros [H|H]; [left; exact H|]. destruct (Z.eq_dec x y) as [E|E]; [left; exact E|].
    right. split; [exact H|]. apply negb_true_iff. apply Z.eqb_neq. congruence.
Qed.

Lemma filter_all {A : Type} (f : A -> bool) (xs : list A) :
  Forall (fun x => f x = true) xs -> filter f xs = xs.
Proof.
  induction 1 as [|x xs Hx _ IH]; simpl; [reflexivity|]. rewrite Hx, IH. reflexivity.
Qed.

Lemma iloc_last_cons {A : Type} (x : A) (xs : list A) :
  xs <> [] -> iloc_last (x :: xs) = iloc_last xs.
Proof. destruct xs; [congruence | reflexivity]. Qed.

Section AugustTotals.

Import AnalyzeAugust.

(** The column of a frame after a row that closed at [p]. *)
Let column (p : Q) (xs : DataFrame) : list Row :=
  zip_with mkRow xs (map (option_map (fun r => r * 100)) (pct_change_from p (map close xs))).

Let last_close (p : Q) (xs : DataFrame) : Q := fold_left (fun _ row => close row) xs p.

Lemma with_own_returns_cons (x : Bar) (xs : DataFrame) :
  with_own_returns (x :: xs) = mkRow x None :: column (close x) xs.
Proof. reflexivity. Qed.

Lemma column_cons (p : Q) (x : Bar) (xs : DataFrame) :
  column p (x :: xs) = mkRow x (Some ((close x / p - 1) * 100)) :: column (close x) xs.
Proof. reflexivity. Qed.

Lemma column_app (xs ys : DataFrame) :
  forall p, column p (xs ++ ys) = column p xs ++ column (last_close p xs) ys.
Proof.
  induction xs as [|x xs IH]; intro p; [reflexivity|].
  cbn [app]. rewrite !column_cons, IH. reflexivity.
Qed.

Lemma column_bars (xs : DataFrame) : forall p, map bar (column p xs) = xs.
Proof.
  induction xs as [|x xs IH]; intro p; [reflexivity|].
  rewrite column_cons. cbn [map bar]. rewrite IH. reflexivity.
Qed.

(** The frame with its column, around a block of rows that follows a
    row [prev]. *)
Lemma with_own_returns_block (pre : DataFrame) (prev : Bar) (block post : DataFrame) :
  exists before a after,
    with_own_returns (pre ++ prev :: block ++ post)
    = before ++ a :: column (close prev) block ++ after
    /\ map bar before = pre /\ bar a = prev /\ map bar after = post.
Proof.
  destruct pre as [|x pre].
  - exists [], (mkRow prev None), (column (last_close (close prev) block) post).
    cbn [app]. rewrite with_own_returns_cons, column_app, column_bars.
    repeat split; reflexivity.
  - cbn [app]. rewrite with_own_returns_cons, column_app, column_cons, column_app.
    exists (mkRow x None :: column (close x) pre).
    eexists. eexists. split; [reflexivity|].
    cbn [map bar]. rewrite !column_bars. repeat split; reflexivity.
Qed.

(** Every row of a sub-frame receives the value stored under its label. *)
Lemma assign_from_part (rows : list Row) :
  NoDup (map (fun r => date (bar r)) rows) ->
  forall sub part,
    (forall r, In r part -> In r rows) ->
    map bar sub = map bar part ->
    assign_from rows sub = Return part.
Proof.
  intros Hnd sub. induction sub as [|s sub IH]; intros part Hin Hbars.
  - destruct part; [reflexivity | discriminate].
  - destruct part as [|p part]; [discriminate|]. cbn [map] in Hbars.
    injection Hbars as Hs Hrest. cbn [assign_from].
    rewrite Hs, (loc_return_unique rows p Hnd (Hin p (or_introl eq_refl))). cbn [bind].
    rewrite (IH part (fun r Hr => Hin r (or_intror Hr)) Hrest). cbn [bind].
    destruct p. reflexivity.
Qed.

Lemma filter_bars (f : Bar -> bool) (rows : list Row) :
  map bar (filter (fun r => f (bar r)) rows) = filter f (map bar rows).
Proof.
  induction rows as [|r rows IH]; simpl; [reflexivity|].
  destruct (f (bar r)); simpl; rewrite IH; reflexivity.
Qed.

(** With unique labels, [august_data] is the August rows of the frame
    with the column computed on the whole frame. *)
Lemma august_data_is_filter (df : DataFrame) :
  NoDup (map date df) ->
  august_data df
  = Return (filter (fun r => (month (date (bar r)) =? 8)%Z) (with_own_returns df)).
Proof.
  intro Hnd. unfold august_data.
  assert (Hbars : map bar (with_own_returns df) = df).
  { apply zip_with_bars. rewrite pct_change_100_length, length_map. reflexivity. }
  apply assign_from_part.
  - replace (map (fun r => date (bar r)) (with_own_returns df)) with (map date df); [exact Hnd|].
    rewrite <- Hbars at 1. rewrite map_map. reflexivity.
  - intros r Hr. apply filter_In in Hr. tauto.
  - rewrite (filter_bars (fun b => (month (date b) =? 8)%Z)), Hbars.
    apply zip_with_bars. rewrite pct_change_100_length, length_map. reflexivity.
Qed.

(** The running product of the factors of a block telescopes to the last
    close over the close before the block. *)
Lemma cumprod_telescopes (block : DataFrame) :
  Forall (fun row => 0 < close row) block ->
  forall p acc last,
    0 < p ->
    iloc_last block = Return last ->
    exists v,
      iloc_last
        (AugustReport.cumprod_from acc
           (map (fun r => option_map (fun d => 1 + d / 100) (daily_return r))
              (column p block)))
      = Return (Some v)
      /\ v == match acc with None => 1 | Some a => a end * (close last / p).
Proof.
  induction 1 as [|x xs Hx Hall IH]; intros p acc last Hp Hlast; [discriminate|].
  rewrite column_cons. cbn [map daily_return option_map AugustReport.cumprod_from].
  set (f := 1 + (close x / p - 1) * 100 / 100).
  set (acc' := match acc with None => f | Some a => a * f end).
  assert (Hacc : acc' == match acc with None => 1 | Some a => a end * (close x / p)).
  { unfold acc', f. destruct acc; field; lra. }
  destruct xs as [|x' xs'].
  - simpl in Hlast. injection Hlast as <-. exists acc'. split; [reflexivity | exact Hacc].
  - rewrite iloc_last_cons in Hlast by discriminate.
    destruct (IH (close x) (Some acc') last Hx Hlast) as (v & Hv & Hval).
    exists v. split.
    + rewrite iloc_last_cons; [exact Hv|]. rewrite column_cons. discriminate.
    + rewrite Hval, Hacc. field. split; lra.
Qed.

Lemma cumulative_returns_nonempty (rows : list Row) :
  rows <> [] -> AugustReport.cumulative_returns rows <> [].
Proof.
  destruct rows as [|r rows]; [congruence|]. intros _.
  unfold AugustReport.cumulative_returns, AugustReport.cumprod. cbn [map].
  destruct (daily_return r); discriminate.
Qed.

(** The loop over the years returns when every year has rows, with the
    last cumulative return of each year. *)
Lemma total_returns_spec (august : list Row) (years : list Z) :
  (forall y, In y years -> AugustReport.year_rows august y <> []) ->
  exists finals,
    AugustReport.total_returns august years = Return finals
    /\ map fst finals = years
    /\ forall y v,
        In y years ->
        iloc_last (AugustReport.cumulative_returns (AugustReport.year_rows august y)) = Return v ->
        In (y, v) finals.
Proof.
  induction years as [|y years IH]; intro Hrows.
  - exists []. split; [reflexivity|]. split; [reflexivity | intros y v []].
  - destruct IH as (finals & Hf & Hkeys & Hin); [intros z Hz; apply Hrows; right; exact Hz|].
    destruct (iloc_last_nonempty
                (AugustReport.cumulative_returns (AugustReport.year_rows august y)))
      as (v0 & Hv0); [apply cumulative_returns_nonempty, Hrows; left; reflexivity|].
    cbn [AugustReport.total_returns]. rewrite Hv0, Hf. cbn [bind].
    exists ((y, v0) :: finals). split; [reflexivity|]. split; [simpl; congruence|].
    intros z v [<-|Hz] Hv.
    + left. congruence.
    + right. apply Hin; assumption.
Qed.

(** The rows of year [y] among the August rows, when the August of [y] is
    one block of rows. *)
Lemma year_rows_block (y : Z) (before block after : list Row) :
  Forall (fun r => year (date (bar r)) = y /\ month (date (bar r)) = 8%Z) block ->
  Forall (fun r => ~ (year (date (bar r)) = y /\ month (date (bar r)) = 8%Z))
    (before ++ after) ->
  AugustReport.year_rows
    (filter (fun r => (month (date (bar r)) =? 8)%Z) (before ++ block ++ after)) y
  = block.
Proof.
  intros Hblock Hout. unfold AugustReport.year_rows.
  assert (Hnone : forall rows,
             Forall (fun r => ~ (year (date (bar r)) = y /\ month (date (bar r)) = 8%Z)) rows ->
             filter (fun r => (year (date (bar r)) =? y)%Z)
               (filter (fun r => (month (date (bar r)) =? 8)%Z) rows) = []).
  { intros rows Hrows. apply filter_none. rewrite Forall_forall in Hrows |- *.
    intros r Hr. apply filter_In in Hr. destruct Hr as (Hin & Hm).
    apply Z.eqb_eq in Hm. apply Z.eqb_neq. intro Hy. apply (Hrows r Hin). tauto. }
  assert (Hall : filter (fun r => (year (date (bar r)) =? y)%Z)
                   (filter (fun r => (month (date (bar r)) =? 8)%Z) block)
                 = block).
  { rewrite (filter_all (fun r => (month (date (bar r)) =? 8)%Z)).
    - apply filter_all. apply Forall_impl with (2 := Hblock).
      intros r (Hy & _). apply Z.eqb_eq. exact Hy.
    - apply Forall_impl with (2 := Hblock). intros r (_ & Hm). apply Z.eqb_eq. exact Hm. }
  apply Forall_app in Hout. destruct Hout as (Hbefore & Hafter).
  rewrite !filter_app, Hall, (Hnone before Hbefore), (Hnone after Hafter).
  cbn [app]. apply app_nil_r.
Qed.

(** The rows of a column carry the bars of the block. *)
Lemma column_Forall (P : Bar -> Prop) (block : DataFrame) (p : Q) :
  Forall P block -> Forall (fun r => P (bar r)) (column p block).
Proof.
  intro H. rewrite Forall_forall in H |- *. intros r Hr. apply H.
  rewrite <- (column_bars block p). apply in_map. exact Hr.
Qed.

(** The frame with its column, when the block opens the frame. *)
Lemma with_own_returns_start (first : Bar) (rest post : DataFrame) :
  exists after,
    with_own_returns (first :: rest ++ post)
    = [] ++ (mkRow first None :: column (close first) rest) ++ after
    /\ map bar after = post.
Proof.
  exists (column (last_close (close first) rest) post).
  rewrite with_own_returns_cons, column_app, column_bars. split; reflexivity.
Qed.

End AugustTotals.

(** X17. The total return [analyze_august] prints for a year: on a frame
    with unique labels and positive closes in which the August bars of
    year [y] form one block of consecutive rows that follows a row
    [prev], the loop over the years returns and the compounded return of
    year [y] telescopes to the change from the close of [prev] (the last
    bar before August) to the close of the last August bar, in percent:
    the closes in between cancel. *)
Theorem august_total_return_telescopes (pre : DataFrame) (prev : Bar)
    (block post : DataFrame) (y : Z) :
  NoDup (map date (pre ++ prev :: block ++ post)) ->
  positive_closes (pre ++ prev :: block ++ post) ->
  block <> [] ->
  Forall (fun row => year (date row) = y /\ month (date row) = 8%Z) block ->
  Forall (fun row => ~ (year (date row) = y /\ month (date row) = 8%Z)) (pre ++ prev :: post) ->
  exists finals v last,
    AugustReport.august_total_returns (pre ++ prev :: block ++ post) = Return finals
    /\ In (y, Some v) finals
    /\ iloc_last block = Return last
    /\ v == (close last / close prev - 1) * 100.
Proof.
  intros Hnd Hpos Hne Hblock Hout.
  set (df := pre ++ prev :: block ++ post) in *.
  destruct (with_own_returns_block pre prev block post)
    as (before & a & after & Hcol & Hb & Ha & Haf). fold df in Hcol.
  set (B := zip_with AnalyzeAugust.mkRow block
              (map (option_map (fun r => r * 100))
                 (AnalyzeAugust.pct_change_from (close prev) (map close block)))) in *.
  set (august := filter (fun r => (month (date (AnalyzeAugust.bar r)) =? 8)%Z)
                   (AnalyzeAugust.with_own_returns df)).
  assert (Hyear : AugustReport.year_rows august y = B).
  { unfold august. rewrite Hcol.
    change (before ++ a :: B ++ after) with (before ++ [a] ++ B ++ after).
    rewrite app_assoc. apply year_rows_block.
    - apply (column_Forall (fun row => year (date row) = y /\ month (date row) = 8%Z)).
      exact Hblock.
    - rewrite Forall_forall in Hout |- *. intros r Hr. apply Hout.
      rewrite <- app_assoc in Hr. cbn [app] in Hr.
      apply in_app_or in Hr. apply in_or_app. destruct Hr as [Hr|[<-|Hr]].
      + left. rewrite <- Hb. apply in_map. exact Hr.
      + right. left. symmetry. exact Ha.
      + right. right. rewrite <- Haf. apply in_map. exact Hr. }
  assert (HB : B <> []).
  { intro E. apply Hne. rewrite <- (column_bars block (close prev)). fold B. rewrite E.
    reflexivity. }
  assert (Hrows : forall z,
             In z (AugustReport.unique
                     (map (fun r => year (date (AnalyzeAugust.bar r))) august)) ->
             AugustReport.year_rows august z <> []).
  { intros z Hz E. apply (proj1 (unique_In _ _)) in Hz. apply in_map_iff in Hz.
    destruct Hz as (r & Hr & Hin).
    assert (Hin' : In r (AugustReport.year_rows august z)).
    { unfold AugustReport.year_rows. apply filter_In. split; [exact Hin|].
      apply Z.eqb_eq. exact Hr. }
    rewrite E in Hin'. exact Hin'. }
  destruct (total_returns_spec august _ Hrows) as (finals & Hfin & _ & Hin).
  unfold positive_closes, df in Hpos.
  apply Forall_app in Hpos. destruct Hpos as (_ & Hpos).
  apply Forall_cons_iff in Hpos. destruct Hpos as (Hprev & Hpos').
  apply Forall_app in Hpos'. destruct Hpos' as (Hposb & _).
  destruct (iloc_last_nonempty block Hne) as (last & Hlast).
  destruct (cumprod_telescopes block Hposb (close prev) None last Hprev Hlast)
    as (v & Hv & Hval).
  exists finals, ((v - 1) * 100), last.
  split; [unfold AugustReport.august_total_returns; rewrite (august_data_is_filter df Hnd);
          cbn [bind]; exact Hfin|].
  split.
  - apply Hin.
    + apply (proj2 (unique_In _ _)). destruct B as [|r rs] eqn:EB; [congruence|].
      apply in_map_iff. exists r. split.
      * assert (Hbr : In (AnalyzeAugust.bar r) block).
        { rewrite <- (column_bars block (close prev)). apply in_map. fold B. rewrite EB.
          left. reflexivity. }
        rewrite Forall_forall in Hblock. apply Hblock. exact Hbr.
      * assert (Hr : In r (AugustReport.year_rows august y))
          by (rewrite Hyear; left; reflexivity).
        unfold AugustReport.year_rows in Hr. apply filter_In in Hr. tauto.
    + rewrite Hyear. unfold AugustReport.cumulative_returns, AugustReport.cumprod.
      apply (iloc_last_map (option_map (fun c => (c - 1) * 100)) _ _ Hv).
  - split; [exact Hlast|]. rewrite Hval. ring.
Qed.

(** The theorem at [two_augusts], for August 2023: the bar of July 31
    closes at 100 and the last August bar at 121. *)
Lemma august_total_return_telescopes_witness :
  exists finals v,
    AugustReport.august_total_returns two_augusts = Return finals
    /\ In (2023%Z, Some v) finals
    /\ v == (121 / 100 - 1) * 100.
Proof.
  destruct (august_total_return_telescopes []
              (bar 2023 7 31 100 100 100 100)
              [bar 2023 8 1 100 110 100 110; bar 2023 8 31 110 121 110 121]
              [bar 2024 7 31 121 242 121 242; bar 2024 8 1 242 242 121 121] 2023)
    as (finals & v & last & Hrun & Hin & Hlast & Hv).
  - repeat (constructor; [simpl; intuition congruence|]). constructor.
  - repeat constructor.
  - discriminate.
  - repeat (constructor; [split; reflexivity|]). constructor.
  - repeat (constructor; [simpl; intros [H1 H2]; discriminate|]). constructor.
  - exists finals, v. split; [exact Hrun|]. split; [exact Hin|].
    simpl in Hlast. injection Hlast as <-. exact Hv.
Defined.

(** X18. When the August bars of year [y] open the frame, the first of
    them has no daily return and the running product skips it: the total
    return printed for [y] is the change from the close of the first
    August bar to the close of the last one, and it is missing when the
    August of [y] has that single bar. *)
Theorem august_total_return_at_frame_start (first : Bar) (rest post : DataFrame) (y : Z) :
  NoDup (map date (first :: rest ++ post)) ->
  positive_closes (first :: rest ++ post) ->
  Forall (fun row => year (date row) = y /\ month (date row) = 8%Z) (first :: rest) ->
  Forall (fun row => ~ (year (date row) = y /\ month (date row) = 8%Z)) post ->
  exists finals,
    AugustReport.august_total_returns (first :: rest ++ post) = Return finals
    /\ (rest = [] -> In (y, None) finals)
    /\ (forall last,
           iloc_last rest = Return last ->
           exists v, In (y, Some v) finals /\ v == (close last / close first - 1) * 100).
Proof.
  intros Hnd Hpos Hblock Hout.
  set (df := first :: rest ++ post) in *.
  destruct (with_own_returns_start first rest post) as (after & Hcol & Haf). fold df in Hcol.
  set (B := zip_with AnalyzeAugust.mkRow rest
              (map (option_map (fun r => r * 100))
                 (AnalyzeAugust.pct_change_from (close first) (map close rest)))) in *.
  set (august := filter (fun r => (month (date (AnalyzeAugust.bar r)) =? 8)%Z)
                   (AnalyzeAugust.with_own_returns df)).
  apply Forall_cons_iff in Hblock. destruct Hblock as (Hfirst & Hrest).
  assert (Hyear : AugustReport.year_rows august y = AnalyzeAugust.mkRow first None :: B).
  { unfold august. rewrite Hcol. apply year_rows_block.
    - constructor; [exact Hfirst|].
      apply (column_Forall (fun row => year (date row) = y /\ month (date row) = 8%Z)).
      exact Hrest.
    - cbn [app]. rewrite Forall_forall in Hout |- *. intros r Hr. apply Hout.
      rewrite <- Haf. apply in_map. exact Hr. }
  assert (Hrows : forall z,
             In z (AugustReport.unique
                     (map (fun r => year (date (AnalyzeAugust.bar r))) august)) ->
             AugustReport.year_rows august z <> []).
  { intros z Hz E. apply (proj1 (unique_In _ _)) in Hz. apply in_map_iff in Hz.
    destruct Hz as (r & Hr & Hin).
    assert (Hin' : In r (AugustReport.year_rows august z)).
    { unfold AugustReport.year_rows. apply filter_In. split; [exact Hin|].
      apply Z.eqb_eq. exact Hr. }
    rewrite E in Hin'. exact Hin'. }
  destruct (total_returns_spec august _ Hrows) as (finals & Hfin & _ & Hin).
  assert (Hy : In y (AugustReport.unique
                       (map (fun r => year (date (AnalyzeAugust.bar r))) august))).
  { apply (proj2 (unique_In _ _)). apply in_map_iff.
    exists (AnalyzeAugust.mkRow first None). split; [apply Hfirst|].
    assert (Hr : In (AnalyzeAugust.mkRow first None) (AugustReport.year_rows august y))
      by (rewrite Hyear; left; reflexivity).
    unfold AugustReport.year_rows in Hr. apply filter_In in Hr. tauto. }
  exists finals.
  split; [unfold AugustReport.august_total_returns; rewrite (august_data_is_filter df Hnd);
          cbn [bind]; exact Hfin|].
  split.
  - intro E. apply (Hin y None Hy). rewrite Hyear. unfold B. rewrite E. reflexivity.
  - intros last Hlast.
    unfold positive_closes, df in Hpos.
    apply Forall_cons_iff in Hpos. destruct Hpos as (Hp1 & Hpos').
    apply Forall_app in Hpos'. destruct Hpos' as (Hposr & _).
    destruct (cumprod_telescopes rest Hposr (close first) None last Hp1 Hlast)
      as (v & Hv & Hval).
    exists ((v - 1) * 100). split; [|rewrite Hval; ring].
    apply (Hin y _ Hy). rewrite Hyear.
    unfold AugustReport.cumulative_returns, AugustReport.cumprod.
    cbn [map AnalyzeAugust.daily_return option_map AugustReport.cumprod_from].
    rewrite iloc_last_cons.
    + apply (iloc_last_map (option_map (fun c => (c - 1) * 100)) _ _ Hv).
    + intro E. apply map_eq_nil in E. unfold B in E. rewrite E in Hv. discriminate.
Qed.

(** The theorem on a frame of two August bars followed by a September
    bar: the total return of the August is the change from 100 to 110. *)
Lemma august_total_return_at_frame_start_witness :
  exists finals v,
    AugustReport.august_total_returns
      [bar 2023 8 30 100 100 100 100; bar 2023 8 31 100 110 100 110;
       bar 2023 9 1 110 110 110 110]
    = Return finals
    /\ In (2023%Z, Some v) finals
    /\ v == (110 / 100 - 1) * 100.
Proof.
  destruct (august_total_return_at_frame_start
              (bar 2023 8 30 100 100 100 100)
              [bar 2023 8 31 100 110 100 110]
              [bar 2023 9 1 110 110 110 110] 2023)
    as (finals & Hrun & _ & Hlast).
  - repeat (constructor; [simpl; intuition congruence|]). constructor.
  - repeat constructor.
  - repeat (constructor; [split; reflexivity|]). constructor.
  - repeat (constructor; [simpl; intros [H1 H2]; discriminate|]). constructor.
  - destruct (Hlast (bar 2023 8 31 100 110 100 110) eq_refl) as (v & Hin & Hv).
    exists finals, v. split; [exact Hrun|]. split; [exact Hin | exact Hv].
Defined.
(* ===================================================================== *)
(** * The statistics of the seasonality pivot *)
(* ===================================================================== *)

Lemma subsequence_NoDup {A : Type} (xs ys : list A) :
  subsequence xs ys -> NoDup ys -> NoDup xs.
Proof.
  induction 1 as [ys|x xs ys Hsub IH|xs y ys Hsub IH]; intro Hnd.
  - constructor.
  - inversion Hnd; subst. constructor; [|apply IH; assumption].
    intro Hin. apply (subsequence_In _ _ Hsub) in Hin. contradiction.
  - inversion Hnd; subst. apply IH. assumption.
Qed.

Lemma cells_subsequence (ks : list (Z * Z)) :
  forall vs : list (option Q),
    subsequence
      (map (fun c : Z * Z * Q => (fst (fst c), snd (fst c)))
         (flat_map (fun kr : (Z * Z) * option Q =>
                      match snd kr with
                      | Some r => [(fst (fst kr), snd (fst kr), r)]
                      | None => []
                      end) (combine ks vs)))
      ks.
Proof.
  induction ks as [|[y m] ks IH]; intro vs; [constructor|].
  destruct vs as [|[r|] vs]; cbn [combine flat_map snd fst app map].
  - constructor.
  - constructor. apply IH.
  - constructor. apply IH.
Qed.

Lemma Zrange_NoDup (n : nat) : forall lo, NoDup (MonthlyPatterns.Zrange lo n).
Proof.
  induction n as [|n IH]; intro lo; simpl; constructor; [|apply IH].
  intro Hin. apply Zrange_bounds in Hin. lia.
Qed.

Lemma NoDup_map_injective {A B : Type} (f : A -> B) (xs : list A) :
  (forall a b, f a = f b -> a = b) -> NoDup xs -> NoDup (map f xs).
Proof.
  intros Hinj. induction 1 as [|x xs Hnot _ IH]; simpl; constructor; [|exact IH].
  intro Hin. apply in_map_iff in Hin. destruct Hin as (x' & E & Hin').
  apply Hinj in E. subst x'. contradiction.
Qed.

Lemma bins_NoDup (df : DataFrame) : NoDup (MonthlyPatterns.bins df).
Proof.
  unfold MonthlyPatterns.bins. destruct (group_keys df) as [|first rest]; [constructor|].
  apply NoDup_map_injective; [|apply Zrange_NoDup].
  intros a b E. rewrite <- (ord_of_ord a), <- (ord_of_ord b), E. reflexivity.
Qed.

Lemma seasonality_keys_NoDup (pad : bool) (df : DataFrame) :
  NoDup (map (fun c => (fst (fst c), snd (fst c))) (MonthlyPatterns.seasonality pad df)).
Proof.
  apply subsequence_NoDup with (ys := MonthlyPatterns.bins df); [|apply bins_NoDup].
  unfold MonthlyPatterns.seasonality. rewrite monthly_returns_by_bin.
  apply cells_subsequence.
Qed.

Lemma has_duplicates_NoDup (ks : list (Z * Z)) :
  NoDup ks -> SeasonalityStats.has_duplicates ks = false.
Proof.
  induction 1 as [|k ks Hnot _ IH]; [reflexivity|]. simpl. rewrite IH, orb_false_r.
  destruct (existsb (ym_eqb k) ks) eqn:E; [|reflexivity].
  apply existsb_exists in E. destruct E as (k' & Hin & Heq).
  apply ym_eqb_eq in Heq. subst k'. contradiction.
Qed.

Lemma insert_month_In (m x : Z) (ms : list Z) :
  In x (SeasonalityStats.insert_month m ms) <-> x = m \/ In x ms.
Proof.
  induction ms as [|m' ms IH]; simpl; [intuition|].
  destruct (m <? m')%Z; [simpl; intuition|].
  destruct (m =? m')%Z eqn:E; [apply Z.eqb_eq in E; subst; simpl; intuition|].
  simpl. rewrite IH. intuition.
Qed.

Lemma pivot_index_In (cells : list (Z * Z * Q)) (m : Z) :
  In m (SeasonalityStats.pivot_index cells) <-> exists y r, In (y, m, r) cells.
Proof.
  unfold SeasonalityStats.pivot_index. induction cells as [|[[y0 m0] r0] cells IH]; simpl.
  - split; [intros [] | intros (y & r & [])].
  - rewrite insert_month_In, IH. split.
    + intros [->|(y & r & Hin)]; [exists y0, r0; left; reflexivity|].
      exists y, r. right. exact Hin.
    + intros (y & r & [E|Hin]); [injection E as _ -> _; left; reflexivity|].
      right. exists y, r. exact Hin.
Qed.

Lemma pivot_row_In (cells : list (Z * Z * Q)) (m : Z) (r : Q) :
  In r (SeasonalityStats.pivot_row cells m) <-> exists y, In (y, m, r) cells.
Proof.
  unfold SeasonalityStats.pivot_row. rewrite in_map_iff. split.
  - intros ([[y m'] r'] & E & Hin). apply filter_In in Hin. destruct Hin as (Hin & Hm).
    cbn [fst snd] in *. apply Z.eqb_eq in Hm. subst. exists y. exact Hin.
  - intros (y & Hin). exists (y, m, r). split; [reflexivity|]. apply filter_In.
    split; [exact Hin|]. cbn [fst snd]. apply Z.eqb_refl.
Qed.

Lemma filter_length_le {A : Type} (f : A -> bool) (xs : list A) :
  (length (filter f xs) <= length xs)%nat.
Proof.
  induction xs as [|x xs IH]; simpl; [lia|]. destruct (f x); simpl; lia.
Qed.

Lemma filter_length_all {A : Type} (f : A -> bool) (xs : list A) :
  length (filter f xs) = length xs <-> forall x, In x xs -> f x = true.
Proof.
  induction xs as [|x xs IH]; simpl; [intuition|].
  pose proof (filter_length_le f xs). destruct (f x) eqn:E; simpl.
  - split.
    + intros H0 z [<-|Hz]; [exact E|]. apply IH; [lia | exact Hz].
    + intro Hall. f_equal. apply IH. intros z Hz. apply Hall. right. exact Hz.
  - split; [lia|]. intro Hall. rewrite (Hall x (or_introl eq_refl)) in E. discriminate.
Qed.

Lemma filter_length_none {A : Type} (f : A -> bool) (xs : list A) :
  length (filter f xs) = 0%nat <-> forall x, In x xs -> f x = false.
Proof.
  induction xs as [|x xs IH]; simpl; [intuition|].
  destruct (f x) eqn:E; simpl.
  - split; [lia|]. intro Hall. rewrite (Hall x (or_introl eq_refl)) in E. discriminate.
  - rewrite IH. split.
    + intros H0 z [<-|Hz]; [exact E | apply H0; exact Hz].
    + intros Hall z Hz. apply Hall. right. exact Hz.
Qed.

Lemma Qlen_eq {A B : Type} (xs : list A) (ys : list B) :
  Qlen xs == Qlen ys <-> length xs = length ys.
Proof.
  unfold Qlen. rewrite inject_Z_injective. lia.
Qed.

(** X19. The statistics of [analyze_seasonality], with or without
    filling, on a frame that yields at least one cell: the pivot never
    meets a duplicate (Year, Month) entry, so it does not raise; there is
    one row of statistics for each month number that has a cell; the win
    rate of a row lies in [0, 100], is 100 exactly when every return of
    that month is positive and 0 exactly when none is. *)
Theorem seasonality_win_rate (pad : bool) (df : DataFrame) :
  MonthlyPatterns.seasonality pad df <> [] ->
  let cells := MonthlyPatterns.seasonality pad df in
  exists sts,
    SeasonalityStats.analyze_seasonality pad df = Return sts
    /\ (forall m,
           In m (map SeasonalityStats.Month sts) <-> exists y r, In (y, m, r) cells)
    /\ forall s,
        In s sts ->
        0 <= SeasonalityStats.Win_Rate s <= 100
        /\ (SeasonalityStats.Win_Rate s == 100
            <-> forall y r, In (y, SeasonalityStats.Month s, r) cells -> 0 < r)
        /\ (SeasonalityStats.Win_Rate s == 0
            <-> forall y r, In (y, SeasonalityStats.Month s, r) cells -> r <= 0).
Proof.
  intros _ cells. unfold SeasonalityStats.analyze_seasonality.
  rewrite (has_duplicates_NoDup _ (seasonality_keys_NoDup pad df)). fold cells.
  eexists. split; [reflexivity|]. split.
  - intro m. unfold SeasonalityStats.stats. rewrite map_map. cbn [SeasonalityStats.Month].
    rewrite map_id. apply pivot_index_In.
  - intros s Hs. unfold SeasonalityStats.stats in Hs. apply in_map_iff in Hs.
    destruct Hs as (m & <- & Hm). cbn [SeasonalityStats.Win_Rate SeasonalityStats.Month].
    set (x := SeasonalityStats.pivot_row cells m).
    set (wins := filter (fun r => Qlt_bool 0 r) x).
    assert (Hx : x <> []).
    { apply pivot_index_In in Hm. destruct Hm as (y & r & Hin).
      assert (Hr : In r x) by (apply pivot_row_In; exists y; exact Hin).
      intro E. rewrite E in Hr. exact Hr. }
    pose proof (Qlen_pos x Hx) as Hlen.
    assert (Hpos : 0 < Qlen x) by lra.
    assert (Hle : Qlen wins <= Qlen x).
    { unfold Qlen. rewrite <- Zle_Qle. pose proof (filter_length_le (fun r => Qlt_bool 0 r) x).
      fold wins in H. lia. }
    assert (Hge : 0 <= Qlen wins).
    { unfold Qlen. replace 0 with (inject_Z 0) by reflexivity. rewrite <- Zle_Qle. lia. }
    split; [split; [apply pct_ge_iff | apply pct_le_iff]; lra|].
    split.
    + transitivity (length wins = length x).
      * rewrite <- Qlen_eq. split; intro H.
        -- assert (H1 : 100 <= Qlen wins / Qlen x * 100) by (rewrite H; apply Qle_refl).
           apply pct_ge_iff in H1; [|exact Hpos]. lra.
        -- apply Qle_antisym; [apply pct_le_iff | apply pct_ge_iff]; lra.
      * unfold wins. rewrite filter_length_all. split.
        -- intros H y r Hin. apply Qlt_bool_true. apply H. apply pivot_row_In.
           exists y. exact Hin.
        -- intros H r Hr. apply pivot_row_In in Hr. destruct Hr as (y & Hin).
           apply Qlt_bool_true. apply (H y r Hin).
    + transitivity (length wins = 0%nat).
      * split; intro H.
        -- assert (H1 : Qlen wins / Qlen x * 100 <= 0) by (rewrite H; apply Qle_refl).
           apply pct_le_iff in H1; [|exact Hpos].
           assert (H2 : Qlen wins <= 0) by lra.
           unfold Qlen in H2. replace 0 with (inject_Z 0) in H2 by reflexivity.
           rewrite <- Zle_Qle in H2. lia.
        -- assert (E : Qlen wins == 0) by (unfold Qlen; rewrite H; reflexivity).
           rewrite E. field. lra.
      * unfold wins. rewrite filter_length_none. split.
        -- intros H y r Hin. apply Qlt_bool_false. apply H. apply pivot_row_In.
           exists y. exact Hin.
        -- intros H r Hr. apply pivot_row_In in Hr. destruct Hr as (y & Hin).
           apply Qlt_bool_false. apply (H y r Hin).
Qed.

(** The theorem at [three_months]: February and March each have one
    cell; February rose and March fell. *)
Lemma seasonality_win_rate_witness :
  exists sts,
    SeasonalityStats.analyze_seasonality false three_months = Return sts
    /\ map SeasonalityStats.Month sts = [2%Z; 3%Z].
Proof.
  destruct (seasonality_win_rate false three_months) as (sts & Hrun & _).
  - vm_compute. discriminate.
  - exists sts. split; [exact Hrun|].
    vm_compute in Hrun. injection Hrun as <-. reflexivity.
Defined.
(* ===================================================================== *)
(** * Technical indicators *)
(* ===================================================================== *)

Lemma sum_bounds (lo hi : Q) (xs : list Q) :
  Forall (fun x => lo <= x /\ x <= hi) xs ->
  Qlen xs * lo <= sum xs /\ sum xs <= Qlen xs * hi.
Proof.
  induction xs as [|x xs IH] using rev_ind; intro H.
  - split; [change (0 * lo <= 0) | change (0 <= 0 * hi)]; lra.
  - apply Forall_app in H. destruct H as (Hxs & Hx).
    apply Forall_cons_iff in Hx. destruct Hx as ((Hlo & Hhi) & _).
    destruct (IH Hxs) as (H1 & H2). rewrite sum_snoc.
    pose proof (Qlen_snoc xs x) as Hlen.
    split.
    + apply Qle_trans with ((Qlen xs + 1) * lo); [rewrite Hlen; apply Qle_refl | lra].
    + apply Qle_trans with ((Qlen xs + 1) * hi); [lra | rewrite Hlen; apply Qle_refl].
Qed.

Lemma nth_error_map_seq {A : Type} (f : nat -> A) (n i : nat) :
  (i < n)%nat -> nth_error (map f (seq 0 n)) i = Some (f i).
Proof.
  intro H. rewrite nth_error_map, nth_error_seq.
  destruct (Nat.ltb_spec i n); [reflexivity | lia].
Qed.

Lemma Qnat_Qlen {A : Type} (xs : list A) : Qlen xs = Qnat (length xs).
Proof. reflexivity. Qed.

Section RollingMean.

Import Indicators.

Lemma rolling_mean_length (window : nat) (xs : list Q) :
  length (rolling_mean window xs) = length xs.
Proof. unfold rolling_mean. rewrite length_map, length_seq. reflexivity. Qed.

Lemma window_at_length (window : nat) (xs : list Q) (i : nat) :
  (i < length xs)%nat -> (window <= S i)%nat -> length (window_at window xs i) = window.
Proof.
  intros Hi Hw. unfold window_at. rewrite length_firstn, length_skipn. lia.
Qed.

Lemma window_at_In (window : nat) (xs : list Q) (i : nat) (x : Q) :
  In x (window_at window xs i) -> In x xs.
Proof.
  unfold window_at. intro H.
  rewrite <- (firstn_skipn (S i - window) xs). apply in_or_app. right.
  rewrite <- (firstn_skipn window (skipn (S i - window) xs)). apply in_or_app. left. exact H.
Qed.

(** The mean of a full window lies between any bounds of the series. *)
Lemma rolling_mean_at (window : nat) (xs : list Q) (i : nat) (lo hi : Q) :
  (1 <= window)%nat -> (i < length xs)%nat ->
  Forall (fun x => lo <= x /\ x <= hi) xs ->
  ((S i < window)%nat -> nth_error (rolling_mean window xs) i = Some None)
  /\ ((window <= S i)%nat ->
      nth_error (rolling_mean window xs) i
      = Some (Some (sum (window_at window xs i) / Qnat window))
      /\ lo <= sum (window_at window xs i) / Qnat window
      /\ sum (window_at window xs i) / Qnat window <= hi).
Proof.
  intros Hw Hi Hall. unfold rolling_mean. rewrite (nth_error_map_seq _ _ _ Hi). split.
  - intro Hlt. destruct (Nat.ltb_spec (S i) window); [reflexivity | lia].
  - intro Hge. destruct (Nat.ltb_spec (S i) window); [lia|].
    destruct (Nat.eqb_spec window 0); [lia|]. cbn [orb]. split; [reflexivity|].
    assert (Hwin : Forall (fun x => lo <= x /\ x <= hi) (window_at window xs i)).
    { rewrite Forall_forall in Hall |- *. intros x Hx. apply Hall.
      apply (window_at_In window xs i). exact Hx. }
    destruct (sum_bounds lo hi _ Hwin) as (H1 & H2).
    rewrite Qnat_Qlen, (window_at_length window xs i Hi Hge) in H1, H2.
    assert (Hpos : 0 < Qnat window) by (apply Qnat_pos; lia).
    split; [apply Qdiv_ge_iff | apply Qdiv_le_iff]; try exact Hpos; lra.
Qed.

(** Every value a rolling mean yields lies between the bounds of the
    series. *)
Lemma rolling_mean_bounds (window : nat) (xs : list Q) (lo hi : Q) :
  Forall (fun x => lo <= x /\ x <= hi) xs ->
  Forall (fun v => match v with
                   | Some a => lo <= a /\ a <= hi
                   | None => True
                   end) (rolling_mean window xs).
Proof.
  intro Hall. rewrite Forall_forall. intros v Hv.
  apply In_nth_error in Hv. destruct Hv as (i & Hi).
  assert (Hlt : (i < length xs)%nat).
  { rewrite <- (rolling_mean_length window xs). apply nth_error_Some. congruence. }
  destruct (Nat.eq_dec window 0) as [->|Hw].
  { unfold rolling_mean in Hi. rewrite (nth_error_map_seq _ _ _ Hlt) in Hi.
    rewrite orb_true_r in Hi. injection Hi as <-. exact I. }
  destruct (rolling_mean_at window xs i lo hi ltac:(lia) Hlt Hall) as (Hnone & Hsome).
  destruct (Nat.lt_ge_cases (S i) window) as [Hs|Hs].
  - rewrite (Hnone Hs) in Hi. injection Hi as <-. exact I.
  - destruct (Hsome Hs) as (E & H1 & H2). rewrite E in Hi. injection Hi as <-. split; assumption.
Qed.

End RollingMean.

(** X20. [calculate_sma] with a window of at least 1 adds a column as
    long as the frame: missing on the first [window - 1] rows, and from
    then on the mean of the last [window] values of the column, which
    lies between any bounds of the column. *)
Theorem sma_is_a_window_mean (xs : list Q) (window : nat) (lo hi : Q) :
  (1 <= window)%nat ->
  Forall (fun x => lo <= x /\ x <= hi) xs ->
  let sma := Indicators.calculate_sma xs window in
  length sma = length xs
  /\ (forall i, (i < length xs)%nat -> (S i < window)%nat -> nth_error sma i = Some None)
  /\ (forall i,
         (i < length xs)%nat -> (window <= S i)%nat ->
         exists v,
           nth_error sma i = Some (Some v)
           /\ v = sum (firstn window (skipn (S i - window) xs)) / Qnat window
           /\ length (firstn window (skipn (S i - window) xs)) = window
           /\ lo <= v /\ v <= hi).
Proof.
  intros Hw Hall sma. split; [apply rolling_mean_length|]. split.
  - intros i Hi Hlt. apply (rolling_mean_at window xs i lo hi Hw Hi Hall). exact Hlt.
  - intros i Hi Hge.
    destruct (rolling_mean_at window xs i lo hi Hw Hi Hall) as (_ & Hsome).
    destruct (Hsome Hge) as (E & H1 & H2). eexists. split; [exact E|].
    split; [reflexivity|]. split; [apply (window_at_length window xs i Hi Hge)|].
    split; assumption.
Qed.

(** The theorem on four closes with a window of 2. *)
Lemma sma_is_a_window_mean_witness :
  nth_error (Indicators.calculate_sma [100; 110; 90; 120] 2) 0 = Some None.
Proof.
  apply (sma_is_a_window_mean [100; 110; 90; 120] 2 90 120).
  - lia.
  - repeat (constructor; [split; vm_compute; discriminate|]). constructor.
  - simpl. lia.
  - lia.
Defined.

Section Ewm.

Import Indicators.

Lemma ewm_from_bounds (alpha lo hi : Q) :
  0 <= alpha -> alpha <= 1 ->
  forall xs prev,
    lo <= prev -> prev <= hi ->
    Forall (fun x => lo <= x /\ x <= hi) xs ->
    Forall (fun y => lo <= y /\ y <= hi) (ewm_from alpha prev xs)
    /\ length (ewm_from alpha prev xs) = length xs.
Proof.
  intros Ha0 Ha1. induction xs as [|x xs IH]; intros prev Hlo Hhi Hall; simpl.
  - split; [constructor | reflexivity].
  - apply Forall_cons_iff in Hall. destruct Hall as ((Hxlo & Hxhi) & Hall).
    assert (Hy : lo <= (1 - alpha) * prev + alpha * x
                 /\ (1 - alpha) * prev + alpha * x <= hi) by (split; nra).
    destruct (IH _ (proj1 Hy) (proj2 Hy) Hall) as (H1 & H2).
    split; [constructor; assumption | rewrite H2; reflexivity].
Qed.

Lemma ewm_alpha (span : Z) :
  (1 <= span)%Z -> 0 <= 2 / (inject_Z span + 1) /\ 2 / (inject_Z span + 1) <= 1.
Proof.
  intro H. assert (Hs : 1 <= inject_Z span).
  { replace 1 with (inject_Z 1) by reflexivity. rewrite <- Zle_Qle. exact H. }
  split; [apply Qdiv_ge_iff | apply Qdiv_le_iff]; lra.
Qed.

(** The mean of [ewm] with a span of at least 1 is as long as the series,
    starts at its first value and stays between its bounds. *)
Lemma ewm_mean_bounds (span : Z) (xs : list Q) (lo hi : Q) :
  (1 <= span)%Z ->
  Forall (fun x => lo <= x /\ x <= hi) xs ->
  exists ys,
    ewm_mean span xs = Return ys
    /\ length ys = length xs
    /\ Forall (fun y => lo <= y /\ y <= hi) ys
    /\ iloc_first ys = iloc_first xs.
Proof.
  intros Hs Hall. unfold ewm_mean.
  destruct (Z.ltb_spec span 1); [lia|]. eexists. split; [reflexivity|].
  destruct xs as [|x xs]; [repeat split; constructor|].
  apply Forall_cons_iff in Hall. destruct Hall as ((Hlo & Hhi) & Hall).
  destruct (ewm_alpha span Hs) as (Ha0 & Ha1).
  destruct (ewm_from_bounds _ lo hi Ha0 Ha1 xs x Hlo Hhi Hall) as (H1 & H2).
  split; [simpl; rewrite H2; reflexivity|].
  split; [constructor; [split; assumption | exact H1] | reflexivity].
Qed.

Lemma ewm_mean_refused (span : Z) (xs : list Q) :
  (span < 1)%Z -> ewm_mean span xs = Raise ValueError.
Proof.
  intro H. unfold ewm_mean. destruct (Z.ltb_spec span 1); [reflexivity | lia].
Qed.

(** With a span of 1 the weight of the new value is 1. *)
Lemma ewm_from_span_1 (xs : list Q) :
  forall prev, Forall2 Qeq (ewm_from (2 / (inject_Z 1 + 1)) prev xs) xs.
Proof.
  induction xs as [|x xs IH]; intro prev; simpl; constructor; [|apply IH].
  field.
Qed.

End Ewm.

(** X21. [calculate_ema] refuses a span below 1 with [ValueError].  With
    a span of at least 1 it adds a column as long as the series, which
    starts at the first value of the series and never leaves the range
    of the series; with a span of 1 it is the series itself. *)
Theorem ema_stays_within_range (xs : list Q) (span : Z) (lo hi : Q) :
  ((span < 1)%Z -> Indicators.calculate_ema xs span = Raise ValueError)
  /\ ((1 <= span)%Z ->
      Forall (fun x => lo <= x /\ x <= hi) xs ->
      exists ys,
        Indicators.calculate_ema xs span = Return ys
        /\ length ys = length xs
        /\ Forall (fun y => lo <= y /\ y <= hi) ys
        /\ iloc_first ys = iloc_first xs
        /\ (span = 1%Z -> Forall2 Qeq ys xs)).
Proof.
  split; [apply ewm_mean_refused|]. intros Hs Hall.
  destruct (ewm_mean_bounds span xs lo hi Hs Hall) as (ys & E & Hlen & Hb & Hfirst).
  exists ys. split; [exact E|]. split; [exact Hlen|]. split; [exact Hb|].
  split; [exact Hfirst|]. intros ->.
  unfold Indicators.ewm_mean in E. cbn [Z.ltb Z.compare Pos.compare] in E.
  injection E as <-. destruct xs as [|x xs]; constructor; [reflexivity|].
  apply ewm_from_span_1.
Qed.

Lemma zip_with_length {A B C : Type} (f : A -> B -> C) (xs : list A) (ys : list B) :
  length xs = length ys -> length (zip_with f xs ys) = length xs.
Proof.
  revert ys. induction xs as [|x xs IH]; intros ys H; [reflexivity|].
  destruct ys as [|y ys]; [discriminate|]. simpl. rewrite IH; [reflexivity|].
  simpl in H. lia.
Qed.

Lemma zip_with_Forall {A B C : Type} (f : A -> B -> C) (P : A -> Prop) (R : B -> Prop)
    (T : C -> Prop) (xs : list A) (ys : list B) :
  (forall x y, P x -> R y -> T (f x y)) ->
  Forall P xs -> Forall R ys -> Forall T (zip_with f xs ys).
Proof.
  intros Hf Hxs. revert ys. induction Hxs as [|x xs Hx _ IH]; intros ys Hys; [constructor|].
  destruct Hys as [|y ys Hy Hys]; [constructor|]. simpl. constructor; [apply Hf; assumption|].
  apply IH. exact Hys.
Qed.

(** X22. [calculate_macd] with spans of at least 1, on a series that
    stays in [lo, hi]: the three columns are as long as the series; the
    MACD line and its signal line stay within [hi - lo] of zero, the
    histogram is their difference, and on the first row all three are
    zero.  On a flat series ([lo = hi]) the three columns are zero
    throughout. *)
Theorem macd_bounded_by_price_range (xs : list Q) (fast slow signal : Z) (lo hi : Q) :
  (1 <= fast)%Z -> (1 <= slow)%Z -> (1 <= signal)%Z ->
  Forall (fun x => lo <= x /\ x <= hi) xs ->
  exists rows,
    Indicators.calculate_macd xs fast slow signal = Return rows
    /\ length rows = length xs
    /\ Forall (fun r =>
                 (- (hi - lo) <= Indicators.MACD r /\ Indicators.MACD r <= hi - lo)
                 /\ (- (hi - lo) <= Indicators.MACD_Signal r
                     /\ Indicators.MACD_Signal r <= hi - lo)
                 /\ Indicators.MACD_Hist r
                    = Indicators.MACD r - Indicators.MACD_Signal r) rows
    /\ (forall r,
           iloc_first rows = Return r ->
           Indicators.MACD r == 0 /\ Indicators.MACD_Signal r == 0
           /\ Indicators.MACD_Hist r == 0).
Proof.
  intros Hf Hs Hg Hall.
  destruct (ewm_mean_bounds fast xs lo hi Hf Hall) as (ef & Ef & Hlf & Hbf & Hff).
  destruct (ewm_mean_bounds slow xs lo hi Hs Hall) as (es & Es & Hls & Hbs & Hfs).
  set (macd := zip_with Qminus ef es).
  assert (Hbm : Forall (fun d => - (hi - lo) <= d /\ d <= hi - lo) macd).
  { apply (zip_with_Forall Qminus (fun x => lo <= x /\ x <= hi) (fun x => lo <= x /\ x <= hi));
      [|exact Hbf | exact Hbs].
    intros x y (H1 & H2) (H3 & H4). split; lra. }
  assert (Hlm : length macd = length xs).
  { unfold macd. rewrite zip_with_length; congruence. }
  destruct (ewm_mean_bounds signal macd (- (hi - lo)) (hi - lo) Hg Hbm)
    as (sg & Eg & Hlg & Hbg & Hfg).
  unfold Indicators.calculate_macd. rewrite Ef, Es. cbn [bind]. fold macd.
  rewrite Eg. cbn [bind]. eexists. split; [reflexivity|].
  split; [rewrite zip_with_length; congruence|]. split.
  - apply (zip_with_Forall _ (fun d => - (hi - lo) <= d /\ d <= hi - lo)
             (fun d => - (hi - lo) <= d /\ d <= hi - lo)); [|exact Hbm | exact Hbg].
    intros m s Hm Hsg. cbn. split; [exact Hm|]. split; [exact Hsg | reflexivity].
  - intros r Hr. destruct xs as [|x xs'].
    { destruct ef; [|discriminate]. unfold macd in Hr. simpl in Hr. discriminate. }
    destruct ef as [|f0 ef']; [discriminate|]. destruct es as [|s0 es']; [discriminate|].
    simpl in Hff, Hfs. injection Hff as ->. injection Hfs as ->.
    unfold macd in Hfg, Hr. cbn [zip_with] in Hfg, Hr.
    destruct sg as [|g0 sg']; [discriminate|]. simpl in Hfg. injection Hfg as ->.
    simpl in Hr. injection Hr as <-. cbn. repeat split; ring.
Qed.

(** The theorem on four closes with the default spans. *)
Lemma macd_bounded_by_price_range_witness :
  exists rows,
    Indicators.calculate_macd [100; 110; 90; 120] 12 26 9 = Return rows
    /\ length rows = 4%nat.
Proof.
  destruct (macd_bounded_by_price_range [100; 110; 90; 120] 12 26 9 90 120)
    as (rows & Hrun & Hlen & _); try lia.
  - repeat (constructor; [split; vm_compute; discriminate|]). constructor.
  - exists rows. split; [exact Hrun | exact Hlen].
Defined.

Section Rsi.

Import Indicators.

Lemma gain_of_nonneg (d : option Q) : 0 <= gain_of d /\ gain_of d <= gain_of d.
Proof.
  split; [|apply Qle_refl]. unfold gain_of. destruct d as [d|]; [|apply Qle_refl].
  destruct (Qlt_bool 0 d) eqn:E; [|apply Qle_refl].
  apply Qlt_bool_true in E. lra.
Qed.

Lemma loss_of_nonneg (d : option Q) : 0 <= loss_of d /\ loss_of d <= loss_of d.
Proof.
  split; [|apply Qle_refl]. unfold loss_of. destruct d as [d|]; [|lra].
  destruct (Qlt_bool d 0) eqn:E; [|lra].
  apply Qlt_bool_true in E. lra.
Qed.

Lemma diff_from_length (xs : list Q) : forall prev, length (diff_from prev xs) = length xs.
Proof. induction xs as [|x xs IH]; intro prev; simpl; [reflexivity | rewrite IH; reflexivity]. Qed.

Lemma diff_length (xs : list Q) : length (diff xs) = length xs.
Proof. destruct xs; simpl; [reflexivity | rewrite diff_from_length; reflexivity]. Qed.

(** On averages that are not negative the value is present unless both
    are zero, and lies in [0, 100]: it is [100 * g / (g + l)]. *)
Lemma rsi_value_range (g l : Q) :
  0 <= g -> 0 <= l ->
  match rsi_value (Some g) (Some l) with
  | Some r => 0 <= r /\ r <= 100 /\ r * (g + l) == 100 * g /\ 0 < g + l
  | None => g == 0 /\ l == 0
  end.
Proof.
  intros Hg Hl. unfold rsi_value. destruct (Qeq_bool l 0) eqn:El.
  - apply Qeq_bool_iff in El. destruct (Qeq_bool g 0) eqn:Eg.
    + apply Qeq_bool_iff in Eg. split; assumption.
    + apply Qeq_bool_neq in Eg.
      assert (Hgpos : 0 < g) by (apply Qnot_le_lt; intro; apply Eg; lra).
      split; [lra|]. split; [lra|]. split; [rewrite El; ring | lra].
  - apply Qeq_bool_neq in El. assert (Hlpos : 0 < l) by (apply Qnot_le_lt; intro; apply El; lra).
    assert (E : 100 - 100 / (1 + g / l) == 100 * g / (g + l)) by (field; split; lra).
    assert (Hsum : 0 < g + l) by lra.
    rewrite E. split; [apply Qdiv_ge_iff; [exact Hsum | lra]|].
    split; [apply Qdiv_le_iff; [exact Hsum | lra]|]. split; [field; lra | exact Hsum].
Qed.

Lemma nonneg_bounds (xs : list Q) :
  Forall (fun x => 0 <= x) xs ->
  exists hi, Forall (fun x => 0 <= x /\ x <= hi) xs.
Proof.
  induction 1 as [|x xs Hx _ (hi & IH)]; [exists 0; constructor|].
  exists (Qmax x hi). constructor.
  - split; [exact Hx | apply Q.le_max_l].
  - apply Forall_impl with (2 := IH). intros y (H1 & H2). split; [exact H1|].
    apply Qle_trans with hi; [exact H2 | apply Q.le_max_r].
Qed.

Lemma rolling_mean_nonneg (window : nat) (xs : list Q) :
  Forall (fun x => 0 <= x) xs ->
  Forall (fun v => match v with Some a => 0 <= a | None => True end) (rolling_mean window xs).
Proof.
  intro H. destruct (nonneg_bounds xs H) as (hi & Hb).
  apply Forall_impl with (2 := rolling_mean_bounds window xs 0 hi Hb).
  intros [a|]; tauto.
Qed.

End Rsi.

(** X23. [calculate_rsi] adds a column as long as the series, and every
    value of it that is present lies in [0, 100], whatever the series and
    the period.  Where the average gain [g] and the average loss [l] of
    the window are present, the value is [100 * g / (g + l)]; it is
    missing exactly when the window has neither gains nor losses. *)
Theorem rsi_between_0_and_100 (xs : list Q) (period : nat) :
  let rsi := Indicators.calculate_rsi xs period in
  let avg_gain :=
    Indicators.rolling_mean period (map Indicators.gain_of (Indicators.diff xs)) in
  let avg_loss :=
    Indicators.rolling_mean period (map Indicators.loss_of (Indicators.diff xs)) in
  length rsi = length xs
  /\ Forall (fun v => match v with
                      | Some r => 0 <= r /\ r <= 100
                      | None => True
                      end) rsi
  /\ forall i g l,
      nth_error avg_gain i = Some (Some g) ->
      nth_error avg_loss i = Some (Some l) ->
      match nth_error rsi i with
      | Some (Some r) => r * (g + l) == 100 * g /\ 0 < g + l
      | Some None => g == 0 /\ l == 0
      | None => False
      end.
Proof.
  intros rsi avg_gain avg_loss.
  assert (Hg : Forall (fun v => match v with Some a => 0 <= a | None => True end) avg_gain).
  { apply rolling_mean_nonneg. rewrite Forall_forall. intros g Hg.
    apply in_map_iff in Hg. destruct Hg as (d & <- & _). apply gain_of_nonneg. }
  assert (Hl : Forall (fun v => match v with Some a => 0 <= a | None => True end) avg_loss).
  { apply rolling_mean_nonneg. rewrite Forall_forall. intros l Hl.
    apply in_map_iff in Hl. destruct Hl as (d & <- & _). apply loss_of_nonneg. }
  split; [|split].
  - unfold rsi, Indicators.calculate_rsi.
    rewrite zip_with_length; rewrite !rolling_mean_length, !length_map; [|reflexivity].
    apply diff_length.
  - unfold rsi, Indicators.calculate_rsi. fold avg_gain avg_loss.
    apply (zip_with_Forall Indicators.rsi_value
             (fun v => match v with Some a => 0 <= a | None => True end)
             (fun v => match v with Some a => 0 <= a | None => True end));
      [|exact Hg | exact Hl].
    intros [g|] [l|] Hg0 Hl0; try exact I.
    pose proof (rsi_value_range g l Hg0 Hl0) as H.
    destruct (Indicators.rsi_value (Some g) (Some l)); [tauto | exact I].
  - intros i g l Hgi Hli. unfold rsi, Indicators.calculate_rsi. fold avg_gain avg_loss.
    rewrite (zip_with_nth Indicators.rsi_value avg_gain avg_loss i _ _ Hgi Hli).
    rewrite Forall_forall in Hg, Hl.
    pose proof (Hg _ (nth_error_In _ _ Hgi)) as Hg0.
    pose proof (Hl _ (nth_error_In _ _ Hli)) as Hl0.
    pose proof (rsi_value_range g l Hg0 Hl0) as H.
    destruct (Indicators.rsi_value (Some g) (Some l)); tauto.
Qed.

Section TrueRange.

Import Indicators.

Lemma np_abs_cases (x : Q) : (x < 0 /\ np_abs x = - x) \/ (0 <= x /\ np_abs x = x).
Proof.
  unfold np_abs. destruct (Qlt_bool x 0) eqn:E.
  - apply Qlt_bool_true in E. left. split; [exact E | reflexivity].
  - apply Qlt_bool_false in E. right. split; [exact E | reflexivity].
Qed.

(** The true range of a row after a close [pc]: the span from the lower
    of the low and [pc] to the higher of the high and [pc]. *)
Lemma true_range_value (h l pc : Q) :
  l <= h ->
  Qmax (Qmax (h - l) (np_abs (h - pc))) (np_abs (l - pc)) == Qmax h pc - Qmin l pc
  /\ h - l <= Qmax (Qmax (h - l) (np_abs (h - pc))) (np_abs (l - pc)).
Proof.
  intro Hlh.
  destruct (np_abs_cases (h - pc)) as [(Ha & ->)|(Ha & ->)];
    destruct (np_abs_cases (l - pc)) as [(Hb & ->)|(Hb & ->)];
    destruct (Q.max_spec h pc) as [(H1 & ->)|(H1 & ->)];
    destruct (Q.min_spec l pc) as [(H2 & ->)|(H2 & ->)];
    try lra;
    match goal with
    | |- Qmax (Qmax ?a ?b) ?c == _ /\ _ =>
        destruct (Q.max_spec a b) as [(H3 & E3)|(H3 & E3)];
        destruct (Q.max_spec (Qmax a b) c) as [(H4 & E4)|(H4 & E4)];
        rewrite ?E4, ?E3 in *; split; lra
    end.
Qed.

Lemma true_range_from_spec (df : DataFrame) :
  Forall (fun row => low row <= high row) df ->
  forall pc,
    length (true_range_from pc df) = length df
    /\ Forall2 (fun t row => high row - low row <= t) (true_range_from pc df) df
    /\ forall i p row,
        nth_error (pc :: map close df) i = Some p ->
        nth_error df i = Some row ->
        exists t,
          nth_error (true_range_from pc df) i = Some t
          /\ t == Qmax (high row) p - Qmin (low row) p.
Proof.
  induction 1 as [|r rs Hr _ IH]; intro pc.
  - split; [reflexivity|]. split; [constructor|]. intros i p row _ H.
    destruct i; discriminate.
  - destruct (IH (close r)) as (Hlen & Hge & Hat).
    destruct (true_range_value (high r) (low r) pc Hr) as (Hv & Hvge).
    cbn [true_range_from]. split; [simpl; rewrite Hlen; reflexivity|].
    split; [constructor; assumption|].
    intros [|i] p row Hp Hrow.
    + simpl in Hp, Hrow. injection Hp as <-. injection Hrow as <-.
      eexists. split; [reflexivity | exact Hv].
    + cbn [nth_error map] in Hp, Hrow |- *. apply (Hat i p row); assumption.
Qed.

End TrueRange.

(** X24. The true range of [calculate_atr], on bars whose low is not above
    their high: on the first row it is [high - low]; on every later row
    it is the span from the lower of the low and the previous close to
    the higher of the high and the previous close; it is never below
    [high - low], so the ATR is never negative where it is present. *)
Theorem true_range_spans_the_gap (df : DataFrame) (period : nat) :
  Forall (fun row => low row <= high row) df ->
  let tr := Indicators.true_range df in
  length tr = length df
  /\ (forall row, iloc_first df = Return row -> iloc_first tr = Return (high row - low row))
  /\ (forall i prev row,
         nth_error df i = Some prev ->
         nth_error df (S i) = Some row ->
         exists t,
           nth_error tr (S i) = Some t
           /\ t == Qmax (high row) (close prev) - Qmin (low row) (close prev))
  /\ Forall2 (fun t row => high row - low row <= t) tr df
  /\ Forall (fun v => match v with Some a => 0 <= a | None => True end)
       (Indicators.calculate_atr df period).
Proof.
  intros Hwf tr. destruct df as [|first rest].
  { split; [reflexivity|]. split; [intros row H; discriminate|].
    split; [intros i prev row H; destruct i; discriminate|].
    split; [constructor|]. unfold Indicators.calculate_atr, Indicators.rolling_mean. constructor. }
  apply Forall_cons_iff in Hwf. destruct Hwf as (Hfirst & Hrest).
  destruct (true_range_from_spec rest Hrest (close first)) as (Hlen & Hge & Hat).
  assert (Hall : Forall2 (fun t row => high row - low row <= t) tr (first :: rest)).
  { unfold tr. cbn [Indicators.true_range]. constructor; [apply Qle_refl | exact Hge]. }
  split; [unfold tr; simpl; rewrite Hlen; reflexivity|].
  split; [intros row H; simpl in H; injection H as <-; reflexivity|].
  split.
  - intros i prev row Hp Hrow. unfold tr. cbn [Indicators.true_range nth_error] in Hrow |- *.
    apply (Hat i (close prev) row); [|exact Hrow].
    change (close first :: map close rest) with (map close (first :: rest)).
    rewrite nth_error_map, Hp. reflexivity.
  - split; [exact Hall|]. unfold Indicators.calculate_atr. fold tr.
    apply rolling_mean_nonneg.
    assert (Hrows : Forall (fun row => low row <= high row) (first :: rest))
      by (constructor; assumption).
    clear - Hall Hrows. induction Hall as [|t row ts rows Ht _ IH]; [constructor|].
    apply Forall_cons_iff in Hrows. destruct Hrows as (Hrow & Hrows).
    constructor; [lra | apply IH; exact Hrows].
Qed.

(** The theorem at [three_months]. *)
Lemma true_range_spans_the_gap_witness :
  length (Indicators.true_range three_months) = 6%nat.
Proof.
  apply (true_range_spans_the_gap three_months 14).
  repeat (constructor; [vm_compute; discriminate|]). constructor.
Defined.
(* ===================================================================== *)
(** * The month-of-the-year backtest *)
(* ===================================================================== *)

Lemma py_int_of_nat (x : Q) (k : nat) : x == Qnat k -> DCABacktest.py_int x = Z.of_nat k.
Proof.
  intro E. unfold DCABacktest.py_int.
  assert (H0 : 0 <= x).
  { rewrite E. unfold Qnat. replace 0 with (inject_Z 0) by reflexivity. rewrite <- Zle_Qle. lia. }
  apply Qlt_bool_false in H0. rewrite H0. rewrite E. unfold Qnat. apply Qfloor_Z.
Qed.

Lemma Qnat_S (n : nat) : Qnat (S n) == Qnat n + 1.
Proof.
  unfold Qnat. rewrite Nat2Z.inj_succ. unfold Z.succ. rewrite inject_Z_plus. reflexivity.
Qed.

Section Backtest.

Import DCABacktest.

Variable self : DCABacktest.t.
Variable target_month : Z.

(** The months the loop visits are the months of the frame that have
    rows, each with the close of its first row. *)
Lemma all_monthly_data_spec :
  map fst (all_monthly_data self) = group_keys (df self)
  /\ Forall (fun row =>
               exists first rest,
                 month_rows (df self) (fst (fst row)) (snd (fst row)) = first :: rest
                 /\ snd row = close first) (all_monthly_data self).
Proof.
  unfold all_monthly_data.
  assert (H : Forall (fun k => month_rows (df self) (fst k) (snd k) <> []) (group_keys (df self))).
  { rewrite Forall_forall. intros k Hk. apply month_rows_nonempty. exact Hk. }
  induction H as [|k ks Hk _ (IH1 & IH2)]; [split; [reflexivity | constructor]|].
  cbn [flat_map]. destruct (month_rows (df self) (fst k) (snd k)) as [|first rest] eqn:E;
    [congruence|].
  cbn [app map fst]. split; [rewrite IH1; reflexivity|].
  constructor; [|exact IH2]. exists first, rest. cbn [fst snd]. split; [exact E | reflexivity].
Qed.

Lemma all_monthly_data_length :
  length (all_monthly_data self) = length (group_keys (df self)).
Proof. rewrite <- (proj1 all_monthly_data_spec). rewrite length_map. reflexivity. Qed.

(** What a purchase of the backtest records. *)
Let purchase_ok (p : Purchase.t) : Prop :=
  month (Purchase.date p) = target_month
  /\ day (Purchase.date p) = 1%Z
  /\ has_text_column self = true
  /\ ~ Purchase.price p == 0
  /\ (1 <= Purchase.months_accumulated p)%Z
  /\ Purchase.investment_amount p
     == inject_Z (Purchase.months_accumulated p) * monthly_investment self
  /\ Purchase.coins_bought p = Purchase.investment_amount p / Purchase.price p
  /\ exists row,
      In row (all_monthly_data self)
      /\ Purchase.date p = mkDate (fst (fst row)) (snd (fst row)) 1
      /\ Purchase.price p = snd row.

(** The state after [n] months: the stipends of these months are invested
    or in cash, and the cash is the stipends of the months since the last
    purchase. *)
Let state_ok (n : nat) (v : Vars.t) : Prop :=
  Vars.total_invested v + Vars.accumulated_cash v == Qnat n * monthly_investment self
  /\ (exists k, Vars.accumulated_cash v == Qnat k * monthly_investment self)
  /\ Forall purchase_ok (Vars.purchases v).

Lemma backtest_step_inv (v v' : Vars.t) (row : (Z * Z) * Q) :
  step self target_month v row = Done v' ->
  (snd (fst row) <> target_month
   /\ v' = Vars.mk (Vars.total_invested v) (Vars.total_coins v)
             (Vars.accumulated_cash v + monthly_investment self) (Vars.purchases v))
  \/ (snd (fst row) = target_month
      /\ has_text_column self = true
      /\ ~ snd row == 0
      /\ valid_ymd (fst (fst row)) (snd (fst row)) 1 = true
      /\ ~ monthly_investment self == 0
      /\ v' = Vars.mk
                (Vars.total_invested v + (Vars.accumulated_cash v + monthly_investment self))
                (Vars.total_coins v
                 + (Vars.accumulated_cash v + monthly_investment self) / snd row)
                0
                (Vars.purchases v
                 ++ [Purchase.mk (mkDate (fst (fst row)) (snd (fst row)) 1) (snd row)
                       (Vars.accumulated_cash v + monthly_investment self)
                       ((Vars.accumulated_cash v + monthly_investment self) / snd row)
                       (Vars.total_invested v
                        + (Vars.accumulated_cash v + monthly_investment self))
                       (Vars.total_coins v
                        + (Vars.accumulated_cash v + monthly_investment self) / snd row)
                       (py_int ((Vars.accumulated_cash v + monthly_investment self)
                                / monthly_investment self))])).
Proof.
  unfold step. destruct (Z.eqb_spec (snd (fst row)) target_month) as [E|E].
  - destruct (has_text_column self) eqn:Et; [|discriminate].
    unfold py_div at 1. destruct (Qeq_bool (snd row) 0) eqn:Ep; [discriminate|].
    cbn [of_arith and_then].
    unfold Timestamp. destruct (valid_ymd (fst (fst row)) (snd (fst row)) 1) eqn:Ev;
      [|discriminate]. cbn [of_outcome and_then].
    unfold py_div. destruct (Qeq_bool (monthly_investment self) 0) eqn:Em; [discriminate|].
    cbn [of_arith and_then]. intro H. injection H as <-. right.
    apply Qeq_bool_neq in Em. apply Qeq_bool_neq in Ep. repeat split; auto.
  - intro H. injection H as <-. left. split; [exact E | reflexivity].
Qed.

Lemma backtest_step_ok (n : nat) (v v' : Vars.t) (row : (Z * Z) * Q) :
  In row (all_monthly_data self) ->
  state_ok n v -> step self target_month v row = Done v' -> state_ok (S n) v'.
Proof.
  intros Hin (Hsum & (k & Hk) & Hall) Hstep.
  pose proof (Qnat_S n) as Hn.
  destruct (backtest_step_inv v v' row Hstep)
    as [(Hne & ->)|(Heq & Htext & Hprice & Hvalid & Hm & ->)].
  - unfold state_ok. cbn [Vars.total_invested Vars.accumulated_cash Vars.purchases].
    split; [rewrite Hn; lra|]. split; [|exact Hall].
    exists (S k). rewrite (Qnat_S k), Hk. ring.
  - unfold state_ok. cbn [Vars.total_invested Vars.accumulated_cash Vars.purchases].
    split; [rewrite Hn; lra|]. split; [exists 0%nat; unfold Qnat; simpl; ring|].
    apply Forall_app. split; [exact Hall|]. constructor; [|constructor].
    assert (Hratio : (Vars.accumulated_cash v + monthly_investment self)
                     / monthly_investment self == Qnat (S k)).
    { rewrite (Qnat_S k), Hk. field. exact Hm. }
    unfold purchase_ok.
    cbn [Purchase.date Purchase.months_accumulated Purchase.investment_amount
         Purchase.coins_bought Purchase.price month day].
    rewrite (py_int_of_nat _ (S k) Hratio).
    split; [exact Heq|]. split; [reflexivity|]. split; [exact Htext|].
    split; [exact Hprice|]. split; [lia|].
    split; [fold (Qnat (S k)); rewrite (Qnat_S k), Hk; ring|].
    split; [reflexivity|]. exists row. repeat split. exact Hin.
Qed.

Lemma backtest_loop_inv (rows : list ((Z * Z) * Q)) :
  (forall row, In row rows -> In row (all_monthly_data self)) ->
  forall n v v',
    state_ok n v -> loop self target_month rows v = Done v' ->
    state_ok (n + length rows) v'.
Proof.
  induction rows as [|row rows IH]; intros Hsub n v v' Hv Hloop.
  - simpl in Hloop. injection Hloop as <-. rewrite Nat.add_0_r. exact Hv.
  - cbn [loop] in Hloop.
    destruct (step self target_month v row) as [v1| |] eqn:E; try discriminate.
    cbn [and_then] in Hloop.
    replace (n + length (row :: rows))%nat with (S n + length rows)%nat by (simpl; lia).
    apply (IH (fun r Hr => Hsub r (or_intror Hr)) (S n) v1 v'); [|exact Hloop].
    apply (backtest_step_ok n v v1 row); [apply Hsub; left; reflexivity | exact Hv | exact E].
Qed.

(** A run that returns a result, and what the result is built from. *)
Lemma backtest_run_inv (r : Results.t) :
  run_dca_strategy self target_month = Done (Some r) ->
  exists v current_price,
    loop self target_month (all_monthly_data self) init = Done v
    /\ Vars.purchases v <> []
    /\ r = Results.mk target_month (Vars.total_invested v) (Vars.total_coins v)
             (if Qlt_bool 0 (Vars.total_coins v)
              then Vars.total_invested v / Vars.total_coins v else 0)
             current_price (Vars.total_coins v * current_price) (Vars.accumulated_cash v)
             (Vars.total_coins v * current_price + Vars.accumulated_cash v)
             (Vars.total_coins v * current_price + Vars.accumulated_cash v
              - Qnat (length (all_monthly_data self)) * monthly_investment self)
             (if Qlt_bool 0 (Qnat (length (all_monthly_data self)) * monthly_investment self)
              then (Vars.total_coins v * current_price + Vars.accumulated_cash v
                    - Qnat (length (all_monthly_data self)) * monthly_investment self)
                   / (Qnat (length (all_monthly_data self)) * monthly_investment self) * 100
              else 0)
             (length (Vars.purchases v)) (length (all_monthly_data self))
             (Qnat (length (all_monthly_data self)) * monthly_investment self)
             (Vars.purchases v).
Proof.
  unfold run_dca_strategy. intro H.
  destruct (length (all_monthly_data self) =? 0)%nat; [discriminate|].
  destruct (loop self target_month (all_monthly_data self) init) as [v| |]; try discriminate.
  cbn [and_then] in H.
  destruct (Vars.purchases v) as [|p ps] eqn:Ep; [discriminate|].
  cbn [length Nat.ltb Nat.leb] in H.
  destruct (iloc_last (map close (df self))) as [cp|]; [|discriminate].
  cbn [of_outcome and_then] in H. injection H as <-.
  exists v, cp. split; [reflexivity|]. rewrite Ep. split; [discriminate | reflexivity].
Qed.

Lemma backtest_state_init : state_ok 0 init.
Proof.
  unfold state_ok, init. simpl. split; [unfold Qnat; simpl; ring|].
  split; [exists 0%nat; unfold Qnat; simpl; ring | constructor].
Qed.

(** The result of a run: cash conservation and the purchases. *)
Lemma backtest_result_ok (r : Results.t) :
  run_dca_strategy self target_month = Done (Some r) ->
  Results.total_invested r + Results.accumulated_cash r == Results.total_should_save r
  /\ Results.total_should_save r = Qnat (Results.total_months r) * monthly_investment self
  /\ Results.total_months r = length (group_keys (df self))
  /\ Results.total_return r == Results.current_value r - Results.total_invested r
  /\ Results.month r = target_month
  /\ Results.purchases r <> []
  /\ Forall purchase_ok (Results.purchases r).
Proof.
  intro Hrun. destruct (backtest_run_inv r Hrun) as (v & cp & Hloop & Hp & ->).
  pose proof (backtest_loop_inv (all_monthly_data self) (fun _ H => H) 0 init v
                backtest_state_init Hloop) as (Hsum & _ & Hall).
  cbn [Nat.add] in Hsum.
  cbn [Results.total_invested Results.accumulated_cash Results.total_should_save
       Results.total_months Results.total_return Results.current_value Results.month
       Results.purchases].
  split; [exact Hsum|]. split; [reflexivity|]. split; [apply all_monthly_data_length|].
  split; [lra|]. split; [reflexivity|]. split; assumption.
Qed.

End Backtest.

(** X25. The month-of-the-year backtest keeps its books.  A result of
    [run_dca_strategy] is only returned on a frame that has a column that
    is not numeric.  In a result, what was invested plus the cash left is
    the stipend of every month of the frame ([total_should_save], the
    number of months with rows times the monthly amount), so the reported
    [total_return] is the value of the coins minus what was invested.
    Every purchase is dated the first of a month of the frame whose
    number is the target month and is made at the close of the first row
    of that month, which is not zero.  With a whole monthly amount every
    purchase spends a whole number of stipends: [months_accumulated] is at
    least 1 and [investment_amount = months_accumulated *
    monthly_investment]. *)
Theorem backtest_keeps_its_books (self : DCABacktest.t) (target_month : Z)
    (r : DCABacktest.Results.t) :
  DCABacktest.run_dca_strategy self target_month = DCABacktest.Done (Some r) ->
  DCABacktest.has_text_column self = true
  /\ DCABacktest.Results.total_invested r + DCABacktest.Results.accumulated_cash r
     == DCABacktest.Results.total_should_save r
  /\ DCABacktest.Results.total_should_save r
     = Qnat (DCABacktest.Results.total_months r) * DCABacktest.monthly_investment self
  /\ DCABacktest.Results.total_months r = length (group_keys (DCABacktest.df self))
  /\ DCABacktest.Results.total_return r
     == DCABacktest.Results.current_value r - DCABacktest.Results.total_invested r
  /\ DCABacktest.Results.purchases r <> []
  /\ Forall (fun p =>
               month (DCABacktest.Purchase.date p) = target_month
               /\ day (DCABacktest.Purchase.date p) = 1%Z
               /\ ~ DCABacktest.Purchase.price p == 0
               /\ DCABacktest.Purchase.coins_bought p
                  = DCABacktest.Purchase.investment_amount p / DCABacktest.Purchase.price p
               /\ exists first rest,
                   month_rows (DCABacktest.df self)
                     (year (DCABacktest.Purchase.date p)) (month (DCABacktest.Purchase.date p))
                   = first :: rest
                   /\ DCABacktest.Purchase.price p = close first)
       (DCABacktest.Results.purchases r)
  /\ (backtest_whole_amount self ->
      Forall (fun p =>
                (1 <= DCABacktest.Purchase.months_accumulated p)%Z
                /\ DCABacktest.Purchase.investment_amount p
                   == inject_Z (DCABacktest.Purchase.months_accumulated p)
                      * DCABacktest.monthly_investment self)
        (DCABacktest.Results.purchases r)).
Proof.
  intro Hrun.
  destruct (backtest_result_ok self target_month r Hrun)
    as (H1 & H2 & H3 & H4 & _ & H5 & H6).
  split.
  { destruct (DCABacktest.Results.purchases r) as [|p ps]; [congruence|].
    apply Forall_cons_iff in H6. destruct H6 as ((_ & _ & Htext & _) & _). exact Htext. }
  split; [exact H1|]. split; [exact H2|]. split; [exact H3|]. split; [exact H4|].
  split; [exact H5|]. split.
  - apply Forall_impl with (2 := H6).
    intros p (Hm & Hd & _ & Hprice0 & _ & _ & Hc & row & Hin & Hdate & Hprice).
    split; [exact Hm|]. split; [exact Hd|]. split; [exact Hprice0|]. split; [exact Hc|].
    destruct (all_monthly_data_spec self) as (_ & Hrows). rewrite Forall_forall in Hrows.
    destruct (Hrows row Hin) as (first & rest & Hfr & Hcl).
    exists first, rest. rewrite Hdate. cbn [year month]. split; [exact Hfr | congruence].
  - intros _. apply Forall_impl with (2 := H6).
    intros p (_ & _ & _ & _ & Hk & Hinv & _). split; [exact Hk | exact Hinv].
Qed.

(** The theorem at [three_months] with February as the target month:
    the one purchase spends the stipends of January and February. *)
Lemma backtest_keeps_its_books_witness :
  exists r,
    DCABacktest.run_dca_strategy (DCABacktest.mk three_months true 1000) 2
    = DCABacktest.Done (Some r)
    /\ DCABacktest.Results.total_invested r + DCABacktest.Results.accumulated_cash r
       == DCABacktest.Results.total_should_save r
    /\ map DCABacktest.Purchase.months_accumulated (DCABacktest.Results.purchases r) = [2%Z].
Proof.
  destruct (DCABacktest.run_dca_strategy (DCABacktest.mk three_months true 1000) 2)
    as [[r|]| |] eqn:E; try (vm_compute in E; discriminate).
  exists r. split; [reflexivity|].
  split.
  - apply (backtest_keeps_its_books (DCABacktest.mk three_months true 1000) 2 r E).
  - vm_compute in E. injection E as <-. reflexivity.
Defined.

Lemma group_keys_nonempty (df : DataFrame) : df <> [] -> group_keys df <> [].
Proof.
  destruct df as [|row rows]; [congruence|]. intros _ E.
  assert (Hin : In (year (date row), month (date row)) (group_keys (row :: rows))).
  { apply group_keys_In. exists row. split; [left; reflexivity | reflexivity]. }
  rewrite E in Hin. exact Hin.
Qed.

Lemma valid_first_of_month (y m : Z) : (1 <= m <= 12)%Z -> valid_ymd y m 1 = true.
Proof.
  intro H. unfold valid_ymd, days_in_month.
  destruct (Z.leb_spec 1 m); [|lia]. destruct (Z.leb_spec m 12); [|lia]. cbn [andb].
  destruct (m =? 2)%Z; [destruct (is_leap y); reflexivity|].
  destruct ((m =? 4) || (m =? 6) || (m =? 9) || (m =? 11))%Z; reflexivity.
Qed.

Lemma py_div_zero_divisor (a b : Q) : b == 0 -> py_div a b = ZeroDivisionError.
Proof. intro H. unfold py_div. apply Qeq_bool_iff in H. rewrite H. reflexivity. Qed.

Lemma py_div_nonzero (a b : Q) : ~ b == 0 -> py_div a b = Value (a / b).
Proof.
  intro H. unfold py_div. destruct (Qeq_bool b 0) eqn:E; [|reflexivity].
  apply Qeq_bool_iff in E. contradiction.
Qed.

Section BacktestRuns.

Import DCABacktest.

Variable self : DCABacktest.t.
Variable target_month : Z.

Hypothesis calendar : calendar_months (df self).

Lemma all_monthly_data_valid :
  Forall (fun row => valid_ymd (fst (fst row)) (snd (fst row)) 1 = true)
    (all_monthly_data self).
Proof.
  rewrite Forall_forall. intros row Hin. apply valid_first_of_month.
  assert (Hk : In (fst row) (group_keys (df self))).
  { rewrite <- (proj1 (all_monthly_data_spec self)). apply in_map. exact Hin. }
  apply group_keys_In in Hk. destruct Hk as (r & Hr & <-). cbn [snd].
  unfold calendar_months in calendar. rewrite Forall_forall in calendar. apply calendar. exact Hr.
Qed.

(** With positive closes the monthly frame has no zero price. *)
Lemma all_monthly_data_prices :
  positive_closes (df self) -> Forall (fun row => ~ snd row == 0) (all_monthly_data self).
Proof.
  intro Hpos. destruct (all_monthly_data_spec self) as (_ & Hrows).
  apply Forall_impl with (2 := Hrows). intros row (first & rest & Hfr & Hcl).
  assert (Hin : In first (month_rows (df self) (fst (fst row)) (snd (fst row))))
    by (rewrite Hfr; left; reflexivity).
  apply month_rows_In in Hin. destruct Hin as (Hin & _).
  unfold positive_closes in Hpos. rewrite Forall_forall in Hpos. specialize (Hpos first Hin).
  rewrite Hcl. lra.
Qed.

(** The loop passes every month that is not the target. *)
Lemma backtest_loop_passes (rows : list ((Z * Z) * Q)) (v : Vars.t) :
  Forall (fun row => snd (fst row) <> target_month) rows ->
  exists v', loop self target_month rows v = Done v' /\ Vars.purchases v' = Vars.purchases v.
Proof.
  intro H. revert v. induction H as [|row rows Hrow _ IH]; intro v.
  { exists v. split; reflexivity. }
  cbn [loop]. unfold step.
  destruct (Z.eqb_spec (snd (fst row)) target_month) as [E|E]; [contradiction|].
  cbn [and_then]. set (v1 := Vars.mk _ _ _ _).
  destruct (IH v1) as (v' & Hv' & Hp). exists v'. split; [exact Hv' | exact Hp].
Qed.

(** On rows of Python objects, with prices and an amount that are not
    zero, the loop runs to its end and buys at every target month. *)
Lemma backtest_loop_buys (rows : list ((Z * Z) * Q)) :
  has_text_column self = true ->
  ~ monthly_investment self == 0 ->
  Forall (fun row => valid_ymd (fst (fst row)) (snd (fst row)) 1 = true) rows ->
  Forall (fun row => ~ snd row == 0) rows ->
  forall v,
    exists v',
      loop self target_month rows v = Done v'
      /\ (Vars.purchases v <> [] -> Vars.purchases v' <> [])
      /\ (Exists (fun row => snd (fst row) = target_month) rows -> Vars.purchases v' <> []).
Proof.
  intros Htext Hm Hvalid. induction Hvalid as [|row rows Hrow _ IH]; intros Hprices v.
  { exists v. split; [reflexivity|]. split; [auto | intro H; inversion H]. }
  apply Forall_cons_iff in Hprices. destruct Hprices as (Hprice & Hprices).
  cbn [loop]. unfold step.
  destruct (Z.eqb_spec (snd (fst row)) target_month) as [E|E].
  - rewrite Htext, (py_div_nonzero _ _ Hprice). cbn [of_arith and_then].
    unfold Timestamp. rewrite Hrow. cbn [of_outcome and_then].
    rewrite (py_div_nonzero _ _ Hm). cbn [of_arith and_then].
    set (v1 := Vars.mk _ _ 0 _).
    destruct (IH Hprices v1) as (v' & Hv' & Hkeep & _).
    assert (Hp : Vars.purchases v' <> []).
    { apply Hkeep. unfold v1. cbn [Vars.purchases]. destruct (Vars.purchases v); discriminate. }
    exists v'. split; [exact Hv'|]. split; intros _; exact Hp.
  - cbn [and_then]. set (v1 := Vars.mk _ _ _ _).
    destruct (IH Hprices v1) as (v' & Hv' & Hkeep & Hbuy).
    exists v'. split; [exact Hv'|]. split; [exact Hkeep|].
    intro H. apply Exists_cons in H. destruct H as [H|H]; [contradiction | exact (Hbuy H)].
Qed.

(** On rows of Python objects the loop raises [ZeroDivisionError] when it
    meets a target month and the monthly amount is zero, and when it
    meets a target month whose price is zero. *)
Lemma backtest_loop_divides_by_zero (rows : list ((Z * Z) * Q)) :
  has_text_column self = true ->
  Forall (fun row => valid_ymd (fst (fst row)) (snd (fst row)) 1 = true) rows ->
  forall v,
    (monthly_investment self == 0 /\ Exists (fun row => snd (fst row) = target_month) rows)
    \/ Exists (fun row => snd (fst row) = target_month /\ snd row == 0) rows ->
    loop self target_month rows v = DividedByZero.
Proof.
  intros Htext Hvalid. induction Hvalid as [|row rows Hrow _ IH]; intros v Hcase.
  { destruct Hcase as [(_ & H)|H]; inversion H. }
  cbn [loop]. unfold step.
  destruct (Z.eqb_spec (snd (fst row)) target_month) as [E|E].
  - rewrite Htext. unfold py_div at 1.
    destruct (Qeq_bool (snd row) 0) eqn:Ep; [reflexivity|]. cbn [of_arith and_then].
    unfold Timestamp. rewrite Hrow. cbn [of_outcome and_then]. unfold py_div.
    destruct (Qeq_bool (monthly_investment self) 0) eqn:Em; [reflexivity|].
    cbn [of_arith and_then]. apply IH.
    apply Qeq_bool_neq in Ep. apply Qeq_bool_neq in Em.
    destruct Hcase as [(Hm & _)|H]; [contradiction|]. right.
    apply Exists_cons in H. destruct H as [(_ & H)|H]; [contradiction | exact H].
  - cbn [and_then]. apply IH. destruct Hcase as [(Hm & H)|H].
    + left. split; [exact Hm|]. apply Exists_cons in H. destruct H as [H|H]; [contradiction | exact H].
    + right. apply Exists_cons in H. destruct H as [(H & _)|H]; [contradiction | exact H].
Qed.

(** On rows of floats the loop raises [TypeError] at the first target
    month. *)
Lemma backtest_loop_float_rows (rows : list ((Z * Z) * Q)) (v : Vars.t) :
  has_text_column self = false ->
  Exists (fun row => snd (fst row) = target_month) rows ->
  loop self target_month rows v = Failed TypeError.
Proof.
  intros Htext H. revert v. induction H as [row rows Hrow|row rows _ IH]; intro v.
  - cbn [loop]. unfold step. apply Z.eqb_eq in Hrow. rewrite Hrow, Htext. reflexivity.
  - cbn [loop]. unfold step.
    destruct (Z.eqb_spec (snd (fst row)) target_month) as [E|E].
    + rewrite Htext. reflexivity.
    + cbn [and_then]. apply IH.
Qed.

Lemma target_in_monthly_data :
  (exists row, In row (df self) /\ month (date row) = target_month)
  <-> Exists (fun row => snd (fst row) = target_month) (all_monthly_data self).
Proof.
  rewrite Exists_exists. split.
  - intros (r & Hr & Hm).
    assert (Hk : In (year (date r), month (date r)) (map fst (all_monthly_data self))).
    { rewrite (proj1 (all_monthly_data_spec self)). apply group_keys_In. exists r. auto. }
    apply in_map_iff in Hk. destruct Hk as (row & Hrow & Hin).
    exists row. split; [exact Hin|]. rewrite Hrow. exact Hm.
  - intros (row & Hin & Hm).
    assert (Hk : In (fst row) (group_keys (df self))).
    { rewrite <- (proj1 (all_monthly_data_spec self)). apply in_map. exact Hin. }
    apply group_keys_In in Hk. destruct Hk as (r & Hr & Hkey).
    exists r. split; [exact Hr|]. rewrite <- Hm, <- Hkey. reflexivity.
Qed.

(** A target month whose first row closes at zero is a zero price of the
    monthly frame. *)
Lemma zero_first_close_in_monthly_data (y : Z) (first : Bar) (rest : DataFrame) :
  month_rows (df self) y target_month = first :: rest ->
  close first == 0 ->
  Exists (fun row => snd (fst row) = target_month /\ snd row == 0) (all_monthly_data self).
Proof.
  intros Hrows Hzero.
  assert (Hk : In (y, target_month) (group_keys (df self))).
  { assert (Hin : In first (month_rows (df self) y target_month))
      by (rewrite Hrows; left; reflexivity).
    apply month_rows_In in Hin. destruct Hin as (Hin & Hy & Hm).
    apply group_keys_In. exists first. split; [exact Hin | congruence]. }
  unfold all_monthly_data. induction (group_keys (df self)) as [|k ks IH]; [destruct Hk|].
  cbn [flat_map]. destruct Hk as [->|Hk].
  - cbn [fst snd]. rewrite Hrows. cbn [app]. apply Exists_cons_hd. cbn [fst snd]. auto.
  - apply Exists_app. right. apply IH. exact Hk.
Qed.

(** The ways a run ends. *)
Lemma backtest_run_cases :
  ((forall row, In row (df self) -> month (date row) <> target_month) ->
   run_dca_strategy self target_month = Done None)
  /\ ((exists row, In row (df self) /\ month (date row) = target_month) ->
      has_text_column self = true ->
      positive_closes (df self) ->
      ~ monthly_investment self == 0 ->
      exists r, run_dca_strategy self target_month = Done (Some r))
  /\ ((exists row, In row (df self) /\ month (date row) = target_month) ->
      has_text_column self = true ->
      monthly_investment self == 0 ->
      run_dca_strategy self target_month = DividedByZero)
  /\ ((exists y first rest,
          month_rows (df self) y target_month = first :: rest /\ close first == 0) ->
      has_text_column self = true ->
      run_dca_strategy self target_month = DividedByZero)
  /\ ((exists row, In row (df self) /\ month (date row) = target_month) ->
      has_text_column self = false ->
      run_dca_strategy self target_month = Failed TypeError).
Proof.
  unfold run_dca_strategy. split; [|split; [|split; [|split]]].
  - intro Habsent.
    destruct (length (all_monthly_data self) =? 0)%nat; [reflexivity|].
    destruct (backtest_loop_passes (all_monthly_data self) init) as (v & Hv & Hp).
    { rewrite Forall_forall. intros row Hin Hm.
      assert (Hex : Exists (fun row => snd (fst row) = target_month) (all_monthly_data self))
        by (apply Exists_exists; exists row; auto).
      apply target_in_monthly_data in Hex. destruct Hex as (r & Hr & Hmr).
      apply (Habsent r Hr Hmr). }
    rewrite Hv. cbn [and_then]. rewrite Hp. reflexivity.
  - intros Hpresent Htext Hpos Hm. pose proof Hpresent as Hex.
    apply target_in_monthly_data in Hex.
    destruct (backtest_loop_buys (all_monthly_data self) Htext Hm all_monthly_data_valid
                (all_monthly_data_prices Hpos) init) as (v & Hv & _ & Hbuy).
    specialize (Hbuy Hex).
    destruct (all_monthly_data self) as [|row0 rows0] eqn:Edata; [inversion Hex|].
    cbn [length Nat.eqb]. rewrite Hv. cbn [and_then].
    destruct (Vars.purchases v) as [|p ps]; [congruence|]. cbn [length Nat.ltb Nat.leb].
    destruct Hpresent as (r & Hr & _).
    destruct (iloc_last_nonempty (map close (df self))) as (cp & Hcp).
    { destruct (df self); [destruct Hr | discriminate]. }
    rewrite Hcp. cbn [of_outcome and_then]. eexists. reflexivity.
  - intros Hpresent Htext Hm. apply target_in_monthly_data in Hpresent.
    pose proof (backtest_loop_divides_by_zero (all_monthly_data self) Htext
                  all_monthly_data_valid init (or_introl (conj Hm Hpresent))) as Hdiv.
    destruct (all_monthly_data self) as [|row0 rows0] eqn:Edata; [inversion Hpresent|].
    cbn [length Nat.eqb]. rewrite Hdiv. reflexivity.
  - intros (y & first & rest & Hrows & Hzero) Htext.
    pose proof (zero_first_close_in_monthly_data y first rest Hrows Hzero) as Hex.
    pose proof (backtest_loop_divides_by_zero (all_monthly_data self) Htext
                  all_monthly_data_valid init (or_intror Hex)) as Hdiv.
    destruct (all_monthly_data self) as [|row0 rows0] eqn:Edata; [inversion Hex|].
    cbn [length Nat.eqb]. rewrite Hdiv. reflexivity.
  - intros Hpresent Htext. apply target_in_monthly_data in Hpresent.
    pose proof (backtest_loop_float_rows (all_monthly_data self) init Htext Hpresent) as Hfail.
    destruct (all_monthly_data self) as [|row0 rows0] eqn:Edata; [inversion Hpresent|].
    cbn [length Nat.eqb]. rewrite Hfail. reflexivity.
Qed.

End BacktestRuns.

Lemma whole_amount_not_zero (self : DCABacktest.t) :
  backtest_whole_amount self -> ~ DCABacktest.monthly_investment self == 0.
Proof.
  intros (z & Hz & Hm & _) E. rewrite Hm in E.
  assert (H : 0 < inject_Z z) by (replace 0 with (inject_Z 0) by reflexivity;
                                  rewrite <- Zlt_Qlt; exact Hz).
  lra.
Qed.

(** X26. How a run of the month-of-the-year backtest ends, on a frame
    whose rows carry calendar months.  When no row of the frame lies in
    the target month (as on an empty frame) [run_dca_strategy] returns
    [None].  When some row does: on a frame all of whose columns are
    numeric it raises [TypeError] (at [pd.Timestamp(year=row['year'],
    ...)]); on a frame with a column that is not numeric it returns a
    result for the target month if the closes are positive and the
    monthly amount is a whole amount, and it raises [ZeroDivisionError]
    when the monthly amount is zero or when the first row of some target
    month closes at zero. *)
Theorem backtest_result_iff_month_present (self : DCABacktest.t) (target_month : Z) :
  calendar_months (DCABacktest.df self) ->
  ((forall row, In row (DCABacktest.df self) -> month (date row) <> target_month) ->
   DCABacktest.run_dca_strategy self target_month = DCABacktest.Done None)
  /\ ((exists row, In row (DCABacktest.df self) /\ month (date row) = target_month) ->
      DCABacktest.has_text_column self = false ->
      DCABacktest.run_dca_strategy self target_month = DCABacktest.Failed TypeError)
  /\ ((exists row, In row (DCABacktest.df self) /\ month (date row) = target_month) ->
      DCABacktest.has_text_column self = true ->
      positive_closes (DCABacktest.df self) ->
      backtest_whole_amount self ->
      exists r,
        DCABacktest.run_dca_strategy self target_month = DCABacktest.Done (Some r)
        /\ DCABacktest.Results.month r = target_month)
  /\ ((exists row, In row (DCABacktest.df self) /\ month (date row) = target_month) ->
      DCABacktest.has_text_column self = true ->
      DCABacktest.monthly_investment self == 0 ->
      DCABacktest.run_dca_strategy self target_month = DCABacktest.DividedByZero)
  /\ ((exists y first rest,
          month_rows (DCABacktest.df self) y target_month = first :: rest
          /\ close first == 0) ->
      DCABacktest.has_text_column self = true ->
      DCABacktest.run_dca_strategy self target_month = DCABacktest.DividedByZero).
Proof.
  intro Hcal.
  destruct (backtest_run_cases self target_month Hcal) as (H1 & H2 & H3 & H4 & H5).
  split; [exact H1|]. split; [exact H5|]. split; [|split; [exact H3 | exact H4]].
  intros Hp Htext Hpos Hwhole.
  destruct (H2 Hp Htext Hpos (whole_amount_not_zero self Hwhole)) as (r & Hr).
  exists r. split; [exact Hr|].
  apply (backtest_result_ok self target_month r Hr).
Qed.

(** The theorem at [three_months]: April has no bar. *)
Lemma backtest_result_iff_month_present_witness :
  DCABacktest.run_dca_strategy (DCABacktest.mk three_months true 1000) 4
  = DCABacktest.Done None.
Proof.
  apply (backtest_result_iff_month_present (DCABacktest.mk three_months true 1000) 4).
  - repeat (constructor; [simpl; lia|]). constructor.
  - intros row Hin. simpl in Hin.
    repeat (destruct Hin as [<-|Hin]; [simpl; lia|]). destruct Hin.
Defined.

(** The same frame with February as the target month, by the kind of its
    columns. *)
Example backtest_february_by_columns :
  DCABacktest.run_dca_strategy (DCABacktest.mk three_months false 1000) 2
  = DCABacktest.Failed TypeError
  /\ DCABacktest.run_dca_strategy (DCABacktest.mk three_months true 0) 2
     = DCABacktest.DividedByZero
  /\ exists r,
      DCABacktest.run_dca_strategy (DCABacktest.mk three_months true 1000) 2
      = DCABacktest.Done (Some r)
      /\ DCABacktest.Results.total_invested r == 2000
      /\ DCABacktest.Results.accumulated_cash r == 1000.
Proof.
  split; [reflexivity|]. split; [reflexivity|].
  eexists. split; [vm_compute; reflexivity|]. split; reflexivity.
Qed.

Section BacktestAllMonths.

Import DCABacktest.

Variable self : DCABacktest.t.

Hypothesis calendar : calendar_months (df self).

Let present (m : Z) : bool := existsb (fun row => (month (date row) =? m)%Z) (df self).

Lemma present_iff (m : Z) :
  present m = true <-> exists row, In row (df self) /\ month (date row) = m.
Proof.
  unfold present. rewrite existsb_exists. split.
  - intros (row & Hin & E). apply Z.eqb_eq in E. exists row. auto.
  - intros (row & Hin & E). exists row. split; [exact Hin | apply Z.eqb_eq; exact E].
Qed.

Lemma absent_run_none (m : Z) :
  present m = false -> run_dca_strategy self m = Done None.
Proof.
  intro Ep. apply (backtest_run_cases self m calendar).
  intros row Hin E.
  assert (Ht : present m = true) by (apply present_iff; exists row; auto).
  congruence.
Qed.

(** The loop over the twelve months keeps the results of the months
    that occur in the frame. *)
Lemma collect_months_spec (months : list Z) :
  has_text_column self = true ->
  positive_closes (df self) ->
  ~ monthly_investment self == 0 ->
  exists results,
    collect_months self months = Done results
    /\ map Results.month results = filter present months
    /\ Forall (fun r => run_dca_strategy self (Results.month r) = Done (Some r)) results.
Proof.
  intros Htext Hpos Hm. induction months as [|m months (results & Hc & Hmonths & Hall)].
  - exists []. split; [reflexivity|]. split; [reflexivity | constructor].
  - destruct (backtest_run_cases self m calendar) as (_ & Hsome & _).
    cbn [collect_months filter]. destruct (present m) eqn:Ep.
    + apply present_iff in Ep. destruct (Hsome Ep Htext Hpos Hm) as (r & Hr).
      assert (Hmr : Results.month r = m) by (apply (backtest_result_ok self m r Hr)).
      rewrite Hr, Hc. cbn [and_then]. exists (r :: results).
      split; [reflexivity|]. split; [simpl; congruence|].
      constructor; [rewrite Hmr; exact Hr | exact Hall].
    + rewrite (absent_run_none m Ep), Hc.
      cbn [and_then]. exists results. split; [reflexivity|]. split; assumption.
Qed.

Lemma collect_months_empty (months : list Z) :
  df self = [] -> collect_months self months = Done [].
Proof.
  intro E. induction months as [|m months IH]; [reflexivity|].
  destruct (backtest_run_cases self m calendar) as (Hnone & _).
  cbn [collect_months]. rewrite Hnone, IH; [reflexivity|].
  intros row Hin. rewrite E in Hin. destruct Hin.
Qed.

(** On rows of floats the loop over the months raises at the first month
    that occurs in the frame. *)
Lemma collect_months_float_rows (months : list Z) :
  has_text_column self = false ->
  Exists (fun m => present m = true) months ->
  collect_months self months = Failed TypeError.
Proof.
  intros Htext H. induction H as [m months Hm|m months _ IH].
  - cbn [collect_months]. apply present_iff in Hm.
    destruct (backtest_run_cases self m calendar) as (_ & _ & _ & _ & Hfail).
    rewrite (Hfail Hm Htext). reflexivity.
  - cbn [collect_months]. destruct (present m) eqn:Ep.
    + apply present_iff in Ep.
      destruct (backtest_run_cases self m calendar) as (_ & _ & _ & _ & Hfail).
      rewrite (Hfail Ep Htext). reflexivity.
    + rewrite (absent_run_none m Ep), IH. reflexivity.
Qed.

(** A frame with rows has a row in one of the twelve months. *)
Lemma some_month_present :
  df self <> [] ->
  Exists (fun m => present m = true) [1; 2; 3; 4; 5; 6; 7; 8; 9; 10; 11; 12]%Z.
Proof.
  intro Hne. destruct (df self) as [|row0 rows0] eqn:Edf; [congruence|].
  assert (Hrange : (1 <= month (date row0) <= 12)%Z).
  { pose proof calendar as Hcal. unfold calendar_months in Hcal.
    apply Forall_cons_iff in Hcal. tauto. }
  apply Exists_exists. exists (month (date row0)). split; [simpl; lia|].
  unfold present. cbn [existsb]. rewrite Z.eqb_refl. reflexivity.
Qed.

End BacktestAllMonths.

(** X27. [run_all_months] of the month-of-the-year backtest.  On a frame
    without rows no month gives a result and sorting the empty summary by
    [return_pct] raises [KeyError].  On a frame with rows that carry
    calendar months: when all its columns are numeric it raises
    [TypeError]; when it has a column that is not numeric, positive
    closes and a whole monthly amount, it keeps one result for each month
    number from 1 to 12 that occurs in the frame, in this order, and none
    for the others, and all results share [total_months] and
    [total_should_save]. *)
Theorem backtest_run_all_months (self : DCABacktest.t) :
  (DCABacktest.df self = [] ->
   DCABacktest.run_all_months self = DCABacktest.Failed KeyError)
  /\ (calendar_months (DCABacktest.df self) ->
      DCABacktest.df self <> [] ->
      DCABacktest.has_text_column self = false ->
      DCABacktest.run_all_months self = DCABacktest.Failed TypeError)
  /\ (calendar_months (DCABacktest.df self) ->
      DCABacktest.df self <> [] ->
      DCABacktest.has_text_column self = true ->
      positive_closes (DCABacktest.df self) ->
      backtest_whole_amount self ->
      exists results,
        DCABacktest.run_all_months self = DCABacktest.Done results
        /\ results <> []
        /\ map DCABacktest.Results.month results
           = filter (fun m => existsb (fun row => (month (date row) =? m)%Z)
                                (DCABacktest.df self))
               [1; 2; 3; 4; 5; 6; 7; 8; 9; 10; 11; 12]%Z
        /\ Forall (fun r =>
                     DCABacktest.run_dca_strategy self (DCABacktest.Results.month r)
                     = DCABacktest.Done (Some r)) results
        /\ forall a b,
            In a results -> In b results ->
            DCABacktest.Results.total_months a = DCABacktest.Results.total_months b
            /\ DCABacktest.Results.total_should_save a
               = DCABacktest.Results.total_should_save b).
Proof.
  split; [|split].
  - intro E. unfold DCABacktest.run_all_months.
    rewrite (collect_months_empty self); [reflexivity | rewrite E; constructor | exact E].
  - intros Hcal Hne Htext. unfold DCABacktest.run_all_months.
    rewrite (collect_months_float_rows self Hcal _ Htext (some_month_present self Hcal Hne)).
    reflexivity.
  - intros Hcal Hne Htext Hpos Hwhole.
    destruct (collect_months_spec self Hcal [1; 2; 3; 4; 5; 6; 7; 8; 9; 10; 11; 12]%Z
                Htext Hpos (whole_amount_not_zero self Hwhole))
      as (results & Hc & Hmonths & Hall).
    assert (Hsome : results <> []).
    { pose proof (some_month_present self Hcal Hne) as Hex.
      apply Exists_exists in Hex. destruct Hex as (m & Hin & Hm).
      assert (Hin' : In m (map DCABacktest.Results.month results)).
      { rewrite Hmonths. apply filter_In. split; assumption. }
      intro E. rewrite E in Hin'. destruct Hin'. }
    unfold DCABacktest.run_all_months. rewrite Hc. cbn [DCABacktest.and_then].
    destruct results as [|r0 rs] eqn:Eres; [congruence|]. rewrite <- Eres in *.
    exists results. split; [rewrite Eres; reflexivity|]. split; [exact Hsome|].
    split; [exact Hmonths|]. split; [exact Hall|].
    intros a b Ha Hb. rewrite Forall_forall in Hall.
    pose proof (Hall a Ha) as Hra. pose proof (Hall b Hb) as Hrb.
    destruct (backtest_result_ok self _ a Hra) as (_ & Hta & Hma & _).
    destruct (backtest_result_ok self _ b Hrb) as (_ & Htb & Hmb & _).
    split; [congruence|]. rewrite Hta, Htb, Hma, Hmb. reflexivity.
Qed.

(** On [three_months] the backtest keeps results for January, February
    and March. *)
Example backtest_three_months :
  exists results,
    DCABacktest.run_all_months (DCABacktest.mk three_months true 1000)
    = DCABacktest.Done results
    /\ map DCABacktest.Results.month results = [1; 2; 3]%Z.
Proof.
  destruct (DCABacktest.run_all_months (DCABacktest.mk three_months true 1000))
    as [results| |] eqn:E; try (vm_compute in E; discriminate).
  exists results. split; [reflexivity|].
  vm_compute in E. injection E as <-. reflexivity.
Qed.
